(** * tmux-shortcuts: the column layout of [main.go], embedded and verified

    The program prints a fixed table of tmux key bindings in as many
    side-by-side columns as the terminal width allows.  This file embeds
    [main.go] function by function and states the properties of its text
    utilities, block builder, column packer and renderer.

    Conventions of the embedding:
    - a Go [string] is a Rocq [string]: a sequence of bytes ([ascii]), so
      [len] is the byte length, as in Go;
    - a Go [int] is a [Z]; every [int] of the program is a length, a sum of
      lengths or a quotient of the terminal width, all far from the 64-bit
      bounds, except the result of [strconv.Atoi], whose range check is
      written out;
    - a run-time panic (index out of range, [make] with a negative length)
      is the [Panic] case of [result];
    - standard output is the string of the bytes written to it. *)

From Stdlib Require Import ZArith Lia Ascii String List Bool.
From Stdlib Require DecimalString DecimalN DecimalPos.
From stdpp Require Import base option list gmap strings.

Local Open Scope string_scope.
Local Open Scope list_scope.
Local Open Scope Z_scope.

(** ** Results of code that can panic *)

Inductive result (A : Type) : Type :=
| Ok (a : A)
| Panic (msg : string).
Arguments Ok {A} a.
Arguments Panic {A} msg.

Definition bind {A B : Type} (r : result A) (k : A -> result B) : result B :=
  match r with
  | Ok a => k a
  | Panic msg => Panic msg
  end.

Notation "'do' x <- r ; k" := (bind r (fun x => k))
  (at level 10, x name, r at level 100, k at level 200).

(** [len] of a Go string and of a Go slice. *)
Definition len (s : string) : Z := Z.of_nat (String.length s).
Definition llen {A : Type} (l : list A) : Z := Z.of_nat (length l).

(** [l[i]] on a slice: panics out of range. *)
Definition index {A : Type} (l : list A) (i : nat) : result A :=
  match l !! i with
  | Some x => Ok x
  | None => Panic "index out of range"
  end.

Definition byteVal (c : ascii) : Z := Z.of_N (N_of_ascii c).

(** ** The Go standard library, as far as [main.go] calls it *)

Module utf8.

Definition RuneError : Z := 0xFFFD.
Definition RuneSelf : Z := 0x80.
Definition locb : Z := 0x80.
Definition hicb : Z := 0xBF.

(** The entries of the table [first]: the low three bits are the length
    of the sequence, the high four bits select the accept range of the
    second byte. *)
Definition xx : Z := 0xF1.
Definition as_ : Z := 0xF0.
Definition s1 : Z := 0x02.
Definition s2 : Z := 0x13.
Definition s3 : Z := 0x03.
Definition s4 : Z := 0x23.
Definition s5 : Z := 0x34.
Definition s6 : Z := 0x04.
Definition s7 : Z := 0x44.

Definition first (b : Z) : Z :=
  if b <? 0x80 then as_
  else if b <? 0xC2 then xx
  else if b <? 0xE0 then s1
  else if b =? 0xE0 then s2
  else if b <? 0xED then s3
  else if b =? 0xED then s4
  else if b <? 0xF0 then s3
  else if b =? 0xF0 then s5
  else if b <? 0xF4 then s6
  else if b =? 0xF4 then s7
  else xx.

Definition acceptRanges (i : Z) : Z * Z :=
  if i =? 0 then (locb, hicb)
  else if i =? 1 then (0xA0, hicb)
  else if i =? 2 then (locb, 0x9F)
  else if i =? 3 then (0x90, hicb)
  else if i =? 4 then (locb, 0x8F)
  else (0, 0).

Definition maskx : Z := 0x3F.
Definition mask2 : Z := 0x1F.
Definition mask3 : Z := 0x0F.
Definition mask4 : Z := 0x07.

Definition is_cont (b : Z) : bool := (locb <=? b) && (b <=? hicb).

(** [utf8.DecodeRuneInString]: the first rune of [s] and its width in
    bytes; an invalid or short sequence is [(RuneError, 1)], the empty
    string [(RuneError, 0)]. *)
Definition DecodeRuneInString (s : string) : Z * nat :=
  match s with
  | "" => (RuneError, 0%nat)
  | String c0 t0 =>
    let b0 := byteVal c0 in
    let x := first b0 in
    if as_ <=? x then
      (if x =? as_ then b0 else RuneError, 1%nat)
    else
      let sz := Z.land x 7 in
      let accept := acceptRanges (Z.shiftr x 4) in
      if len s <? sz then (RuneError, 1%nat)
      else
        match t0 with
        | "" => (RuneError, 1%nat)
        | String c1 t1 =>
          let b1 := byteVal c1 in
          if (b1 <? fst accept) || (snd accept <? b1) then (RuneError, 1%nat)
          else if sz <=? 2 then
            (Z.lor (Z.shiftl (Z.land b0 mask2) 6) (Z.land b1 maskx), 2%nat)
          else
            match t1 with
            | "" => (RuneError, 1%nat)
            | String c2 t2 =>
              let b2 := byteVal c2 in
              if negb (is_cont b2) then (RuneError, 1%nat)
              else if sz <=? 3 then
                (Z.lor (Z.lor (Z.shiftl (Z.land b0 mask3) 12)
                              (Z.shiftl (Z.land b1 maskx) 6))
                       (Z.land b2 maskx), 3%nat)
              else
                match t2 with
                | "" => (RuneError, 1%nat)
                | String c3 _ =>
                  let b3 := byteVal c3 in
                  if negb (is_cont b3) then (RuneError, 1%nat)
                  else
                    (Z.lor (Z.lor (Z.lor (Z.shiftl (Z.land b0 mask4) 18)
                                         (Z.shiftl (Z.land b1 maskx) 12))
                                  (Z.shiftl (Z.land b2 maskx) 6))
                           (Z.land b3 maskx), 4%nat)
                end
            end
        end
  end.

(** [for _, r := range s]: the runes of [s] from left to right, each
    with the bytes it was decoded from.  [pending] counts the bytes that
    still belong to the rune decoded last. *)
Fixpoint rangeFrom (s : string) (pending : nat) : list (Z * string) :=
  match s with
  | "" => []
  | String _ t =>
    match pending with
    | S k => rangeFrom t k
    | O =>
      let '(r, size) := DecodeRuneInString s in
      (r, substring 0 size s) :: rangeFrom t (size - 1)
    end
  end.

Definition range (s : string) : list (Z * string) := rangeFrom s 0.

(** [utf8.RuneCountInString]: every invalid byte counts as one rune. *)
Definition RuneCountInString (s : string) : Z := llen (range s).

End utf8.

Module unicode.

(** [unicode.IsSpace]: the Latin-1 cases of the function and, above
    Latin-1, the ranges of the table [White_Space]. *)
Definition IsSpace (r : Z) : bool :=
  if r <=? 0xFF then
    (r =? 0x09) || (r =? 0x0A) || (r =? 0x0B) || (r =? 0x0C) || (r =? 0x0D)
    || (r =? 0x20) || (r =? 0x85) || (r =? 0xA0)
  else
    (r =? 0x1680) || ((0x2000 <=? r) && (r <=? 0x200A))
    || (r =? 0x2028) || (r =? 0x2029) || (r =? 0x202F) || (r =? 0x205F)
    || (r =? 0x3000).

End unicode.

Module strings.

Definition isSpaceRune (p : Z * string) : bool := unicode.IsSpace (fst p).

Fixpoint dropWhile {A : Type} (f : A -> bool) (l : list A) : list A :=
  match l with
  | [] => []
  | x :: t => if f x then dropWhile f t else l
  end.

Fixpoint joinBytes (l : list string) : string :=
  match l with
  | [] => ""
  | x :: t => x +:+ joinBytes t
  end.

(** [strings.TrimSpace]: [s] without its leading and trailing runes
    that are white space. *)
Definition TrimSpace (s : string) : string :=
  let body := dropWhile isSpaceRune (utf8.range s) in
  joinBytes (map snd (rev (dropWhile isSpaceRune (rev body)))).

(** The loop of [strings.FieldsFunc]: [cur] is the field that is open at
    the current rune, if one is. *)
Fixpoint fieldsLoop (rs : list (Z * string)) (cur : option string)
  : list string :=
  match rs with
  | [] => match cur with Some w => [w] | None => [] end
  | (r, bytes) :: rest =>
    if unicode.IsSpace r then
      match cur with
      | Some w => w :: fieldsLoop rest None
      | None => fieldsLoop rest None
      end
    else
      match cur with
      | Some w => fieldsLoop rest (Some (w +:+ bytes))
      | None => fieldsLoop rest (Some bytes)
      end
  end.

(** [strings.Fields]: the maximal runs of runes that are not white
    space. *)
Definition Fields (s : string) : list string :=
  fieldsLoop (utf8.range s) None.

(** [strings.Split] with [n = -1].  For a non-empty separator the scan
    takes the leftmost occurrence and goes on behind it; [pending]
    counts the bytes of that occurrence still to skip. *)
Fixpoint splitFrom (s sep : string) (pending : nat) (cur : string)
  : list string :=
  match s with
  | "" => [cur]
  | String c t =>
    match pending with
    | S k => splitFrom t sep k cur
    | O =>
      if String.prefix sep s
      then cur :: splitFrom t sep (String.length sep - 1) ""
      else splitFrom t sep 0 (cur +:+ String c "")
    end
  end.

Definition Split (s sep : string) : list string :=
  if String.eqb sep "" then map snd (utf8.range s)
  else splitFrom s sep 0 "".

(** [strings.Repeat]: Go panics on a negative [count]; [main.go] calls
    it with the constants 25 and 2 and with the two non-negative
    paddings of [center]. *)
Fixpoint repeatN (s : string) (n : nat) : string :=
  match n with
  | O => ""
  | S k => s +:+ repeatN s k
  end.

Definition Repeat (s : string) (count : Z) : string :=
  repeatN s (Z.to_nat count).

(** [strings.Replace] with [n = -1]: every occurrence of [old], scanned
    from the left without overlap, becomes [new]. *)
Fixpoint replaceFrom (s old new : string) (pending : nat) : string :=
  match s with
  | "" => ""
  | String c t =>
    match pending with
    | S k => replaceFrom t old new k
    | O =>
      if String.prefix old s
      then new +:+ replaceFrom t old new (String.length old - 1)
      else String c (replaceFrom t old new 0)
    end
  end.

Definition ReplaceAll (s old new : string) : string :=
  if String.eqb old new then s
  else if String.eqb old ""
  then new +:+ joinBytes (map (fun p => snd p +:+ new) (utf8.range s))
  else replaceFrom s old new 0.

End strings.

Module strconv.

Definition maxInt : Z := 2 ^ 63 - 1.
Definition minInt : Z := - 2 ^ 63.

Definition digitVal (c : ascii) : option Z :=
  let b := byteVal c in
  if (48 <=? b) && (b <=? 57) then Some (b - 48) else None.

Fixpoint parseDigits (s : string) (n : Z) : option Z :=
  match s with
  | "" => Some n
  | String c t =>
    match digitVal c with
    | Some d => parseDigits t (n * 10 + d)
    | None => None
    end
  end.

(** [strconv.Atoi] on a 64-bit [int]: an optional sign, at least one
    decimal digit, nothing else; [None] stands for a non-nil error
    (syntax or range). *)
Definition Atoi (s : string) : option Z :=
  match s with
  | "" => None
  | String c t =>
    let neg := Ascii.eqb c "-" in
    let body := if neg || Ascii.eqb c "+" then t else s in
    match body with
    | "" => None
    | _ =>
      match parseDigits body 0 with
      | Some n =>
        let v := if neg then - n else n in
        if (minInt <=? v) && (v <=? maxInt) then Some v else None
      | None => None
      end
    end
  end.

End strconv.

Module fmt.

(** [fmt.Sprintf("%-*s", width, s)]: [s] followed by spaces up to
    [width] runes.  A negative [width] means left-justified with its
    absolute value, and a width beyond a million is reported in the
    output instead of being used. *)
Definition Sprintf_left (width : Z) (s : string) : string :=
  if (1000000 <? width) || (width <? -1000000)
  then "%!(BADWIDTH)" +:+ s
  else s +:+ strings.Repeat " " (Z.abs width - utf8.RuneCountInString s).

End fmt.

(** ** [main.go] *)

(** *** The data set *)

Record Shortcut : Type := mkShortcut {
  Key : string;
  Description : string;
  Category : string
}.

Definition dquote : string := String (ascii_of_nat 34) EmptyString.

Definition getStaticShortcuts : list Shortcut :=
  [ mkShortcut "Prefix d" "Detach from session" "Sessions";
    mkShortcut "Prefix s" "List sessions" "Sessions";
    mkShortcut "Prefix $" "Rename session" "Sessions";

    mkShortcut "Prefix c" "Create new window" "Windows";
    mkShortcut "Prefix ," "Rename window" "Windows";
    mkShortcut "Prefix w" "List windows" "Windows";
    mkShortcut "Prefix f" "Find window" "Windows";
    mkShortcut "Prefix &" "Kill window" "Windows";
    mkShortcut "Prefix ." "Move window" "Windows";
    mkShortcut "Prefix p" "Previous window" "Windows";
    mkShortcut "Prefix n" "Next window" "Windows";
    mkShortcut "Prefix 0-9" "Select window by number" "Windows";
    mkShortcut "Prefix l" "Last selected window" "Windows";

    mkShortcut "Prefix %" "Split horizontally" "Pane Splitting & Nav";
    mkShortcut ("Prefix " +:+ dquote) "Split vertically" "Pane Splitting & Nav";
    mkShortcut "Prefix o" "Next pane" "Pane Splitting & Nav";
    mkShortcut "Prefix ;" "Last pane" "Pane Splitting & Nav";
    mkShortcut "Prefix Arrow" "Navigate panes" "Pane Splitting & Nav";

    mkShortcut "Prefix x" "Kill pane" "Pane Management";
    mkShortcut "Prefix {" "Move pane left" "Pane Management";
    mkShortcut "Prefix }" "Move pane right" "Pane Management";
    mkShortcut "Prefix Space" "Next layout" "Pane Management";
    mkShortcut "Prefix z" "Toggle zoom pane" "Pane Management";
    mkShortcut "Prefix !" "Break pane to new window" "Pane Management";
    mkShortcut "Prefix q" "Show pane numbers" "Pane Management";

    mkShortcut "Prefix [" "Enter copy mode" "Copy Mode";
    mkShortcut "v" "Start selection (vi)" "Copy Mode";
    mkShortcut "y" "Copy selection (vi)" "Copy Mode";
    mkShortcut "Prefix ]" "Paste buffer" "Copy Mode";

    mkShortcut "Prefix t" "Show clock" "Misc";
    mkShortcut "Prefix :" "Enter command prompt" "Misc";
    mkShortcut "Prefix ?" "List all shortcuts" "Misc" ].

(** *** The terminal width

    [stty] is what [cmd.Output()] returned for [stty size]: [None] when it
    failed, [Some out] with the bytes of its standard output otherwise. *)
Definition getTerminalWidth (stty : option string) : Z :=
  match stty with
  | None => 80
  | Some out =>
    let parts := strings.Split (strings.TrimSpace out) " " in
    if llen parts =? 2 then
      match parts !! 1%nat with
      | Some p =>
        match strconv.Atoi p with
        | Some width => width
        | None => 80
        end
      | None => 80
      end
    else 80
  end.

(** *** Text utilities *)

Definition center (s : string) (width : Z) : string :=
  if len s >=? width then s
  else
    let padding := Z.quot (width - len s) 2 in
    let rightPadding := width - len s - padding in
    strings.Repeat " " padding +:+ s +:+ strings.Repeat " " rightPadding.

Definition formatCell (s : string) (width : Z) : string :=
  fmt.Sprintf_left width s.

(** The loop of [wordWrap] over the words, with its two variables. *)
Fixpoint wrapLoop (words : list string) (lineWidth : Z)
  (lines : list string) (currentLine : string) : list string :=
  match words with
  | [] => lines ++ [currentLine]
  | word :: rest =>
    let '(lines1, line1) :=
      if len currentLine + len word + 1 >? lineWidth
      then (lines ++ [currentLine], "")
      else (lines, currentLine) in
    let line2 :=
      if String.eqb line1 "" then word else line1 +:+ " " +:+ word in
    wrapLoop rest lineWidth lines1 line2
  end.

Definition wordWrap (text : string) (lineWidth : Z) : list string :=
  let words := strings.Fields (strings.TrimSpace text) in
  if llen words =? 0 then []
  else wrapLoop words lineWidth [] "".

(** *** Blocks *)

Record block : Type := mkBlock {
  lines : list string;
  isHeader : bool;
  categoryId : Z
}.

Definition orderedCategories : list string :=
  [ "Sessions"; "Windows"; "Pane Splitting & Nav"; "Pane Management";
    "Misc"; "Copy Mode" ].

Definition columnWidth : Z := 25.
Definition columnSpacing : Z := 2.
Definition fullColumnWidth : Z := columnWidth + columnSpacing.

Definition numDisplayColumns (terminalWidth : Z) : Z :=
  let n := Z.quot terminalWidth fullColumnWidth in
  if n =? 0 then 1 else n.

(** [categorized[s.Category] = append(categorized[s.Category], s)] for
    every shortcut, in order. *)
Definition categorize (allShortcuts : list Shortcut)
  : gmap string (list Shortcut) :=
  foldl (fun categorized s =>
           <[Category s := default [] (categorized !! Category s) ++ [s]]>
             categorized)
        ∅ allShortcuts.

(** The string repeated under a category name, byte for byte as the
    literal of [main.go] holds it: C3 A2, E2 80 9D, E2 82 AC.  These
    eight bytes are three runes (U+00E2, U+201D, U+20AC), not the single
    box-drawing character U+2500: the rule of a header is 200 bytes and
    75 runes long. *)
Definition hrule : string := "â”€".

Definition headerBlock (i : nat) (catName : string) : list string :=
  (if (0 <? i)%nat then [""] else [])
    ++ [center catName columnWidth; strings.Repeat hrule columnWidth; ""].

Definition shortcutBlock (shortcut : Shortcut) : list string :=
  [formatCell (" " +:+ Key shortcut) columnWidth]
    ++ map (fun line => formatCell ("  " +:+ line) columnWidth)
           (wordWrap (Description shortcut) (columnWidth - 2))
    ++ [""].

(** The state of the generation loop: [allBlocks] and [totalLines]. *)
Definition addBlock (st : list block * Z) (b : block) : list block * Z :=
  (fst st ++ [b], snd st + llen (lines b)).

Fixpoint buildFrom (categorized : gmap string (list Shortcut)) (i : nat)
  (cats : list string) (st : list block * Z) : list block * Z :=
  match cats with
  | [] => st
  | catName :: rest =>
    let st1 :=
      addBlock st (mkBlock (headerBlock i catName) true (Z.of_nat i)) in
    let st2 :=
      foldl (fun st shortcut =>
               addBlock st
                 (mkBlock (shortcutBlock shortcut) false (Z.of_nat i)))
            st1 (default [] (categorized !! catName)) in
    buildFrom categorized (S i) rest st2
  end.

Definition buildBlocks (allShortcuts : list Shortcut) : list block * Z :=
  buildFrom (categorize allShortcuts) 0 orderedCategories ([], 0).

(** *** The column packer *)

(** [make([][]string, n)]: [n] empty columns; a negative length panics.
    Go's [make] also refuses a length beyond its allocation limit (more
    than 2^48 bytes on a 64-bit platform, 24 bytes for each column),
    and the runtime stops when memory runs out.  Memory is not bounded
    in this model, so it is the [make] of Go for the lengths that can be
    allocated only: what is proved below about a run of the whole
    routine that returns is stated for terminal widths up to
    [maxTerminalWidth], where no more than 2427 columns are asked for. *)
Definition make_columns (n : Z) : result (list (list string)) :=
  if n <? 0
  then Panic "makeslice: len out of range"
  else Ok (replicate (Z.to_nat n) []).

Definition columnHeightOf (totalLines numColumns : Z) : Z :=
  Z.quot (totalLines + numColumns - 1) numColumns.

(** The two variables the distribution loop updates. *)
Record packState : Type := mkPack {
  columns : list (list string);
  currentCol : nat
}.

(** How one iteration of the loop ends. *)
Inductive outcome : Type :=
| Continue (st : packState)
| Break (st : packState).

Definition minSpaceNeeded (allBlocks : list block) (i : nat) (blk : block)
  : Z :=
  match allBlocks !! (i + 1)%nat with
  | Some next =>
    if isHeader blk && (categoryId next =? categoryId blk)
    then llen (lines blk) + llen (lines next)
    else llen (lines blk)
  | None => llen (lines blk)
  end.

(** [blockLines] after the test on its first line at the top of a new
    column. *)
Definition skipLeadingBlank (blockLines : list string) : list string :=
  match blockLines with
  | l0 :: rest =>
    if String.eqb (strings.TrimSpace l0) "" then rest else blockLines
  | [] => blockLines
  end.

(** The body of [for i, blk := range allBlocks]. *)
Definition packStep (allBlocks : list block) (columnHeight numColumns : Z)
  (i : nat) (blk : block) (st : packState) : result outcome :=
  let blockLines := lines blk in
  let minSpace := minSpaceNeeded allBlocks i blk in
  do col <- index (columns st) (currentCol st);
  if (llen col >? 0) && (llen col + minSpace >? columnHeight) then
    let cur := S (currentCol st) in
    if Z.of_nat cur >=? numColumns then
      Ok (Break (mkPack (columns st) cur))
    else
      let blockLines := skipLeadingBlank blockLines in
      do col' <- index (columns st) cur;
      Ok (Continue (mkPack (<[cur := col' ++ blockLines]> (columns st)) cur))
  else
    Ok (Continue
          (mkPack (<[currentCol st := col ++ blockLines]> (columns st))
                  (currentCol st))).

Fixpoint packLoop (allBlocks : list block) (columnHeight numColumns : Z)
  (i : nat) (rest : list block) (st : packState) : result packState :=
  match rest with
  | [] => Ok st
  | blk :: rest' =>
    do r <- packStep allBlocks columnHeight numColumns i blk st;
    match r with
    | Break st' => Ok st'
    | Continue st' =>
      packLoop allBlocks columnHeight numColumns (S i) rest' st'
    end
  end.

(** The distribution of [allBlocks] into [numColumns] columns. *)
Definition pack (allBlocks : list block) (totalLines numColumns : Z)
  : result (list (list string)) :=
  do cols <- make_columns numColumns;
  let columnHeight := columnHeightOf totalLines numColumns in
  do st <- packLoop allBlocks columnHeight numColumns 0 allBlocks
             (mkPack cols 0);
  Ok (columns st).

(** *** The renderer *)

(** [for i := lo; i < hi; i++ { body }] over a state that [body]
    updates: [n] iterations from [i] on. *)
Fixpoint forLoop {S : Type} (n : nat) (i : Z) (body : Z -> S -> result S)
  (s : S) : result S :=
  match n with
  | O => Ok s
  | Datatypes.S k => do s' <- body i s; forLoop k (i + 1) body s'
  end.

Definition for_lt {S : Type} (lo hi : Z) (body : Z -> S -> result S) (s : S)
  : result S :=
  forLoop (Z.to_nat (hi - lo)) lo body s.

Definition newline : string := String (ascii_of_nat 10) EmptyString.

(** The inner loop body: one cell and the spacing behind it, appended to
    standard output. *)
Definition printCell (cols : list (list string)) (row col : Z)
  (out : string) : result string :=
  do column <- index cols (Z.to_nat col);
  let line :=
    if row <? llen column
    then default "" (column !! Z.to_nat row)
    else "" in
  let out := out +:+ formatCell line columnWidth in
  Ok (out +:+ strings.Repeat " " columnSpacing).

Definition printRow (cols : list (list string)) (numColumns : Z) (row : Z)
  (out : string) : result string :=
  do out' <- for_lt 0 numColumns (printCell cols row) out;
  Ok (out' +:+ newline).

Definition render (cols : list (list string)) (columnHeight numColumns : Z)
  (out : string) : result string :=
  for_lt 0 columnHeight (printRow cols numColumns) out.

(** *** The layout routine and [main] *)

Definition displayShortcutsInColumns (allShortcuts : list Shortcut)
  (stty : option string) (out : string) : result string :=
  let terminalWidth := getTerminalWidth stty in
  let numColumns := numDisplayColumns terminalWidth in
  let '(allBlocks, totalLines) := buildBlocks allShortcuts in
  if totalLines =? 0 then Ok out
  else
    do cols <- pack allBlocks totalLines numColumns;
    render cols (columnHeightOf totalLines numColumns) numColumns out.

(** The loop of [main] over the data set. *)
Definition withPrefixKey (s : Shortcut) : Shortcut :=
  mkShortcut (strings.ReplaceAll (Key s) "Prefix" "ctrl+b")
             (Description s) (Category s).

Definition main (stty : option string) : result string :=
  let out := newline in
  let shortcuts := map withPrefixKey getStaticShortcuts in
  do out <- displayShortcutsInColumns shortcuts stty out;
  Ok (out +:+ newline).

(** ** Specification vocabulary *)

(** The sum of the line counts of a block sequence: what the generation
    loop accumulates in [totalLines]. *)
Fixpoint sumLines (bs : list block) : Z :=
  match bs with
  | [] => 0
  | b :: t => llen (lines b) + sumLines t
  end.

(** A placement trace: for each block the packer placed, in order, the
    column it went to and the lines that were appended there. *)
Definition trace : Type := list (nat * list string).

(** The lines column [c] receives from a trace, in order. *)
Fixpoint columnOf (c : nat) (tr : trace) : list string :=
  match tr with
  | [] => []
  | (c', ls) :: t =>
    if (c' =? c)%nat then ls ++ columnOf c t else columnOf c t
  end.

(** The lines of a block as the packer appends them: all of them, or all
    but a blank first line. *)
Definition placedLines (blk : block) (ls : list string) : Prop :=
  ls = lines blk \/
  exists l0, lines blk = l0 :: ls /\ strings.TrimSpace l0 = "".

(** [cols] is a distribution of whole blocks: a prefix of [allBlocks] was
    placed, block by block, each in one column and as the lines [P]
    allows; the columns hold exactly what was placed, in order; and
    blocks were left out only with the last column already in use. *)
Definition distributes (P : block -> list string -> Prop)
  (allBlocks : list block) (numColumns : Z) (cols : list (list string))
  : Prop :=
  exists tr : trace,
    (length tr <= length allBlocks)%nat /\
    Forall2 (fun blk p => Z.of_nat (fst p) < numColumns /\ P blk (snd p))
            (take (length tr) allBlocks) tr /\
    length cols = Z.to_nat numColumns /\
    (forall c, (c < length cols)%nat -> cols !! c = Some (columnOf c tr)) /\
    ((length tr < length allBlocks)%nat ->
     exists col, cols !! (Z.to_nat numColumns - 1)%nat = Some col /\
                 col <> []).

(** The state of the distribution loop is well formed: the current
    column exists and there are [numColumns] columns. *)
Definition wfState (numColumns : Z) (st : packState) : Prop :=
  (currentCol st < length (columns st))%nat /\
  length (columns st) = Z.to_nat numColumns.

(** The state after a block was appended to the current column. *)
Definition stayState (st : packState) (col : list string) (blk : block)
  : packState :=
  mkPack (<[currentCol st := col ++ lines blk]> (columns st))
         (currentCol st).

(** The state after a block opened the next column. *)
Definition advanceState (st : packState) (col' : list string) (blk : block)
  : packState :=
  mkPack (<[S (currentCol st) :=
              col' ++ skipLeadingBlank (lines blk)]> (columns st))
         (S (currentCol st)).

(** The columns behind the current one are still empty. *)
Definition restEmpty (st : packState) : Prop :=
  forall c col, (currentCol st < c)%nat ->
                columns st !! c = Some col -> col = [].

(** No column is higher than [columnHeight]. *)
Definition bounded (columnHeight : Z) (cols : list (list string)) : Prop :=
  Forall (fun col => llen col <= columnHeight) cols.

(** [totalLines] is the number of lines of [allBlocks]. *)
Definition countsLines (st : list block * Z) : Prop :=
  snd st = sumLines (fst st).

(** The consequence C2 draws from the heuristic, at one place of a run:
    when the header at index [i] is placed from state [st], the block
    behind it is placed next, in the same column. *)
Definition headerKeepsSuccessor (allBlocks : list block)
  (columnHeight numColumns : Z) (i : nat) (st : packState) : Prop :=
  forall hdr ent st',
    allBlocks !! i = Some hdr ->
    allBlocks !! (i + 1)%nat = Some ent ->
    isHeader hdr = true ->
    isHeader ent = false ->
    categoryId ent = categoryId hdr ->
    packStep allBlocks columnHeight numColumns i hdr st = Ok (Continue st') ->
    exists st'',
      packStep allBlocks columnHeight numColumns (i + 1) ent st'
      = Ok (Continue st'') /\
      currentCol st'' = currentCol st'.

(** The greedy wrapping the specification describes: a line takes the
    next word as long as the line, one space and the word fit in
    [lineWidth]; a word that opens a line is taken whatever its length. *)
Fixpoint greedyFrom (words : list string) (lineWidth : Z) (line : string)
  : list string :=
  match words with
  | [] => [line]
  | word :: rest =>
    if len line + 1 + len word <=? lineWidth
    then greedyFrom rest lineWidth (line +:+ " " +:+ word)
    else line :: greedyFrom rest lineWidth word
  end.

Definition greedyWrap (words : list string) (lineWidth : Z) : list string :=
  match words with
  | [] => []
  | word :: rest => greedyFrom rest lineWidth word
  end.

(** What C7 allows a line to be, [universe] being the words of the
    text. *)
Definition lineFits (lineWidth : Z) (universe : list string) (line : string)
  : Prop :=
  len line <= lineWidth \/ (In line universe /\ lineWidth < len line).

(** The grid the specification describes.  [lineAt] is the line of a
    column at a row, or the empty string below the column's end. *)
Definition lineAt (cols : list (list string)) (col row : nat) : string :=
  match cols !! col with
  | Some column => default "" (column !! row)
  | None => ""
  end.

Definition cellText (cols : list (list string)) (row col : nat) : string :=
  formatCell (lineAt cols col row) 25 +:+ "  ".

Definition rowText (cols : list (list string)) (numColumns : Z) (row : nat)
  : string :=
  strings.joinBytes (map (cellText cols row) (seq 0 (Z.to_nat numColumns)))
    +:+ newline.

Definition gridRows (cols : list (list string)) (columnHeight numColumns : Z)
  : list string :=
  map (rowText cols numColumns) (seq 0 (Z.to_nat columnHeight)).

(** [s] contains [old]. *)
Definition occursIn (old s : string) : Prop :=
  exists a b, s = a +:+ old +:+ b.

(** The pieces of a string behind the first one, each behind a
    separator. *)
Fixpoint joinRest (sep : string) (rest : list string) : string :=
  match rest with
  | [] => ""
  | p :: r => sep +:+ p +:+ joinRest sep r
  end.

(** The shortcuts of a data set that carry the category [c], in the
    order of the data set. *)
Definition inCategory (c : string) (l : list Shortcut) : list Shortcut :=
  List.filter (fun s => String.eqb (Category s) c) l.

(** The blocks of one category: its header, then one block for each of
    its shortcuts. *)
Definition categoryBlocks (l : list Shortcut) (i : nat) (catName : string)
  : list block :=
  mkBlock (headerBlock i catName) true (Z.of_nat i)
    :: map (fun s => mkBlock (shortcutBlock s) false (Z.of_nat i))
           (inCategory catName l).

Fixpoint blocksFrom (l : list Shortcut) (i : nat) (cats : list string)
  : list block :=
  match cats with
  | [] => []
  | catName :: rest => categoryBlocks l i catName ++ blocksFrom l (S i) rest
  end.

(** The number of display columns and the column height the layout
    routine works with, for a result of [stty size] and a data set. *)
Definition displayColumns (stty : option string) : Z :=
  numDisplayColumns (getTerminalWidth stty).

Definition displayHeight (l : list Shortcut) (stty : option string) : Z :=
  columnHeightOf (snd (buildBlocks l)) (displayColumns stty).

(** Words joined by single spaces, as [strings.Join(words, " ")]:
    [appendWords line ws] adds the words [ws] to a line. *)
Fixpoint appendWords (line : string) (ws : list string) : string :=
  match ws with
  | [] => line
  | w :: rest => appendWords (line +:+ " " +:+ w) rest
  end.

Definition joinWords (ws : list string) : string :=
  match ws with
  | [] => ""
  | w :: rest => appendWords w rest
  end.

(** The decimal digits of a number, as [stty] and [strconv.Itoa] print
    it: no sign for a natural number, a minus sign for a negative
    integer. *)
Definition decimalN (n : N) : string :=
  DecimalString.NilEmpty.string_of_uint (N.to_uint n).

Definition decimalZ (z : Z) : string :=
  DecimalString.NilEmpty.string_of_int (Z.to_int z).

(** Every byte of a string satisfies [P]. *)
Fixpoint allChars (P : ascii -> bool) (s : string) : bool :=
  match s with
  | EmptyString => true
  | String c t => P c && allChars P t
  end.

Definition isDigit (c : ascii) : bool :=
  (48 <=? byteVal c) && (byteVal c <=? 57).

(** A byte below 0x80 that is not white space. *)
Definition isPlain (c : ascii) : bool :=
  (byteVal c <? 128) && negb (unicode.IsSpace (byteVal c)).

(** The rune a byte below 0x80 is decoded to, with its bytes. *)
Definition chunk (c : ascii) : Z * string := (byteVal c, String c EmptyString).

(** [old] occurs in [s], as a test. *)
Fixpoint containsb (old s : string) : bool :=
  String.prefix old s
  || match s with
     | EmptyString => false
     | String _ t => containsb old t
     end.

(** The lines that are not blank, blank as the packer tests it. *)
Definition nonBlank (ls : list string) : list string :=
  List.filter (fun l => negb (String.eqb (strings.TrimSpace l) "")) ls.

(** The blocks [main] hands to the packer. *)
Definition staticBlocks : list block :=
  fst (buildBlocks (map withPrefixKey getStaticShortcuts)).

Fixpoint sameLines (a b : list string) : bool :=
  match a, b with
  | [], [] => true
  | x :: a', y :: b' => String.eqb x y && sameLines a' b'
  | _, _ => false
  end.

(** The columns the packer returns for [numColumns] hold every line of
    the static data set that is not blank. *)
Definition showsAll (numColumns : Z) : bool :=
  match pack staticBlocks 120 numColumns with
  | Ok cols =>
    sameLines (nonBlank (concat cols))
              (nonBlank (concat (map lines staticBlocks)))
  | Panic _ => false
  end.

(** The numbers of columns below 38 for which nothing of the static data
    set is dropped. *)
Definition completeBelow38 (n : Z) : bool :=
  (n =? 1) || (n =? 13) || (n =? 21) || (n =? 22) || (n =? 23).

(** A shortcut whose lines fit a cell: a key of at most 24 runes and a
    description without a word of more than 23 bytes. *)
Definition fitsCell (s : Shortcut) : Prop :=
  utf8.RuneCountInString (Key s) <= 24 /\
  Forall (fun w => len w <= 23)
         (strings.Fields (strings.TrimSpace (Description s))).

(** A line that is empty or exactly as wide as a cell. *)
Definition fullOrEmpty (line : string) : Prop :=
  line = "" \/ utf8.RuneCountInString line = 25.

Definition fullOrEmptyb (line : string) : bool :=
  String.eqb line "" || (utf8.RuneCountInString line =? 25).

(** The largest number of columns a terminal reports: the field [ws_col]
    of its window size, which [stty size] prints, is an unsigned 16-bit
    number. *)
Definition maxTerminalWidth : Z := 65535.

(** What running [stty size] yields: nothing when the command failed, or
    one line with the rows and the columns of the terminal in decimal
    digits, two unsigned 16-bit numbers. *)
Definition sttySize (stty : option string) : Prop :=
  stty = None \/
  exists rows cols : N,
    Z.of_N rows <= maxTerminalWidth /\
    Z.of_N cols <= maxTerminalWidth /\
    stty = Some ((decimalN rows +:+ " " +:+ decimalN cols) +:+ newline).

(** The lines a block opens a column with: all of them when the first
    one is not blank, all but the first one when it is. *)
Definition opensColumn (blk : block) (ls : list string) : Prop :=
  (ls = lines blk /\
   forall l0 rest, lines blk = l0 :: rest -> strings.TrimSpace l0 <> "")
  \/ (exists l0, lines blk = l0 :: ls /\ strings.TrimSpace l0 = "").

(** A trace that places blocks whole, from a current column [cur] that
    holds [col]: each block goes to the current column with all of its
    lines, or, only when the current column holds something, it opens
    the next column, with the lines [opensColumn] allows. *)
Inductive follows : nat -> list string -> list block -> trace -> Prop :=
| follows_done cur col : follows cur col [] []
| follows_stay cur col blk rest tr :
    follows cur (col ++ lines blk) rest tr ->
    follows cur col (blk :: rest) ((cur, lines blk) :: tr)
| follows_open cur col blk ls rest tr :
    col <> [] ->
    opensColumn blk ls ->
    follows (S cur) ls rest tr ->
    follows cur col (blk :: rest) ((S cur, ls) :: tr).

(** [cols] holds whole blocks: a prefix of [allBlocks] was placed by a
    trace that starts in the empty column 0 and stays within the
    [numColumns] columns, the columns hold exactly what the trace put
    there, in order, and blocks were left out only with the last column
    already in use. *)
Definition placesWholeBlocks (allBlocks : list block) (numColumns : Z)
  (cols : list (list string)) : Prop :=
  exists tr : trace,
    (length tr <= length allBlocks)%nat /\
    follows 0 [] (take (length tr) allBlocks) tr /\
    Forall (fun p => Z.of_nat (fst p) < numColumns) tr /\
    length cols = Z.to_nat numColumns /\
    (forall c, (c < length cols)%nat -> cols !! c = Some (columnOf c tr)) /\
    ((length tr < length allBlocks)%nat ->
     exists col, cols !! (Z.to_nat numColumns - 1)%nat = Some col /\
                 col <> []).

(** The cell of the specification, in its words: the line left-justified
    in a field of [width] characters, filled with spaces on the right,
    and not cut when it is longer.  A character is a rune. *)
Definition leftJustified (s : string) (width : Z) : string :=
  s +:+ strings.repeatN " " (Z.to_nat (width - utf8.RuneCountInString s)).

(** The grid with cells of width 25 and 2 spaces behind each cell. *)
Definition paddedCell (cols : list (list string)) (row col : nat) : string :=
  leftJustified (lineAt cols col row) 25 +:+ strings.repeatN " " 2.

Definition paddedRow (cols : list (list string)) (numColumns : Z) (row : nat)
  : string :=
  strings.joinBytes (map (paddedCell cols row) (seq 0 (Z.to_nat numColumns)))
    +:+ newline.

Definition paddedGrid (cols : list (list string))
  (columnHeight numColumns : Z) : list string :=
  map (paddedRow cols numColumns) (seq 0 (Z.to_nat columnHeight)).

(** The rule of a header as the generation loop builds it. *)
Definition ruleLine : string := strings.Repeat hrule columnWidth.

(** What the lines of a block look like: empty or as wide as a cell, and
    in a header also the rule; a header holds the rule. *)
Definition blockShape (b : block) : Prop :=
  Forall (fun line => fullOrEmpty line \/
                      (isHeader b = true /\ line = ruleLine))
         (lines b) /\
  (isHeader b = true -> In ruleLine (lines b)).

Definition blockShapeb (b : block) : bool :=
  forallb (fun line => fullOrEmptyb line ||
                       (isHeader b && String.eqb line ruleLine))
          (lines b)
  && (negb (isHeader b) || existsb (String.eqb ruleLine) (lines b)).

(** The number of cells of a row that hold the rule. *)
Definition rulesInRow (cols : list (list string)) (numColumns : Z)
  (row : nat) : Z :=
  llen (List.filter (fun col => String.eqb (lineAt cols col row) ruleLine)
                    (seq 0 (Z.to_nat numColumns))).

(** *** Sample inputs *)

Definition threeBlocks : list block :=
  [ mkBlock ["h"; "-"] true 0; mkBlock ["k"; "d"] false 0;
    mkBlock [""; "e"] false 0 ].

Definition headerBelowContent : list block :=
  [ mkBlock ["x"] false 0; mkBlock ["h"; "-"] true 1;
    mkBlock ["k"; "d"] false 1 ].

Definition headerThenEntry : list block :=
  [ mkBlock ["h1"; "h2"; "h3"] true 0; mkBlock ["e1"; "e2"; "e3"] false 0 ].

(** ** Basic facts *)

Lemma llen_nonneg {A : Type} (l : list A) : 0 <= llen l.
Proof. unfold llen. lia. Qed.

Lemma llen_app {A : Type} (l1 l2 : list A) :
  llen (l1 ++ l2) = llen l1 + llen l2.
Proof. unfold llen. rewrite length_app. lia. Qed.

Lemma llen_nil_iff {A : Type} (l : list A) : llen l = 0 <-> l = [].
Proof.
  unfold llen. destruct l as [|x l]; simpl; split; intros E;
    try reflexivity; try discriminate; lia.
Qed.

Lemma sumLines_nonneg bs : 0 <= sumLines bs.
Proof.
  induction bs as [|b t IH]; simpl; [lia|].
  pose proof (llen_nonneg (lines b)). lia.
Qed.

Lemma index_Some {A : Type} (l : list A) (i : nat) (x : A) :
  l !! i = Some x -> index l i = Ok x.
Proof. unfold index. intros ->. reflexivity. Qed.

Lemma make_columns_ok n :
  0 <= n -> make_columns n = Ok (replicate (Z.to_nat n) []).
Proof.
  intros Hn. unfold make_columns.
  destruct (n <? 0) eqn:E; [lia | reflexivity].
Qed.

(** ** The packer: one step *)

Section PackStep.

Variable allBlocks : list block.
Variables columnHeight numColumns : Z.

Local Abbreviation step := (packStep allBlocks columnHeight numColumns).

(** The block fits below the content of the current column, or the
    column is empty: it is appended there. *)
Lemma packStep_stay i blk st col :
  columns st !! currentCol st = Some col ->
  ~ (0 < llen col /\
     columnHeight < llen col + minSpaceNeeded allBlocks i blk) ->
  step i blk st =
    Ok (Continue (mkPack (<[currentCol st := col ++ lines blk]> (columns st))
                         (currentCol st))).
Proof.
  intros Hcol Hfit. unfold packStep.
  rewrite (index_Some _ _ _ Hcol). simpl.
  destruct (llen col >? 0) eqn:E1;
    destruct (llen col + minSpaceNeeded allBlocks i blk >? columnHeight)
      eqn:E2; simpl; try reflexivity.
  exfalso. apply Hfit. lia.
Qed.

(** It does not fit and a column is left: it opens the next column,
    without its blank first line. *)
Lemma packStep_advance i blk st col col' :
  columns st !! currentCol st = Some col ->
  0 < llen col ->
  columnHeight < llen col + minSpaceNeeded allBlocks i blk ->
  Z.of_nat (S (currentCol st)) < numColumns ->
  columns st !! S (currentCol st) = Some col' ->
  step i blk st =
    Ok (Continue
          (mkPack (<[S (currentCol st) :=
                       col' ++ skipLeadingBlank (lines blk)]> (columns st))
                  (S (currentCol st)))).
Proof.
  intros Hcol H1 H2 H3 Hcol'. unfold packStep.
  rewrite (index_Some _ _ _ Hcol). simpl.
  rewrite (proj2 (Z.gtb_lt _ _) H1), (proj2 (Z.gtb_lt _ _) H2).
  cbn [andb].
  destruct (Z.of_nat (S (currentCol st)) >=? numColumns) eqn:E.
  - apply Z.geb_le in E. lia.
  - rewrite (index_Some _ _ _ Hcol'). reflexivity.
Qed.

(** It does not fit and no column is left: the loop ends. *)
Lemma packStep_break i blk st col :
  columns st !! currentCol st = Some col ->
  0 < llen col ->
  columnHeight < llen col + minSpaceNeeded allBlocks i blk ->
  numColumns <= Z.of_nat (S (currentCol st)) ->
  step i blk st = Ok (Break (mkPack (columns st) (S (currentCol st)))).
Proof.
  intros Hcol H1 H2 H3. unfold packStep.
  rewrite (index_Some _ _ _ Hcol). simpl.
  rewrite (proj2 (Z.gtb_lt _ _) H1), (proj2 (Z.gtb_lt _ _) H2).
  cbn [andb].
  rewrite (proj2 (Z.geb_le _ _) H3). reflexivity.
Qed.

End PackStep.

(** ** The packer: the whole loop *)

Section PackLoop.

Variable allBlocks : list block.
Variables columnHeight numColumns : Z.

Local Abbreviation step := (packStep allBlocks columnHeight numColumns).
Local Abbreviation loop := (packLoop allBlocks columnHeight numColumns).

(** From a well-formed state a step never panics; it is one of the
    three cases above. *)
Lemma packStep_cases i blk st :
  wfState numColumns st ->
  exists col,
    columns st !! currentCol st = Some col /\
    ((~ (0 < llen col /\
         columnHeight < llen col + minSpaceNeeded allBlocks i blk) /\
      step i blk st = Ok (Continue (stayState st col blk)))
     \/
     (0 < llen col /\
      columnHeight < llen col + minSpaceNeeded allBlocks i blk /\
      exists col',
        columns st !! S (currentCol st) = Some col' /\
        Z.of_nat (S (currentCol st)) < numColumns /\
        step i blk st = Ok (Continue (advanceState st col' blk)))
     \/
     (0 < llen col /\
      columnHeight < llen col + minSpaceNeeded allBlocks i blk /\
      Z.of_nat (S (currentCol st)) = numColumns /\
      step i blk st = Ok (Break (mkPack (columns st) (S (currentCol st)))))).
Proof.
  intros [Hcur Hlen].
  destruct (lookup_lt_is_Some_2 _ _ Hcur) as [col Hcol].
  exists col. split; [exact Hcol|].
  destruct (Z_lt_dec 0 (llen col)) as [H1|H1];
    [destruct (Z_lt_dec columnHeight
                 (llen col + minSpaceNeeded allBlocks i blk)) as [H2|H2]|].
  - destruct (Z_lt_dec (Z.of_nat (S (currentCol st))) numColumns)
      as [H3|H3].
    + right; left. split; [exact H1|]. split; [exact H2|].
      assert (Hnext : (S (currentCol st) < length (columns st))%nat)
        by lia.
      destruct (lookup_lt_is_Some_2 _ _ Hnext) as [col' Hcol'].
      exists col'. split; [exact Hcol'|]. split; [exact H3|].
      eapply packStep_advance; eassumption.
    + right; right. split; [exact H1|]. split; [exact H2|].
      split; [lia|].
      eapply packStep_break; try eassumption. lia.
  - left. split; [lia|]. apply packStep_stay; [exact Hcol | lia].
  - left. split; [lia|]. apply packStep_stay; [exact Hcol | lia].
Qed.

Lemma wfState_stay st col blk :
  wfState numColumns st -> wfState numColumns (stayState st col blk).
Proof.
  intros [H1 H2]. unfold wfState, stayState; simpl.
  rewrite length_insert. auto.
Qed.

Lemma wfState_advance st col' blk :
  wfState numColumns st -> Z.of_nat (S (currentCol st)) < numColumns ->
  wfState numColumns (advanceState st col' blk).
Proof.
  intros [H1 H2] H3. unfold wfState, advanceState; simpl.
  rewrite length_insert. split; [lia | exact H2].
Qed.

Lemma placedLines_whole blk : placedLines blk (lines blk).
Proof. left. reflexivity. Qed.

Lemma placedLines_skip blk : placedLines blk (skipLeadingBlank (lines blk)).
Proof.
  unfold placedLines, skipLeadingBlank.
  destruct (lines blk) as [|l0 rest]; [left; reflexivity|].
  destruct (String.eqb (strings.TrimSpace l0) "") eqn:E.
  - right. exists l0. split; [reflexivity|].
    apply String.eqb_eq. exact E.
  - left. reflexivity.
Qed.

(** The loop never panics, and its final columns are the initial ones
    extended by a placement trace of whole blocks. *)
Lemma packLoop_trace rest :
  forall i st,
    wfState numColumns st ->
    exists st' (tr : trace),
      loop i rest st = Ok st' /\
      length (columns st') = length (columns st) /\
      (length tr <= length rest)%nat /\
      Forall2 (fun blk p =>
                 Z.of_nat (fst p) < numColumns /\ placedLines blk (snd p))
              (take (length tr) rest) tr /\
      (forall c col, columns st !! c = Some col ->
                     columns st' !! c = Some (col ++ columnOf c tr)) /\
      ((length tr < length rest)%nat ->
       exists col, columns st' !! (Z.to_nat numColumns - 1)%nat = Some col
                   /\ col <> []).
Proof.
  induction rest as [|blk rest' IH]; intros i st Hwf.
  - exists st, []. simpl. repeat split; auto.
    + intros c col Hc. rewrite app_nil_r. exact Hc.
    + intros Habs. lia.
  - destruct (packStep_cases i blk st Hwf)
      as [col [Hcol [[Hfit Hstep] |
                     [[H1 [H2 [col' [Hcol' [H3 Hstep]]]]] |
                      [H1 [H2 [H3 Hstep]]]]]]].
    + (* appended to the current column *)
      destruct (IH (S i) _ (wfState_stay st col blk Hwf))
        as [st' [tr [Hrun [Hlen [Hle [Hall [Hcols Hdrop]]]]]]].
      exists st', ((currentCol st, lines blk) :: tr).
      cbn [packLoop]. rewrite Hstep. cbn [bind length firstn].
      split; [exact Hrun|].
      split; [rewrite Hlen; unfold stayState; simpl;
              apply length_insert|].
      split; [lia|].
      split.
      { constructor; [|exact Hall]. cbn [fst snd]. split.
        - destruct Hwf as [Hc Hl]. lia.
        - apply placedLines_whole. }
      split.
      { intros c colc Hc.
        destruct (Nat.eq_dec (currentCol st) c) as [<-|Hne].
        - cbn [columnOf]. rewrite Nat.eqb_refl.
          assert (colc = col) by congruence. subst colc.
          rewrite app_assoc. apply Hcols. unfold stayState; simpl.
          apply list_lookup_insert_eq. apply lookup_lt_Some in Hc.
          exact Hc.
        - cbn [columnOf]. rewrite (proj2 (Nat.eqb_neq _ _) Hne).
          apply Hcols. unfold stayState; simpl.
          rewrite list_lookup_insert_ne; auto. }
      intros Hlt. apply Hdrop. lia.
    + (* it opens the next column *)
      destruct (IH (S i) _ (wfState_advance st col' blk Hwf H3))
        as [st' [tr [Hrun [Hlen [Hle [Hall [Hcols Hdrop]]]]]]].
      exists st', ((S (currentCol st), skipLeadingBlank (lines blk)) :: tr).
      cbn [packLoop]. rewrite Hstep. cbn [bind length firstn].
      split; [exact Hrun|].
      split; [rewrite Hlen; unfold advanceState; simpl;
              apply length_insert|].
      split; [lia|].
      split.
      { constructor; [|exact Hall]. cbn [fst snd]. split.
        - lia.
        - apply placedLines_skip. }
      split.
      { intros c colc Hc.
        destruct (Nat.eq_dec (S (currentCol st)) c) as [<-|Hne].
        - cbn [columnOf]. rewrite Nat.eqb_refl.
          assert (colc = col') by congruence. subst colc.
          rewrite app_assoc. apply Hcols. unfold advanceState; simpl.
          apply list_lookup_insert_eq. apply lookup_lt_Some in Hc.
          exact Hc.
        - cbn [columnOf]. rewrite (proj2 (Nat.eqb_neq _ _) Hne).
          apply Hcols. unfold advanceState; simpl.
          rewrite list_lookup_insert_ne; auto. }
      intros Hlt. apply Hdrop. lia.
    + (* no column is left *)
      exists (mkPack (columns st) (S (currentCol st))), [].
      cbn [packLoop]. rewrite Hstep. cbn [bind length firstn].
      split; [reflexivity|]. split; [reflexivity|]. split; [lia|].
      split; [constructor|].
      split.
      { intros c colc Hc. rewrite app_nil_r. exact Hc. }
      intros _. exists col. split.
      * replace (Z.to_nat numColumns - 1)%nat with (currentCol st) by lia.
        exact Hcol.
      * intros ->. unfold llen in H1. simpl in H1. lia.
Qed.

End PackLoop.

Section PackBounds.

Variable allBlocks : list block.
Variables columnHeight numColumns : Z.

Local Abbreviation loop := (packLoop allBlocks columnHeight numColumns).

Lemma minSpaceNeeded_ge i blk :
  llen (lines blk) <= minSpaceNeeded allBlocks i blk.
Proof.
  unfold minSpaceNeeded.
  destruct (allBlocks !! (i + 1)%nat) as [next|]; [|lia].
  destruct (isHeader blk && (categoryId next =? categoryId blk)); [|lia].
  pose proof (llen_nonneg (lines next)). lia.
Qed.

Lemma minSpaceNeeded_le_sum i blk rest :
  drop i allBlocks = blk :: rest ->
  minSpaceNeeded allBlocks i blk <= sumLines (blk :: rest).
Proof.
  intros Hdrop. unfold minSpaceNeeded.
  assert (Hnext : allBlocks !! (i + 1)%nat = rest !! 0%nat).
  { rewrite <- (lookup_drop allBlocks i 1), Hdrop. reflexivity. }
  rewrite Hnext. simpl.
  pose proof (sumLines_nonneg rest) as Hrest.
  destruct rest as [|next rest']; simpl in *; [lia|].
  pose proof (sumLines_nonneg rest').
  pose proof (llen_nonneg (lines next)).
  destruct (isHeader blk && (categoryId next =? categoryId blk)); lia.
Qed.

Lemma llen_skipLeadingBlank ls : llen (skipLeadingBlank ls) <= llen ls.
Proof.
  unfold skipLeadingBlank. destruct ls as [|l0 rest]; [lia|].
  destruct (String.eqb (strings.TrimSpace l0) ""); unfold llen; simpl; lia.
Qed.

Lemma packLoop_bounded rest :
  forall i st,
    wfState numColumns st ->
    Forall (fun b => llen (lines b) <= columnHeight) rest ->
    bounded columnHeight (columns st) ->
    restEmpty st ->
    exists st', loop i rest st = Ok st' /\ bounded columnHeight (columns st').
Proof.
  induction rest as [|blk rest' IH]; intros i st Hwf Hblocks Hb Hempty.
  - exists st. split; [reflexivity | exact Hb].
  - inversion Hblocks as [|? ? Hblk Hrest']; subst.
    pose proof (minSpaceNeeded_ge i blk) as Hmin.
    destruct (packStep_cases allBlocks columnHeight numColumns i blk st Hwf)
      as [col [Hcol [[Hfit Hstep] |
                     [[H1 [H2 [col' [Hcol' [H3 Hstep]]]]] |
                      [H1 [H2 [H3 Hstep]]]]]]];
      cbn [packLoop]; rewrite Hstep; cbn [bind].
    + apply IH; [apply wfState_stay; exact Hwf | exact Hrest' | |].
      * unfold bounded, stayState; cbn [columns].
        apply Forall_insert; [exact Hb|].
        rewrite llen_app. pose proof (llen_nonneg col).
        destruct (Z_lt_dec 0 (llen col)); lia.
      * intros c colc Hc Hlook. unfold stayState in *; cbn in Hc, Hlook.
        rewrite list_lookup_insert_ne in Hlook by lia.
        eapply Hempty; eassumption.
    + apply IH; [apply wfState_advance; assumption | exact Hrest' | |].
      * unfold bounded, advanceState; cbn [columns].
        apply Forall_insert; [exact Hb|].
        assert (col' = []) as ->.
        { eapply Hempty; [|exact Hcol']. lia. }
        rewrite app_nil_l.
        pose proof (llen_skipLeadingBlank (lines blk)). lia.
      * intros c colc Hc Hlook. unfold advanceState in *; cbn in Hc, Hlook.
        rewrite list_lookup_insert_ne in Hlook by lia.
        eapply Hempty; [|exact Hlook]. lia.
    + eexists. split; [reflexivity | exact Hb].
Qed.

End PackBounds.

Section SingleColumn.

Variable allBlocks : list block.
Variable columnHeight : Z.

Lemma drop_cons_inv {A : Type} (l : list A) :
  forall i x rest, drop i l = x :: rest -> drop (S i) l = rest.
Proof.
  induction l as [|y l IH]; intros i x rest H.
  - destruct i; discriminate H.
  - destruct i as [|i]; simpl in *.
    + rewrite drop_0. congruence.
    + eapply IH. exact H.
Qed.

(** With one column and a height of at least everything that is left,
    every block is appended to that column. *)
Lemma packLoop_single rest :
  forall i acc,
    drop i allBlocks = rest ->
    llen acc + sumLines rest <= columnHeight ->
    packLoop allBlocks columnHeight 1 i rest (mkPack [acc] 0)
    = Ok (mkPack [acc ++ concat (map lines rest)] 0).
Proof.
  induction rest as [|blk rest' IH]; intros i acc Hdrop Hsum.
  - simpl. rewrite app_nil_r. reflexivity.
  - cbn [packLoop].
    pose proof (minSpaceNeeded_le_sum allBlocks i blk rest' Hdrop) as Hmin.
    rewrite (packStep_stay allBlocks columnHeight 1 i blk
               (mkPack [acc] 0) acc); [|reflexivity | lia].
    cbn [bind columns currentCol]. simpl (<[_ := _]> _).
    rewrite IH.
    + simpl. rewrite <- app_assoc. reflexivity.
    + eapply drop_cons_inv. exact Hdrop.
    + rewrite llen_app. simpl in Hsum. lia.
Qed.

End SingleColumn.

(** The generation loop keeps [totalLines] equal to the number of lines
    of [allBlocks]. *)
Lemma sumLines_snoc bs b : sumLines (bs ++ [b]) = sumLines bs + llen (lines b).
Proof. induction bs as [|x t IH]; simpl; lia. Qed.

Lemma addBlock_countsLines st b : countsLines st -> countsLines (addBlock st b).
Proof.
  unfold countsLines, addBlock. simpl. intros ->.
  rewrite sumLines_snoc. reflexivity.
Qed.

Lemma foldl_addBlock_countsLines (f : Shortcut -> block) l :
  forall st, countsLines st ->
             countsLines (foldl (fun st s => addBlock st (f s)) st l).
Proof.
  induction l as [|s l IH]; intros st H; simpl; [exact H|].
  apply IH. apply addBlock_countsLines. exact H.
Qed.

Lemma buildFrom_countsLines categorized cats :
  forall i st, countsLines st -> countsLines (buildFrom categorized i cats st).
Proof.
  induction cats as [|c cats IH]; intros i st H; simpl; [exact H|].
  apply IH.
  apply (foldl_addBlock_countsLines
           (fun s => mkBlock (shortcutBlock s) false (Z.of_nat i))).
  apply addBlock_countsLines. exact H.
Qed.

Lemma buildBlocks_totalLines allShortcuts :
  snd (buildBlocks allShortcuts) = sumLines (fst (buildBlocks allShortcuts)).
Proof.
  unfold buildBlocks. apply buildFrom_countsLines. reflexivity.
Qed.

(** ** Properties of the packer *)

Lemma pack_unfold allBlocks totalLines numColumns :
  1 <= numColumns ->
  pack allBlocks totalLines numColumns =
    do st <- packLoop allBlocks (columnHeightOf totalLines numColumns)
               numColumns 0 allBlocks
               (mkPack (replicate (Z.to_nat numColumns) []) 0);
    Ok (columns st).
Proof.
  intros HN. unfold pack. rewrite make_columns_ok by lia. reflexivity.
Qed.

Lemma wfState_initial numColumns :
  1 <= numColumns ->
  wfState numColumns (mkPack (replicate (Z.to_nat numColumns) []) 0).
Proof.
  intros HN. unfold wfState; simpl. rewrite length_replicate. lia.
Qed.

(** For N >= 1 the packer does not panic and returns N columns. *)
Lemma pack_total allBlocks totalLines numColumns :
  1 <= numColumns ->
  exists cols,
    pack allBlocks totalLines numColumns = Ok cols /\
    length cols = Z.to_nat numColumns.
Proof.
  intros HN. rewrite pack_unfold by exact HN.
  destruct (packLoop_trace allBlocks (columnHeightOf totalLines numColumns)
              numColumns allBlocks 0 _ (wfState_initial numColumns HN))
    as [st' [tr [Hrun [Hlen _]]]].
  rewrite Hrun. cbn [bind]. exists (columns st'). split; [reflexivity|].
  cbn [columns] in Hlen. rewrite length_replicate in Hlen. exact Hlen.
Qed.

Lemma columnHeightOf_nonneg totalLines numColumns :
  0 <= totalLines -> 1 <= numColumns ->
  0 <= columnHeightOf totalLines numColumns.
Proof. intros Ht HN. unfold columnHeightOf. apply Z.quot_pos; lia. Qed.

(** [columnHeightOf] is the quotient rounded up. *)
Lemma columnHeightOf_ceil totalLines numColumns :
  0 <= totalLines -> 1 <= numColumns ->
  numColumns * (columnHeightOf totalLines numColumns - 1) < totalLines
  <= numColumns * columnHeightOf totalLines numColumns.
Proof.
  intros Ht HN. unfold columnHeightOf.
  rewrite Z.quot_div_nonneg by lia.
  pose proof (Z.div_mod (totalLines + numColumns - 1) numColumns) as Hdm.
  pose proof (Z.mod_pos_bound (totalLines + numColumns - 1) numColumns).
  nia.
Qed.

(** C9: for every block sequence and every N >= 1, if no block has more
    lines than columnHeight = ceil(totalLines / N), totalLines being the
    number of lines of the sequence, then the packer returns columns none
    of which is higher than columnHeight. *)
Theorem pack_respects_column_height allBlocks numColumns :
  let columnHeight := columnHeightOf (sumLines allBlocks) numColumns in
  1 <= numColumns ->
  Forall (fun b => llen (lines b) <= columnHeight) allBlocks ->
  exists cols,
    pack allBlocks (sumLines allBlocks) numColumns = Ok cols /\
    Forall (fun col => llen col <= columnHeight) cols.
Proof.
  intros columnHeight HN Hblocks. rewrite pack_unfold by exact HN.
  fold columnHeight.
  destruct (packLoop_bounded allBlocks columnHeight numColumns allBlocks 0
              (mkPack (replicate (Z.to_nat numColumns) []) 0))
    as [st' [Hrun Hb]].
  - apply wfState_initial. exact HN.
  - exact Hblocks.
  - unfold bounded; cbn [columns]. apply Forall_replicate.
    apply (columnHeightOf_nonneg (sumLines allBlocks) numColumns);
      [apply sumLines_nonneg | exact HN].
  - intros c col _ Hlook. cbn [columns] in Hlook.
    apply lookup_replicate in Hlook. tauto.
  - rewrite Hrun. cbn [bind]. exists (columns st'). split; [reflexivity|].
    exact Hb.
Qed.

Lemma pack_respects_column_height_witness :
  1 <= 2 /\
  Forall (fun b => llen (lines b) <= 3) threeBlocks /\
  exists cols,
    pack threeBlocks 6 2 = Ok cols /\ Forall (fun col => llen col <= 3) cols.
Proof.
  split; [lia|]. split.
  - repeat constructor; vm_compute; discriminate.
  - apply (pack_respects_column_height threeBlocks 2); [lia|].
    repeat constructor; vm_compute; discriminate.
Defined.

(** C3: with N = 1 the packer puts every block of the sequence into the
    single column, whole and in the original order, and drops none;
    columnHeight is then totalLines itself.  This holds for every block
    sequence with its line count, and so for the blocks and the count the
    generation loop produces from any data set. *)
Theorem pack_single_column_keeps_all :
  (forall t, columnHeightOf t 1 = t) /\
  (forall allBlocks,
     pack allBlocks (sumLines allBlocks) 1
     = Ok [concat (map lines allBlocks)]) /\
  (forall allShortcuts,
     pack (fst (buildBlocks allShortcuts)) (snd (buildBlocks allShortcuts)) 1
     = Ok [concat (map lines (fst (buildBlocks allShortcuts)))]).
Proof.
  assert (Hh : forall t, columnHeightOf t 1 = t).
  { intros t. unfold columnHeightOf. rewrite Z.quot_1_r. lia. }
  assert (Hall : forall allBlocks,
             pack allBlocks (sumLines allBlocks) 1
             = Ok [concat (map lines allBlocks)]).
  { intros allBlocks. rewrite pack_unfold by lia. rewrite Hh.
    change (replicate (Z.to_nat 1) []) with [@nil string].
    rewrite (packLoop_single allBlocks (sumLines allBlocks) allBlocks 0 []).
    - reflexivity.
    - apply drop_0.
    - unfold llen; simpl. lia. }
  split; [exact Hh|]. split; [exact Hall|].
  intros allShortcuts. rewrite buildBlocks_totalLines. apply Hall.
Qed.

(** *** The header heuristic *)

Lemma minSpaceNeeded_header allBlocks i hdr ent :
  allBlocks !! (i + 1)%nat = Some ent ->
  isHeader hdr = true ->
  categoryId ent = categoryId hdr ->
  minSpaceNeeded allBlocks i hdr = llen (lines hdr) + llen (lines ent).
Proof.
  intros Hent Hh Hcat. unfold minSpaceNeeded.
  rewrite Hent, Hh, Hcat, Z.eqb_refl. reflexivity.
Qed.

Lemma minSpaceNeeded_entry allBlocks i blk :
  isHeader blk = false ->
  minSpaceNeeded allBlocks i blk = llen (lines blk).
Proof.
  intros Hh. unfold minSpaceNeeded. rewrite Hh.
  destruct (allBlocks !! (i + 1)%nat); reflexivity.
Qed.

(** C2, as amended: for a header followed by an entry of its category
    the packer computes minSpaceNeeded as the sum of the two line counts
    and stays in the current column exactly when that column is empty or
    has room for both; so a header appended below existing content of a
    column is followed by its first entry in that same column.  (A header
    that starts a column is not covered: its entry can still be moved
    on.) *)
Theorem header_reserves_first_entry
  allBlocks columnHeight numColumns i hdr ent st st' col :
  allBlocks !! i = Some hdr ->
  allBlocks !! (i + 1)%nat = Some ent ->
  isHeader hdr = true ->
  isHeader ent = false ->
  categoryId ent = categoryId hdr ->
  columns st !! currentCol st = Some col ->
  packStep allBlocks columnHeight numColumns i hdr st = Ok (Continue st') ->
  minSpaceNeeded allBlocks i hdr = llen (lines hdr) + llen (lines ent) /\
  (currentCol st' = currentCol st <->
   ~ (0 < llen col /\
      columnHeight < llen col + (llen (lines hdr) + llen (lines ent)))) /\
  (col <> [] -> currentCol st' = currentCol st ->
   exists st'',
     packStep allBlocks columnHeight numColumns (i + 1) ent st'
     = Ok (Continue st'') /\
     currentCol st'' = currentCol st').
Proof.
  intros Hi Hnext Hh He Hcat Hcol Hstep.
  pose proof (minSpaceNeeded_header allBlocks i hdr ent Hnext Hh Hcat)
    as Hmin.
  split; [exact Hmin|].
  assert (Hdec : currentCol st' = currentCol st <->
                 ~ (0 < llen col /\
                    columnHeight
                    < llen col + (llen (lines hdr) + llen (lines ent)))).
  { rewrite <- Hmin. split.
    - intros Hsame [H1 H2].
      unfold packStep in Hstep.
      rewrite (index_Some _ _ _ Hcol) in Hstep. cbn [bind] in Hstep.
      rewrite (proj2 (Z.gtb_lt _ _) H1), (proj2 (Z.gtb_lt _ _) H2) in Hstep.
      cbn [andb] in Hstep.
      destruct (Z.of_nat (S (currentCol st)) >=? numColumns);
        [discriminate Hstep|].
      destruct (index (columns st) (S (currentCol st)));
        cbn [bind] in Hstep; [|discriminate Hstep].
      injection Hstep as <-. cbn [currentCol] in Hsame. lia.
    - intros Hfit.
      rewrite (packStep_stay _ _ _ _ _ _ _ Hcol Hfit) in Hstep.
      injection Hstep as <-. reflexivity. }
  split; [exact Hdec|].
  intros Hne Hsame.
  apply Hdec in Hsame.
  rewrite <- Hmin in Hsame.
  rewrite (packStep_stay _ _ _ _ _ _ _ Hcol Hsame) in Hstep.
  injection Hstep as <-.
  assert (Hlt : (currentCol st < length (columns st))%nat)
    by (eapply lookup_lt_Some; exact Hcol).
  eexists. split.
  - apply packStep_stay with (col := col ++ lines hdr).
    + cbn [columns currentCol]. apply list_lookup_insert_eq. exact Hlt.
    + rewrite (minSpaceNeeded_entry allBlocks (i + 1) ent He).
      rewrite llen_app. intros [_ H2].
      apply Hsame. split; [|lia].
      pose proof (llen_nonneg col).
      destruct (Z.eq_dec (llen col) 0) as [E|E]; [|lia].
      apply llen_nil_iff in E. contradiction.
  - reflexivity.
Qed.

Lemma header_reserves_first_entry_witness :
  minSpaceNeeded headerBelowContent 1 (mkBlock ["h"; "-"] true 1) = 2 + 2 /\
  (currentCol (mkPack [["x"; "h"; "-"]; []] 0)
   = currentCol (mkPack [["x"]; []] 0)
   <-> ~ (0 < 1 /\ 5 < 1 + (2 + 2))) /\
  (["x"] <> [] ->
   currentCol (mkPack [["x"; "h"; "-"]; []] 0)
   = currentCol (mkPack [["x"]; []] 0) ->
   exists st'',
     packStep headerBelowContent 5 2 (1 + 1) (mkBlock ["k"; "d"] false 1)
              (mkPack [["x"; "h"; "-"]; []] 0)
     = Ok (Continue st'') /\
     currentCol st'' = currentCol (mkPack [["x"; "h"; "-"]; []] 0)).
Proof.
  apply (header_reserves_first_entry headerBelowContent 5 2 1
           (mkBlock ["h"; "-"] true 1) (mkBlock ["k"; "d"] false 1)
           (mkPack [["x"]; []] 0) (mkPack [["x"; "h"; "-"]; []] 0) ["x"]);
    reflexivity.
Defined.

(** C2, as stated, fails at the start of a column: with 6 lines in 2
    columns the height is 3, the header fills column 0 alone and its
    first entry is moved to column 1. *)
Lemma header_alone_in_column :
  columnHeightOf 6 2 = 3 /\
  pack headerThenEntry 6 2 = Ok [["h1"; "h2"; "h3"]; ["e1"; "e2"; "e3"]] /\
  ~ headerKeepsSuccessor headerThenEntry 3 2 0 (mkPack [[]; []] 0).
Proof.
  split; [reflexivity|]. split; [reflexivity|].
  intros Hkeep.
  destruct (Hkeep (mkBlock ["h1"; "h2"; "h3"] true 0)
                  (mkBlock ["e1"; "e2"; "e3"] false 0)
                  (mkPack [["h1"; "h2"; "h3"]; []] 0)
                  eq_refl eq_refl eq_refl eq_refl eq_refl eq_refl)
    as [st'' [Hstep Hcur]].
  vm_compute in Hstep. injection Hstep as <-.
  discriminate Hcur.
Qed.

(** ** Strings *)

Lemma append_nil_l s : "" +:+ s = s.
Proof. reflexivity. Qed.

Lemma append_cons c s t : String c s +:+ t = String c (s +:+ t).
Proof. reflexivity. Qed.

Lemma append_nil_r s : s +:+ "" = s.
Proof.
  induction s as [|c s IH]; [reflexivity|].
  rewrite append_cons, IH. reflexivity.
Qed.

Lemma append_assoc s t u : (s +:+ t) +:+ u = s +:+ (t +:+ u).
Proof.
  induction s as [|c s IH]; [reflexivity|].
  rewrite !append_cons, IH. reflexivity.
Qed.

Lemma length_append s t :
  String.length (s +:+ t) = (String.length s + String.length t)%nat.
Proof.
  induction s as [|c s IH]; [reflexivity|].
  rewrite append_cons. simpl. rewrite IH. reflexivity.
Qed.

Lemma len_append s t : len (s +:+ t) = len s + len t.
Proof. unfold len. rewrite length_append. lia. Qed.

Lemma len_nonneg s : 0 <= len s.
Proof. unfold len. lia. Qed.

Lemma append_nonempty_r s t : t <> "" -> s +:+ t <> "".
Proof.
  intros Ht E. apply (f_equal String.length) in E.
  rewrite length_append in E. destruct t; [contradiction | simpl in E; lia].
Qed.

Lemma append_nonempty_l s t : s <> "" -> s +:+ t <> "".
Proof. destruct s; [contradiction | discriminate]. Qed.

(** ** center and formatCell *)

Example center_abc_10 : center "abc" 10 = "   abc    ".
Proof. reflexivity. Qed.

Example formatCell_x_5 : formatCell "x" 5 = "x    ".
Proof. reflexivity. Qed.

(** The two paddings of [center] are not negative, as [strings.Repeat]
    requires, and they fill the width. *)
Lemma center_paddings s width :
  len s < width ->
  0 <= Z.quot (width - len s) 2 /\
  0 <= width - len s - Z.quot (width - len s) 2 /\
  Z.quot (width - len s) 2 <= width - len s - Z.quot (width - len s) 2
  <= Z.quot (width - len s) 2 + 1.
Proof.
  intros Hlt. rewrite Z.quot_div_nonneg by lia.
  pose proof (Z.div_mod (width - len s) 2).
  pose proof (Z.mod_pos_bound (width - len s) 2). lia.
Qed.

Lemma length_repeatN s n :
  String.length (strings.repeatN s n) = (n * String.length s)%nat.
Proof.
  induction n as [|n IH]; [reflexivity|].
  cbn [strings.repeatN]. rewrite length_append, IH. lia.
Qed.

Lemma center_len s width : len (center s width) = Z.max (len s) width.
Proof.
  unfold center. destruct (len s >=? width) eqn:E.
  - apply Z.geb_le in E. lia.
  - assert (Hlt : len s < width).
    { destruct (Z_lt_dec (len s) width) as [H|H]; [exact H|].
      assert (E' : (len s >=? width) = true) by (apply Z.geb_le; lia).
      congruence. }
    destruct (center_paddings s width Hlt) as [H1 [H2 _]].
    rewrite !len_append. unfold strings.Repeat, len.
    rewrite !length_repeatN. simpl String.length. unfold len in *. lia.
Qed.

(** A cell is the string and the spaces that fill it up to [width]
    runes; a longer string is not cut. *)
Lemma formatCell_pad s width :
  0 <= width <= 1000000 ->
  formatCell s width
  = s +:+ strings.Repeat " " (width - utf8.RuneCountInString s) /\
  (width <= utf8.RuneCountInString s -> formatCell s width = s).
Proof.
  intros Hw. unfold formatCell, fmt.Sprintf_left.
  destruct (1000000 <? width) eqn:E1; [lia|].
  destruct (width <? -1000000) eqn:E2; [lia|].
  cbn [orb]. rewrite Z.abs_eq by lia. split; [reflexivity|].
  intros Hlong. unfold strings.Repeat.
  replace (Z.to_nat (width - utf8.RuneCountInString s)) with 0%nat by lia.
  apply append_nil_r.
Qed.

(** ** wordWrap *)

Section WordWrap.

Variable lineWidth : Z.

Lemma lineFits_word universe word :
  In word universe -> lineFits lineWidth universe word.
Proof.
  intros Hin. unfold lineFits.
  destruct (Z_le_dec (len word) lineWidth); [left | right; split]; auto.
  lia.
Qed.

Lemma wrapLoop_lineFits universe words :
  forall lines currentLine,
    (forall w, In w words -> In w universe) ->
    Forall (lineFits lineWidth universe) lines ->
    lineFits lineWidth universe currentLine ->
    0 <= lineWidth ->
    Forall (lineFits lineWidth universe)
           (wrapLoop words lineWidth lines currentLine).
Proof.
  induction words as [|word rest IH];
    intros lines currentLine Hsub Hlines Hcur Hw.
  - simpl. apply Forall_app. split; [exact Hlines|].
    constructor; [exact Hcur | constructor].
  - cbn [wrapLoop].
    assert (Hword : lineFits lineWidth universe word)
      by (apply lineFits_word, Hsub; left; reflexivity).
    assert (Hrest : forall w, In w rest -> In w universe)
      by (intros w Hin; apply Hsub; right; exact Hin).
    destruct (len currentLine + len word + 1 >? lineWidth) eqn:E.
    + cbn [String.eqb]. apply IH; auto.
      apply Forall_app. split; [exact Hlines|].
      constructor; [exact Hcur | constructor].
    + destruct (String.eqb currentLine "") eqn:Ecur.
      * apply IH; auto.
      * apply IH; auto. left.
        rewrite !len_append. change (len " ") with 1. lia.
Qed.

(** Behind a non-empty current line the loop is the greedy wrapping. *)
Lemma wrapLoop_greedy words :
  forall lines currentLine,
    Forall (fun w => w <> "") words ->
    currentLine <> "" ->
    wrapLoop words lineWidth lines currentLine
    = lines ++ greedyFrom words lineWidth currentLine.
Proof.
  induction words as [|word rest IH];
    intros lines currentLine Hne Hcur; [reflexivity|].
  inversion Hne as [|? ? Hword Hrest]; subst.
  cbn [wrapLoop greedyFrom].
  destruct (len currentLine + len word + 1 >? lineWidth) eqn:E.
  - cbn [String.eqb].
    destruct (len currentLine + 1 + len word <=? lineWidth) eqn:E';
      [lia|].
    rewrite IH by assumption. rewrite <- app_assoc. reflexivity.
  - destruct (len currentLine + 1 + len word <=? lineWidth) eqn:E';
      [|lia].
    rewrite (proj2 (String.eqb_neq _ _) Hcur).
    apply IH; [assumption|].
    apply append_nonempty_l. exact Hcur.
Qed.

(** The first iteration differs: the line is still empty, and the test
    moves that empty line to the output when the first word, counted
    with a separating space, is beyond [lineWidth]. *)
Lemma wrapLoop_first word rest :
  Forall (fun w => w <> "") (word :: rest) ->
  wrapLoop (word :: rest) lineWidth [] ""
  = if len word + 1 >? lineWidth
    then "" :: greedyWrap (word :: rest) lineWidth
    else greedyWrap (word :: rest) lineWidth.
Proof.
  intros Hne. inversion Hne as [|? ? Hword Hrest]; subst.
  cbn [wrapLoop greedyWrap].
  change (len "") with 0. rewrite Z.add_0_l.
  destruct (len word + 1 >? lineWidth);
    cbn [String.eqb]; rewrite wrapLoop_greedy by assumption;
    reflexivity.
Qed.

End WordWrap.

(** The words [strings.Fields] returns are not empty. *)
Lemma DecodeRuneInString_size c t :
  (1 <= snd (utf8.DecodeRuneInString (String c t)))%nat.
Proof.
  unfold utf8.DecodeRuneInString. cbv zeta.
  repeat match goal with
         | |- context [if ?b then _ else _] => destruct b
         | |- context [match ?s with
                       | EmptyString => _
                       | String _ _ => _
                       end] => destruct s
         end; simpl; lia.
Qed.

Lemma rangeFrom_nonempty s :
  forall pending,
    Forall (fun p : Z * string => snd p <> "") (utf8.rangeFrom s pending).
Proof.
  induction s as [|c t IH]; intros pending; [constructor|].
  cbn [utf8.rangeFrom]. destruct pending as [|k]; [|apply IH].
  pose proof (DecodeRuneInString_size c t) as Hsize.
  destruct (utf8.DecodeRuneInString (String c t)) as [r size].
  constructor; [|apply IH].
  cbn [snd] in *. destruct size as [|size]; [lia|]. discriminate.
Qed.

Lemma fieldsLoop_nonempty rs :
  forall cur,
    Forall (fun p : Z * string => snd p <> "") rs ->
    (forall w, cur = Some w -> w <> "") ->
    Forall (fun w => w <> "") (strings.fieldsLoop rs cur).
Proof.
  induction rs as [|[r bytes] rest IH]; intros cur Hrs Hcur.
  - simpl. destruct cur as [w|]; repeat constructor. apply Hcur. reflexivity.
  - inversion Hrs as [|? ? Hb Hrest]; subst. cbn [snd] in Hb.
    cbn [strings.fieldsLoop].
    destruct (unicode.IsSpace r); destruct cur as [w|].
    + constructor; [apply Hcur; reflexivity|].
      apply IH; [exact Hrest | discriminate].
    + apply IH; [exact Hrest | discriminate].
    + apply IH; [exact Hrest|].
      intros w' [= <-]. apply append_nonempty_r. exact Hb.
    + apply IH; [exact Hrest|]. intros w' [= <-]. exact Hb.
Qed.

Lemma Fields_nonempty s : Forall (fun w => w <> "") (strings.Fields s).
Proof.
  unfold strings.Fields, utf8.range.
  apply fieldsLoop_nonempty; [apply rangeFrom_nonempty | discriminate].
Qed.

(** [wordWrap] against the greedy wrapping: they agree unless the first
    word has [lineWidth] bytes or more, and then [wordWrap] returns the
    greedy lines behind an empty first line. *)
Lemma wordWrap_greedy text lineWidth :
  let words := strings.Fields (strings.TrimSpace text) in
  wordWrap text lineWidth =
    match words with
    | [] => []
    | word :: _ =>
      if len word + 1 >? lineWidth
      then "" :: greedyWrap words lineWidth
      else greedyWrap words lineWidth
    end.
Proof.
  intros words. unfold wordWrap. fold words.
  pose proof (Fields_nonempty (strings.TrimSpace text)) as Hne.
  fold words in Hne.
  destruct words as [|word rest]; [reflexivity|].
  change (llen (word :: rest) =? 0) with false. cbv iota.
  apply wrapLoop_first. exact Hne.
Qed.

(** C7: for every text and every positive lineWidth, each line of
    wordWrap(text, lineWidth) is at most lineWidth bytes long, unless it
    is one of the words of the text and that word alone is longer than
    lineWidth. *)
Theorem wordWrap_line_length text lineWidth :
  0 < lineWidth ->
  Forall (fun line =>
            len line <= lineWidth \/
            (In line (strings.Fields (strings.TrimSpace text)) /\
             lineWidth < len line))
         (wordWrap text lineWidth).
Proof.
  intros Hw. unfold wordWrap.
  destruct (llen (strings.Fields (strings.TrimSpace text)) =? 0);
    [constructor|].
  apply (wrapLoop_lineFits lineWidth
           (strings.Fields (strings.TrimSpace text))).
  - auto.
  - constructor.
  - left. change (len "") with 0. lia.
  - lia.
Qed.

Lemma wordWrap_line_length_witness :
  0 < 5 /\
  Forall (fun line =>
            len line <= 5 \/
            (In line (strings.Fields (strings.TrimSpace "ab cd overlong e"))
             /\ 5 < len line))
         (wordWrap "ab cd overlong e" 5).
Proof.
  split; [lia|]. apply (wordWrap_line_length "ab cd overlong e" 5). lia.
Defined.

(** C4 fails on the code: a first word of lineWidth bytes or more makes
    wordWrap return an empty line before it, where the greedy reference
    has the word as its first line.  The second input has the wrap width
    of the program itself, 23. *)
Theorem wordWrap_leading_empty_line :
  (strings.Fields (strings.TrimSpace "abc") = ["abc"] /\
   greedyWrap ["abc"] 3 = ["abc"] /\
   wordWrap "abc" 3 = [""; "abc"]) /\
  (greedyWrap ["abcdefghijklmnopqrstuvwxyz"; "de"] 23
   = ["abcdefghijklmnopqrstuvwxyz"; "de"] /\
   wordWrap "abcdefghijklmnopqrstuvwxyz de" 23
   = [""; "abcdefghijklmnopqrstuvwxyz"; "de"]).
Proof. repeat split; vm_compute; reflexivity. Qed.

(** ** The renderer *)

Section ForLoop.

Variable body : Z -> string -> result string.
Variable text : nat -> string.

(** A loop whose body appends [text j] at index [j] appends the texts
    of its indices in order. *)
Lemma forLoop_appends n :
  forall k out,
    (forall j out', (k <= j < k + n)%nat ->
                    body (Z.of_nat j) out' = Ok (out' +:+ text j)) ->
    forLoop n (Z.of_nat k) body out
    = Ok (out +:+ strings.joinBytes (map text (seq k n))).
Proof.
  induction n as [|n IH]; intros k out Hbody.
  - simpl. rewrite append_nil_r. reflexivity.
  - cbn [forLoop]. rewrite Hbody by lia. cbn [bind].
    replace (Z.of_nat k + 1) with (Z.of_nat (S k)) by lia.
    rewrite IH by (intros j out' Hj; apply Hbody; lia).
    cbn [seq map strings.joinBytes]. rewrite append_assoc. reflexivity.
Qed.

Lemma for_lt_appends hi out :
  (forall j out', (j < Z.to_nat hi)%nat ->
                  body (Z.of_nat j) out' = Ok (out' +:+ text j)) ->
  for_lt 0 hi body out
  = Ok (out +:+ strings.joinBytes (map text (seq 0 (Z.to_nat hi)))).
Proof.
  intros Hbody. unfold for_lt. rewrite Z.sub_0_r.
  apply (forLoop_appends (Z.to_nat hi) 0%nat).
  intros j out' Hj. apply Hbody. lia.
Qed.

End ForLoop.

Lemma printCell_text cols row col out :
  (col < length cols)%nat ->
  printCell cols (Z.of_nat row) (Z.of_nat col) out
  = Ok (out +:+ cellText cols row col).
Proof.
  intros Hcol. unfold printCell, cellText, lineAt.
  rewrite Nat2Z.id.
  destruct (lookup_lt_is_Some_2 _ _ Hcol) as [column Hcolumn].
  rewrite (index_Some _ _ _ Hcolumn), Hcolumn. cbn [bind].
  rewrite Nat2Z.id.
  assert (Hline :
            (if Z.of_nat row <? llen column
             then default "" (column !! row) else "")
            = default "" (column !! row)).
  { destruct (Z.of_nat row <? llen column) eqn:E; [reflexivity|].
    rewrite lookup_ge_None_2; [reflexivity|].
    unfold llen in E. lia. }
  rewrite Hline. rewrite append_assoc. reflexivity.
Qed.

Lemma printRow_text cols numColumns row out :
  length cols = Z.to_nat numColumns ->
  printRow cols numColumns (Z.of_nat row) out
  = Ok (out +:+ rowText cols numColumns row).
Proof.
  intros Hlen. unfold printRow, rowText.
  rewrite (for_lt_appends (printCell cols (Z.of_nat row))
             (cellText cols row)).
  - cbn [bind]. rewrite append_assoc. reflexivity.
  - intros j out' Hj. apply printCell_text. lia.
Qed.

Lemma lineAt_take cols n col row :
  (row < n)%nat -> lineAt (map (take n) cols) col row = lineAt cols col row.
Proof.
  intros Hrow. unfold lineAt. rewrite list_lookup_fmap.
  destruct (cols !! col) as [column|]; [|reflexivity]. simpl.
  rewrite lookup_take_lt by exact Hrow. reflexivity.
Qed.

Lemma gridRows_take cols columnHeight numColumns :
  gridRows (map (take (Z.to_nat columnHeight)) cols) columnHeight numColumns
  = gridRows cols columnHeight numColumns.
Proof.
  unfold gridRows. apply map_ext_in. intros row Hrow.
  apply in_seq in Hrow. unfold rowText. f_equal. f_equal.
  apply map_ext. intros col. unfold cellText.
  rewrite lineAt_take by lia. reflexivity.
Qed.

Lemma render_grid cols columnHeight numColumns out :
  length cols = Z.to_nat numColumns ->
  render cols columnHeight numColumns out
  = Ok (out +:+ strings.joinBytes (gridRows cols columnHeight numColumns)) /\
  length (gridRows cols columnHeight numColumns) = Z.to_nat columnHeight.
Proof.
  intros Hlen. split.
  - unfold render, gridRows.
    apply (for_lt_appends (printRow cols numColumns)
             (rowText cols numColumns)).
    intros j out' _. apply printRow_text. exact Hlen.
  - unfold gridRows. rewrite length_map, length_seq. reflexivity.
Qed.

(** ** The number of columns *)

Lemma numDisplayColumns_nonneg terminalWidth :
  0 <= terminalWidth ->
  numDisplayColumns terminalWidth = Z.max 1 (terminalWidth / 27) /\
  make_columns (numDisplayColumns terminalWidth)
  = Ok (replicate (Z.to_nat (numDisplayColumns terminalWidth)) []).
Proof.
  intros Hw. unfold numDisplayColumns.
  change fullColumnWidth with 27.
  rewrite Z.quot_div_nonneg by lia.
  assert (Hq : 0 <= terminalWidth / 27) by (apply Z.div_pos; lia).
  destruct (terminalWidth / 27 =? 0) eqn:E.
  - apply Z.eqb_eq in E. rewrite E. split; [reflexivity|].
    apply make_columns_ok. lia.
  - apply Z.eqb_neq in E. split; [lia|]. apply make_columns_ok. lia.
Qed.

Lemma numDisplayColumns_80 : numDisplayColumns 80 = 2.
Proof. reflexivity. Qed.

(** ** The empty data set *)

Lemma columnHeightOf_pos totalLines numColumns :
  1 <= totalLines -> 1 <= numColumns ->
  1 <= columnHeightOf totalLines numColumns.
Proof.
  intros Ht HN. unfold columnHeightOf.
  apply Z.quot_le_lower_bound; lia.
Qed.

Lemma joinBytes_newline_nonempty rows :
  (1 <= length rows)%nat ->
  Forall (fun r => exists t, r = t +:+ newline) rows ->
  strings.joinBytes rows <> "".
Proof.
  intros Hlen Hrows. destruct rows as [|r rows]; [simpl in Hlen; lia|].
  inversion Hrows as [|? ? [t ->] _]; subst.
  cbn [strings.joinBytes]. apply append_nonempty_l.
  apply append_nonempty_r. discriminate.
Qed.

Lemma gridRows_end_in_newline cols columnHeight numColumns :
  Forall (fun r => exists t, r = t +:+ newline)
         (gridRows cols columnHeight numColumns).
Proof.
  unfold gridRows. apply Forall_forall. intros r Hr.
  apply list_elem_of_In, in_map_iff in Hr. destruct Hr as [row [<- _]].
  unfold rowText. eexists. reflexivity.
Qed.

Lemma buildBlocks_empty :
  map isHeader (fst (buildBlocks [])) = [true; true; true; true; true; true]
  /\ map (fun b => llen (lines b)) (fst (buildBlocks [])) = [3; 4; 4; 4; 4; 4]
  /\ snd (buildBlocks []) = 23.
Proof. repeat split; vm_compute; reflexivity. Qed.

(** C6, as amended: for an empty data set and a terminal width that is
    not negative and not above 65535, the largest a terminal reports,
    the layout routine does not abort, and it does not print nothing
    either: the generation loop still emits the header block of each of
    the six categories, 23 lines in all, so totalLines is not 0, the
    early return is not taken and the grid of the packed headers, at
    least one row, is written. *)
Theorem empty_dataset_prints_headers stty out :
  0 <= getTerminalWidth stty <= maxTerminalWidth ->
  map isHeader (fst (buildBlocks [])) = [true; true; true; true; true; true]
  /\ snd (buildBlocks []) = 23
  /\ exists cols rows,
       pack (fst (buildBlocks [])) 23
            (numDisplayColumns (getTerminalWidth stty)) = Ok cols /\
       rows = gridRows cols
                (columnHeightOf 23 (numDisplayColumns (getTerminalWidth stty)))
                (numDisplayColumns (getTerminalWidth stty)) /\
       (1 <= length rows)%nat /\
       strings.joinBytes rows <> "" /\
       displayShortcutsInColumns [] stty out
       = Ok (out +:+ strings.joinBytes rows).
Proof.
  intros [Hw _].
  destruct buildBlocks_empty as [Hhdr [_ Htotal]].
  split; [exact Hhdr|]. split; [exact Htotal|].
  set (N := numDisplayColumns (getTerminalWidth stty)).
  assert (HN : 1 <= N).
  { destruct (numDisplayColumns_nonneg _ Hw) as [E _]. unfold N. lia. }
  destruct (pack_total (fst (buildBlocks [])) 23 N HN)
    as [cols [Hpack Hlen]].
  destruct (render_grid cols (columnHeightOf 23 N) N out Hlen)
    as [Hrender Hrows].
  exists cols, (gridRows cols (columnHeightOf 23 N) N).
  split; [exact Hpack|]. split; [reflexivity|].
  assert (Hcount : (1 <= length (gridRows cols (columnHeightOf 23 N) N))%nat).
  { rewrite Hrows. pose proof (columnHeightOf_pos 23 N). lia. }
  split; [exact Hcount|].
  split; [apply joinBytes_newline_nonempty;
          [exact Hcount | apply gridRows_end_in_newline]|].
  unfold displayShortcutsInColumns. fold N.
  destruct (buildBlocks []) as [allBlocks totalLines] eqn:Hbuild.
  cbn [fst snd] in *. subst totalLines.
  change (23 =? 0) with false. cbv iota.
  rewrite Hpack. cbn [bind]. exact Hrender.
Qed.

Lemma empty_dataset_prints_headers_witness :
  0 <= getTerminalWidth None <= maxTerminalWidth /\
  map isHeader (fst (buildBlocks [])) = [true; true; true; true; true; true]
  /\ snd (buildBlocks []) = 23
  /\ exists cols rows,
       pack (fst (buildBlocks [])) 23
            (numDisplayColumns (getTerminalWidth None)) = Ok cols /\
       rows = gridRows cols
                (columnHeightOf 23 (numDisplayColumns (getTerminalWidth None)))
                (numDisplayColumns (getTerminalWidth None)) /\
       (1 <= length rows)%nat /\
       strings.joinBytes rows <> "" /\
       displayShortcutsInColumns [] None ""
       = Ok ("" +:+ strings.joinBytes rows).
Proof.
  split; [vm_compute; split; discriminate|].
  apply (empty_dataset_prints_headers None "").
  vm_compute. split; discriminate.
Defined.

(** C6, as stated, fails: with no shortcut at all and the default width
    the layout routine writes the six headers, not nothing. *)
Lemma empty_dataset_output_not_empty :
  displayShortcutsInColumns [] None "" <> Ok "".
Proof. intros H. vm_compute in H. discriminate H. Qed.

(** ** The key prefix *)

Section Replace.

Variables old new : string.
Hypothesis old_nonempty : old <> "".

Lemma prefix_append s t : String.prefix s (s +:+ t) = true.
Proof.
  induction s as [|c s IH]; [destruct t; reflexivity|].
  rewrite append_cons. simpl. destruct (ascii_dec c c); [exact IH|].
  contradiction.
Qed.

Lemma prefix_split s t :
  String.prefix s t = true -> exists t', t = s +:+ t'.
Proof.
  revert t. induction s as [|c s IH]; intros t H.
  - exists t. reflexivity.
  - destruct t as [|d t]; [discriminate H|]. simpl in H.
    destruct (ascii_dec c d) as [->|]; [|discriminate H].
    destruct (IH t H) as [t' ->]. exists t'. reflexivity.
Qed.

Lemma replaceFrom_skip a :
  forall s,
    strings.replaceFrom (a +:+ s) old new (String.length a)
    = strings.replaceFrom s old new 0.
Proof.
  induction a as [|c a IH]; intros s.
  - rewrite append_nil_l. reflexivity.
  - rewrite append_cons. cbn [strings.replaceFrom String.length].
    apply IH.
Qed.

Lemma replaceFrom_match s :
  strings.replaceFrom (old +:+ s) old new 0
  = new +:+ strings.replaceFrom s old new 0.
Proof.
  pose proof (prefix_append old s) as Hp.
  assert (Hold : exists c o, old = String c o)
    by (destruct old; [contradiction | eauto]).
  destruct Hold as [c [o E]].
  assert (Happ : old +:+ s = String c (o +:+ s))
    by (rewrite E; reflexivity).
  rewrite Happ in *. cbn [strings.replaceFrom]. rewrite Hp.
  replace (String.length old - 1)%nat with (String.length o)
    by (rewrite E; simpl; lia).
  rewrite replaceFrom_skip. reflexivity.
Qed.

Lemma not_occursIn_empty : ~ occursIn old "".
Proof.
  intros [a [b E]]. apply (f_equal String.length) in E.
  rewrite !length_append in E. simpl in E.
  destruct old; [contradiction | simpl in E; lia].
Qed.

(** The scan cuts [s] at the occurrences of [old] it replaces: the
    pieces between them are kept, hold no further occurrence, and are
    joined by [new] in place of [old]. *)
Lemma replaceFrom_pieces n :
  forall s,
    (String.length s <= n)%nat ->
    exists first rest,
      s = first +:+ joinRest old rest /\
      strings.replaceFrom s old new 0 = first +:+ joinRest new rest /\
      Forall (fun p => ~ occursIn old p) (first :: rest).
Proof.
  induction n as [|n IH]; intros s Hlen.
  - destruct s; [|simpl in Hlen; lia].
    exists "", []. repeat split; try reflexivity.
    constructor; [apply not_occursIn_empty | constructor].
  - destruct s as [|c t].
    { exists "", []. repeat split; try reflexivity.
      constructor; [apply not_occursIn_empty | constructor]. }
    destruct (String.prefix old (String c t)) eqn:Hp.
    + destruct (prefix_split _ _ Hp) as [s' Hs'].
      assert (Hshort : (String.length s' <= n)%nat).
      { apply (f_equal String.length) in Hs'.
        rewrite length_append in Hs'. simpl in Hs', Hlen.
        destruct old; [contradiction | simpl in Hs'; lia]. }
      destruct (IH s' Hshort) as [first [rest [Hs [Hr Hall]]]].
      exists "", (first :: rest). rewrite Hs'. split; [|split].
      * cbn [joinRest]. rewrite append_nil_l, <- Hs. reflexivity.
      * rewrite replaceFrom_match, Hr. reflexivity.
      * constructor; [apply not_occursIn_empty | exact Hall].
    + assert (Hshort : (String.length t <= n)%nat)
        by (simpl in Hlen; lia).
      destruct (IH t Hshort) as [first [rest [Hs [Hr Hall]]]].
      exists (String c first), rest. split; [|split].
      * rewrite append_cons, <- Hs. reflexivity.
      * cbn [strings.replaceFrom]. rewrite Hp, Hr. reflexivity.
      * inversion Hall as [|? ? Hfirst Hrest]; subst.
        constructor; [|exact Hrest].
        intros [a [b E]]. destruct a as [|c' a].
        -- rewrite append_nil_l in E.
           rewrite <- append_cons, E, append_assoc, prefix_append in Hp.
           discriminate Hp.
        -- rewrite append_cons in E. injection E as _ E.
           apply Hfirst. exists a, b. exact E.
Qed.

End Replace.

(** C10: before the layout, [main] changes each shortcut of the data set
    in its key only.  The key is cut at its occurrences of Prefix; the
    pieces between them hold no Prefix, stay as they are, and are joined
    by ctrl+b in place of Prefix.  Description and category stay, and it
    is these shortcuts that are laid out. *)
Theorem main_replaces_prefix :
  (forall s,
     Description (withPrefixKey s) = Description s /\
     Category (withPrefixKey s) = Category s /\
     exists first rest,
       Key s = first +:+ joinRest "Prefix" rest /\
       Key (withPrefixKey s) = first +:+ joinRest "ctrl+b" rest /\
       Forall (fun p => ~ occursIn "Prefix" p) (first :: rest)) /\
  (forall stty,
     main stty =
       do out <- displayShortcutsInColumns
                   (map withPrefixKey getStaticShortcuts) stty newline;
       Ok (out +:+ newline)).
Proof.
  split; [|reflexivity].
  intros s. split; [reflexivity|]. split; [reflexivity|].
  destruct (replaceFrom_pieces "Prefix" "ctrl+b" ltac:(discriminate)
              (String.length (Key s)) (Key s) (le_n _))
    as [first [rest [Hs [Hr Hall]]]].
  exists first, rest. split; [exact Hs|]. split; [|exact Hall].
  exact Hr.
Qed.


(** ** Grouping and block generation *)

Lemma categorize_fold l :
  forall (m : gmap string (list Shortcut)) c,
    default [] (foldl (fun categorized s =>
                         <[Category s :=
                             default [] (categorized !! Category s) ++ [s]]>
                           categorized) m l !! c)
    = default [] (m !! c) ++ inCategory c l.
Proof.
  induction l as [|s l IH]; intros m c.
  - simpl. rewrite app_nil_r. reflexivity.
  - cbn [foldl]. rewrite IH. unfold inCategory. cbn [List.filter].
    destruct (String.eqb (Category s) c) eqn:E.
    + apply String.eqb_eq in E. subst c.
      rewrite lookup_insert_eq. simpl.
      rewrite <- app_assoc. reflexivity.
    + apply String.eqb_neq in E.
      rewrite lookup_insert_ne by exact E. reflexivity.
Qed.

Lemma categorize_lookup l c :
  default [] (categorize l !! c) = inCategory c l.
Proof.
  unfold categorize. rewrite categorize_fold, lookup_empty. reflexivity.
Qed.

Lemma foldl_addBlock_fst (f : Shortcut -> block) l :
  forall st,
    fst (foldl (fun st s => addBlock st (f s)) st l) = fst st ++ map f l.
Proof.
  induction l as [|s l IH]; intros st; simpl.
  - rewrite app_nil_r. reflexivity.
  - rewrite IH. unfold addBlock; simpl. rewrite <- app_assoc. reflexivity.
Qed.

Lemma buildFrom_blocks l cats :
  forall i st,
    fst (buildFrom (categorize l) i cats st) = fst st ++ blocksFrom l i cats.
Proof.
  induction cats as [|catName rest IH]; intros i st.
  - simpl. rewrite app_nil_r. reflexivity.
  - cbn [buildFrom blocksFrom]. rewrite IH.
    rewrite (foldl_addBlock_fst
               (fun s => mkBlock (shortcutBlock s) false (Z.of_nat i))).
    rewrite categorize_lookup. unfold addBlock, categoryBlocks; simpl.
    rewrite <- !app_assoc. reflexivity.
Qed.

Lemma buildBlocks_blocksFrom l :
  fst (buildBlocks l) = blocksFrom l 0 orderedCategories.
Proof. unfold buildBlocks. rewrite buildFrom_blocks. reflexivity. Qed.

(** X1: the grouping by category keeps, under each category name, the
    shortcuts with exactly that name in the order of the data set, and
    has no entry for a name no shortcut carries. *)
Theorem categorize_groups_in_order l c :
  default [] (categorize l !! c)
  = List.filter (fun s => String.eqb (Category s) c) l /\
  (categorize l !! c = None <-> Forall (fun s => Category s <> c) l).
Proof.
  split; [apply categorize_lookup|].
  unfold categorize.
  assert (H : forall (m : gmap string (list Shortcut)),
             foldl (fun categorized s =>
                      <[Category s :=
                          default [] (categorized !! Category s) ++ [s]]>
                        categorized) m l !! c = None
             <-> m !! c = None /\ Forall (fun s => Category s <> c) l).
  { induction l as [|s l IH]; intros m.
    - simpl. split; [intros H; split; [exact H | constructor] | tauto].
    - cbn [foldl]. rewrite IH. split.
      + intros [Hm Hl].
        destruct (String.eqb_spec (Category s) c) as [E|E].
        * subst c. rewrite lookup_insert_eq in Hm. discriminate Hm.
        * rewrite lookup_insert_ne in Hm by exact E.
          split; [exact Hm | constructor; assumption].
      + intros [Hm Hl]. inversion Hl as [|? ? Hs Hl']; subst.
        rewrite lookup_insert_ne by exact Hs. split; assumption. }
  rewrite H, lookup_empty. tauto.
Qed.

(** X2: the generation loop produces, for the six categories in their
    fixed order, the header block of the category followed by one entry
    block for each shortcut of that category, in the order of the data
    set; header and entries carry the index of the category.  A shortcut
    whose category is none of the six gets no block. *)
Theorem buildBlocks_by_category l :
  fst (buildBlocks l) = blocksFrom l 0 orderedCategories /\
  (length (fst (buildBlocks l))
   = 6 + length (List.filter
                   (fun s => existsb (String.eqb (Category s))
                                     orderedCategories) l))%nat.
Proof.
  assert (Hblocks : fst (buildBlocks l) = blocksFrom l 0 orderedCategories).
  { unfold buildBlocks. rewrite buildFrom_blocks. reflexivity. }
  split; [exact Hblocks|]. rewrite Hblocks.
  unfold orderedCategories. cbn [blocksFrom].
  rewrite !length_app. unfold categoryBlocks. cbn [length].
  rewrite !length_map. unfold inCategory. clear Hblocks.
  induction l as [|s l IH]; [reflexivity|].
  cbn [List.filter existsb] in *.
  repeat match goal with
         | |- context [String.eqb (Category s) ?c] =>
           destruct (String.eqb_spec (Category s) c)
         end;
    cbn [orb length]; try lia; try congruence.
Qed.

Lemma sumLines_app a b : sumLines (a ++ b) = sumLines a + sumLines b.
Proof. induction a as [|x a IH]; simpl; lia. Qed.

Lemma llen_headerBlock i catName :
  llen (headerBlock i catName) = if (0 <? i)%nat then 4 else 3.
Proof. unfold headerBlock. destruct (0 <? i)%nat; reflexivity. Qed.

Lemma llen_shortcutBlock s :
  llen (shortcutBlock s)
  = 2 + llen (wordWrap (Description s) (columnWidth - 2)).
Proof.
  unfold shortcutBlock. rewrite !llen_app. unfold llen.
  rewrite length_map. simpl. lia.
Qed.

Lemma sumLines_categoryBlocks l i catName :
  (if (0 <? i)%nat then 4 else 3) <= sumLines (categoryBlocks l i catName).
Proof.
  rewrite <- llen_headerBlock with (catName := catName).
  unfold categoryBlocks. cbn [sumLines lines].
  pose proof (sumLines_nonneg
                (map (fun s => mkBlock (shortcutBlock s) false (Z.of_nat i))
                     (inCategory catName l))).
  lia.
Qed.

Lemma buildBlocks_at_least_headers l : 23 <= snd (buildBlocks l).
Proof.
  rewrite buildBlocks_totalLines. unfold buildBlocks.
  rewrite buildFrom_blocks. cbn [fst app].
  unfold orderedCategories. cbn [blocksFrom].
  rewrite !sumLines_app. cbn [sumLines].
  pose proof (sumLines_categoryBlocks l 0 "Sessions") as H0.
  pose proof (sumLines_categoryBlocks l 1 "Windows") as H1.
  pose proof (sumLines_categoryBlocks l 2 "Pane Splitting & Nav") as H2.
  pose proof (sumLines_categoryBlocks l 3 "Pane Management") as H3.
  pose proof (sumLines_categoryBlocks l 4 "Misc") as H4.
  pose proof (sumLines_categoryBlocks l 5 "Copy Mode") as H5.
  cbn [Nat.ltb Nat.leb] in H0, H1, H2, H3, H4, H5.
  lia.
Qed.

Lemma numDisplayColumns_cases terminalWidth :
  (-27 < terminalWidth -> 1 <= numDisplayColumns terminalWidth) /\
  (terminalWidth <= -27 -> numDisplayColumns terminalWidth <= -1).
Proof.
  unfold numDisplayColumns. change fullColumnWidth with 27.
  pose proof (Z.quot_rem' terminalWidth 27) as Hqr.
  pose proof (Z.rem_bound_abs terminalWidth 27 ltac:(lia)) as Habs.
  split; intros Hw.
  - destruct (Z_le_dec 0 terminalWidth) as [Hpos|Hneg].
    + pose proof (Z.quot_pos terminalWidth 27 Hpos ltac:(lia)).
      destruct (Z.quot terminalWidth 27 =? 0) eqn:E; [lia|].
      apply Z.eqb_neq in E. lia.
    + pose proof (Z.rem_nonpos terminalWidth 27 ltac:(lia) ltac:(lia)).
      assert (Z.quot terminalWidth 27 = 0) as -> by lia.
      reflexivity.
  - pose proof (Z.rem_nonpos terminalWidth 27 ltac:(lia) ltac:(lia)).
    destruct (Z.quot terminalWidth 27 =? 0) eqn:E.
    + apply Z.eqb_eq in E. lia.
    + lia.
Qed.

(** ** The layout routine as a whole *)

Lemma display_unfold l stty out :
  displayShortcutsInColumns l stty out
  = do cols <- pack (fst (buildBlocks l)) (snd (buildBlocks l))
                 (displayColumns stty);
    render cols (displayHeight l stty) (displayColumns stty) out.
Proof.
  unfold displayShortcutsInColumns, displayHeight, displayColumns.
  pose proof (buildBlocks_at_least_headers l) as Htotal.
  destruct (buildBlocks l) as [allBlocks totalLines]. cbn [fst snd] in *.
  destruct (totalLines =? 0) eqn:E; [|reflexivity].
  apply Z.eqb_eq in E. lia.
Qed.

Lemma display_pos l stty out :
  -27 < getTerminalWidth stty ->
  exists cols,
    pack (fst (buildBlocks l)) (snd (buildBlocks l)) (displayColumns stty)
    = Ok cols /\
    length (gridRows cols (displayHeight l stty) (displayColumns stty))
    = Z.to_nat (displayHeight l stty) /\
    displayShortcutsInColumns l stty out
    = Ok (out +:+ strings.joinBytes
                    (gridRows cols (displayHeight l stty)
                              (displayColumns stty))).
Proof.
  intros Hw.
  assert (HN : 1 <= displayColumns stty)
    by (apply numDisplayColumns_cases; exact Hw).
  destruct (pack_total (fst (buildBlocks l)) (snd (buildBlocks l))
              (displayColumns stty) HN) as [cols [Hpack Hlen]].
  destruct (render_grid cols (displayHeight l stty) (displayColumns stty)
              out Hlen) as [Hrender Hrows].
  exists cols. split; [exact Hpack|]. split; [exact Hrows|].
  rewrite display_unfold, Hpack. exact Hrender.
Qed.

Lemma display_neg l stty out :
  getTerminalWidth stty <= -27 ->
  displayColumns stty <= -1 /\
  displayShortcutsInColumns l stty out = Panic "makeslice: len out of range".
Proof.
  intros Hw.
  assert (HN : displayColumns stty <= -1)
    by (apply numDisplayColumns_cases; exact Hw).
  split; [exact HN|].
  rewrite display_unfold. unfold pack, make_columns.
  destruct (displayColumns stty <? 0) eqn:E; [reflexivity | lia].
Qed.

(** X3: whatever the data set, totalLines is at least 23, so the early
    return of the layout routine is never taken; and for a terminal width
    above -27 and not above 65535, the largest a terminal reports, the
    routine does not panic: it writes the grid of the packed columns,
    columnHeight rows and at least one, behind what was written
    before. *)
Theorem display_writes_grid l stty out :
  -27 < getTerminalWidth stty <= maxTerminalWidth ->
  23 <= snd (buildBlocks l) /\
  1 <= displayColumns stty <= 2427 /\
  1 <= displayHeight l stty /\
  exists cols,
    pack (fst (buildBlocks l)) (snd (buildBlocks l)) (displayColumns stty)
    = Ok cols /\
    length (gridRows cols (displayHeight l stty) (displayColumns stty))
    = Z.to_nat (displayHeight l stty) /\
    displayShortcutsInColumns l stty out
    = Ok (out +:+ strings.joinBytes
                    (gridRows cols (displayHeight l stty)
                              (displayColumns stty))).
Proof.
  intros [Hw Hmax].
  pose proof (buildBlocks_at_least_headers l) as Htotal.
  assert (HN : 1 <= displayColumns stty)
    by (apply numDisplayColumns_cases; exact Hw).
  assert (Hfew : displayColumns stty <= 2427).
  { unfold displayColumns.
    destruct (Z_le_dec 0 (getTerminalWidth stty)) as [Hpos|Hneg].
    - destruct (numDisplayColumns_nonneg _ Hpos) as [-> _].
      assert (getTerminalWidth stty / 27 < 2428).
      { apply Z.div_lt_upper_bound; [lia|].
        unfold maxTerminalWidth in Hmax. lia. }
      lia.
    - unfold numDisplayColumns. change fullColumnWidth with 27.
      pose proof (Z.quot_rem' (getTerminalWidth stty) 27) as Hqr.
      pose proof (Z.rem_bound_abs (getTerminalWidth stty) 27 ltac:(lia))
        as Habs.
      pose proof (Z.rem_nonpos (getTerminalWidth stty) 27
                    ltac:(lia) ltac:(lia)) as Hrem.
      assert (Z.quot (getTerminalWidth stty) 27 = 0) as -> by lia.
      cbn. lia. }
  split; [exact Htotal|]. split; [lia|].
  split; [apply columnHeightOf_pos; lia|].
  apply display_pos. exact Hw.
Qed.

Lemma display_writes_grid_witness :
  -27 < getTerminalWidth (Some "24 100") <= maxTerminalWidth /\
  23 <= snd (buildBlocks getStaticShortcuts) /\
  1 <= displayColumns (Some "24 100") <= 2427 /\
  1 <= displayHeight getStaticShortcuts (Some "24 100") /\
  exists cols,
    pack (fst (buildBlocks getStaticShortcuts))
         (snd (buildBlocks getStaticShortcuts)) (displayColumns (Some "24 100"))
    = Ok cols /\
    length (gridRows cols (displayHeight getStaticShortcuts (Some "24 100"))
                     (displayColumns (Some "24 100")))
    = Z.to_nat (displayHeight getStaticShortcuts (Some "24 100")) /\
    displayShortcutsInColumns getStaticShortcuts (Some "24 100") ""
    = Ok ("" +:+ strings.joinBytes
                   (gridRows cols
                      (displayHeight getStaticShortcuts (Some "24 100"))
                      (displayColumns (Some "24 100")))).
Proof.
  split; [vm_compute; split; [reflexivity | discriminate]|].
  apply (display_writes_grid getStaticShortcuts (Some "24 100") "").
  vm_compute. split; [reflexivity | discriminate].
Defined.



Lemma main_unfold stty :
  main stty =
    do out <- displayShortcutsInColumns
                (map withPrefixKey getStaticShortcuts) stty newline;
    Ok (out +:+ newline).
Proof. reflexivity. Qed.

Lemma staticShortcuts_totalLines :
  snd (buildBlocks (map withPrefixKey getStaticShortcuts)) = 120.
Proof. vm_compute. reflexivity. Qed.

(** X5: the program as a whole.  The static data set with its keys
    rewritten makes 38 blocks of 120 lines.  For a terminal width of -27
    or less [main] panics in the allocation of the columns.  For a width
    above -27 and not above 65535 it writes a newline, the grid of the
    columns the packer returns for these blocks, ceil(120 / N) rows,
    and a newline. *)
Theorem main_output stty :
  snd (buildBlocks (map withPrefixKey getStaticShortcuts)) = 120 /\
  (getTerminalWidth stty <= -27 ->
   main stty = Panic "makeslice: len out of range") /\
  (-27 < getTerminalWidth stty <= maxTerminalWidth ->
   exists cols,
     pack staticBlocks 120 (displayColumns stty) = Ok cols /\
     length (gridRows cols (columnHeightOf 120 (displayColumns stty))
                      (displayColumns stty))
     = Z.to_nat (columnHeightOf 120 (displayColumns stty)) /\
     main stty
     = Ok ((newline +:+
            strings.joinBytes
              (gridRows cols (columnHeightOf 120 (displayColumns stty))
                        (displayColumns stty)))
           +:+ newline)).
Proof.
  split; [exact staticShortcuts_totalLines|].
  rewrite main_unfold. unfold staticBlocks.
  generalize staticShortcuts_totalLines.
  generalize (display_neg (map withPrefixKey getStaticShortcuts) stty newline).
  generalize (display_pos (map withPrefixKey getStaticShortcuts) stty newline).
  unfold displayHeight.
  generalize (map withPrefixKey getStaticShortcuts). intros l Hpos Hneg Htotal.
  rewrite Htotal in Hpos.
  split.
  - intros Hw. destruct (Hneg Hw) as [_ Hrun]. rewrite Hrun. reflexivity.
  - intros [Hw _].
    destruct (Hpos Hw) as [cols [Hpack [Hrows Hrun]]].
    exists cols. split; [exact Hpack|]. split; [exact Hrows|].
    rewrite Hrun. reflexivity.
Qed.

Lemma main_output_witness :
  -27 < getTerminalWidth None <= maxTerminalWidth /\
  exists cols,
    pack staticBlocks 120 (displayColumns None) = Ok cols /\
    length (gridRows cols (columnHeightOf 120 (displayColumns None))
                     (displayColumns None))
    = Z.to_nat (columnHeightOf 120 (displayColumns None)) /\
    main None
    = Ok ((newline +:+
           strings.joinBytes
             (gridRows cols (columnHeightOf 120 (displayColumns None))
                       (displayColumns None)))
          +:+ newline).
Proof.
  assert (Hw : -27 < getTerminalWidth None <= maxTerminalWidth)
    by (vm_compute; split; [reflexivity | discriminate]).
  split; [exact Hw|].
  exact (proj2 (proj2 (main_output None)) Hw).
Defined.

(** ** More on the packer *)

Lemma concat_all_nil (cols : list (list string)) :
  (forall c col, cols !! c = Some col -> col = []) -> concat cols = [].
Proof.
  induction cols as [|y ys IH]; intros Hall; [reflexivity|].
  cbn [concat]. rewrite (Hall 0%nat y eq_refl). cbn [app].
  apply IH. intros c col Hc. apply (Hall (S c)). exact Hc.
Qed.

(** Appending to the last column in use appends to the columns read one
    after the other. *)
Lemma concat_insert_last (cols : list (list string)) :
  forall c col x,
    cols !! c = Some col ->
    (forall c' col', (c < c')%nat -> cols !! c' = Some col' -> col' = []) ->
    concat (<[c := col ++ x]> cols) = concat cols ++ x.
Proof.
  induction cols as [|y ys IH]; intros c col x Hc Hrest.
  - discriminate Hc.
  - destruct c as [|c].
    + injection Hc as ->. cbn [concat].
      change (<[0%nat := col ++ x]> (col :: ys)) with ((col ++ x) :: ys).
      cbn [concat].
      rewrite (concat_all_nil ys).
      * rewrite !app_nil_r. reflexivity.
      * intros c' col' Hc'. apply (Hrest (S c') col'); [lia | exact Hc'].
    + change (<[S c := col ++ x]> (y :: ys))
        with (y :: <[c := col ++ x]> ys).
      cbn [concat]. rewrite (IH c col x).
      * rewrite app_assoc. reflexivity.
      * exact Hc.
      * intros c' col' Hlt Hc'. apply (Hrest (S c') col'); [lia | exact Hc'].
Qed.

Lemma restEmpty_stay st col blk :
  restEmpty st -> restEmpty (stayState st col blk).
Proof.
  intros Hempty c colc Hc Hlook. unfold stayState in *; cbn in Hc, Hlook.
  rewrite list_lookup_insert_ne in Hlook by lia.
  eapply Hempty; eassumption.
Qed.

Lemma restEmpty_advance st col' blk :
  restEmpty st -> restEmpty (advanceState st col' blk).
Proof.
  intros Hempty c colc Hc Hlook. unfold advanceState in *; cbn in Hc, Hlook.
  rewrite list_lookup_insert_ne in Hlook by lia.
  eapply Hempty; [|exact Hlook]. lia.
Qed.

Section PackOrder.

Variable allBlocks : list block.
Variables columnHeight numColumns : Z.

Local Abbreviation loop := (packLoop allBlocks columnHeight numColumns).

(** The loop appends the lines it places to the columns read one after
    the other, and it places every block when enough columns are left. *)
Lemma packLoop_order rest :
  forall i st,
    wfState numColumns st ->
    restEmpty st ->
    exists st' (placed : list (list string)),
      loop i rest st = Ok st' /\
      (length placed <= length rest)%nat /\
      Forall2 placedLines (take (length placed) rest) placed /\
      concat (columns st') = concat (columns st) ++ concat placed /\
      (Z.of_nat (currentCol st) + Z.of_nat (length rest) < numColumns \/
       (Z.of_nat (currentCol st) + Z.of_nat (length rest) <= numColumns /\
        columns st !! currentCol st = Some []) ->
       length placed = length rest).
Proof.
  induction rest as [|blk rest' IH]; intros i st Hwf Hempty.
  - exists st, []. cbn [packLoop length firstn concat].
    rewrite app_nil_r.
    split; [reflexivity|]. split; [lia|]. split; [constructor|].
    split; reflexivity.
  - destruct (packStep_cases allBlocks columnHeight numColumns i blk st Hwf)
      as [col [Hcol [[Hfit Hstep] |
                     [[H1 [H2 [col' [Hcol' [H3 Hstep]]]]] |
                      [H1 [H2 [H3 Hstep]]]]]]];
      cbn [packLoop]; rewrite Hstep; cbn [bind].
    + destruct (IH (S i) _ (wfState_stay numColumns st col blk Hwf)
                  (restEmpty_stay st col blk Hempty))
        as [st' [placed [Hrun [Hle [Hall [Hcat Hfull]]]]]].
      exists st', (lines blk :: placed). cbn [length firstn concat].
      split; [exact Hrun|]. split; [lia|].
      split; [constructor; [apply placedLines_whole | exact Hall]|].
      split.
      * rewrite Hcat. unfold stayState; cbn [columns].
        rewrite (concat_insert_last _ _ _ _ Hcol), <- app_assoc;
          [reflexivity|].
        intros c' col'0 Hlt Hc'. eapply Hempty; eassumption.
      * intros Hroom. f_equal. apply Hfull.
        unfold stayState; cbn [columns currentCol]. left.
        cbn [length] in Hroom. lia.
    + destruct (IH (S i) _ (wfState_advance numColumns st col' blk Hwf H3)
                  (restEmpty_advance st col' blk Hempty))
        as [st' [placed [Hrun [Hle [Hall [Hcat Hfull]]]]]].
      exists st', (skipLeadingBlank (lines blk) :: placed).
      cbn [length firstn concat].
      split; [exact Hrun|]. split; [lia|].
      split; [constructor; [apply placedLines_skip | exact Hall]|].
      split.
      * rewrite Hcat. unfold advanceState; cbn [columns].
        rewrite (concat_insert_last _ _ _ _ Hcol'), <- app_assoc;
          [reflexivity|].
        intros c' col'0 Hlt Hc'. eapply Hempty; [|exact Hc']. lia.
      * intros Hroom. f_equal. apply Hfull.
        unfold advanceState; cbn [columns currentCol]. left.
        cbn [length] in Hroom.
        destruct Hroom as [Hroom | [_ Hnil]]; [lia|].
        assert (col = []) by congruence. subst col.
        unfold llen in H1. simpl in H1. lia.
    + exists (mkPack (columns st) (S (currentCol st))), [].
      cbn [length firstn concat columns]. rewrite app_nil_r.
      split; [reflexivity|]. split; [lia|]. split; [constructor|].
      split; [reflexivity|].
      intros Hroom. exfalso. cbn [length] in Hroom.
      destruct Hroom as [Hroom | [_ Hnil]]; [lia|].
      assert (col = []) by congruence. subst col.
      unfold llen in H1. simpl in H1. lia.
Qed.


End PackOrder.

Lemma restEmpty_initial numColumns :
  restEmpty (mkPack (replicate (Z.to_nat numColumns) []) 0).
Proof.
  intros c col _ Hlook. cbn [columns] in Hlook.
  apply lookup_replicate in Hlook. tauto.
Qed.

Lemma concat_replicate_nil n : concat (replicate n (@nil string)) = [].
Proof. induction n as [|n IH]; [reflexivity | exact IH]. Qed.

(** ** Whole blocks *)

Section PackPlacement.

Variable allBlocks : list block.
Variables columnHeight numColumns : Z.

Local Abbreviation loop := (packLoop allBlocks columnHeight numColumns).

Lemma opensColumn_skip blk : opensColumn blk (skipLeadingBlank (lines blk)).
Proof.
  unfold opensColumn, skipLeadingBlank.
  destruct (lines blk) as [|l0 rest] eqn:E.
  - left. split; [reflexivity|]. intros l1 r1 H. discriminate H.
  - destruct (String.eqb (strings.TrimSpace l0) "") eqn:E0.
    + right. exists l0. split; [reflexivity|].
      apply String.eqb_eq. exact E0.
    + left. split; [reflexivity|]. intros l1 r1 H.
      injection H as <- <-. apply String.eqb_neq. exact E0.
Qed.

(** The loop never panics, and what it adds to the columns is a trace
    that places whole blocks: a block is left without its blank first
    line only where it opens a column. *)
Lemma packLoop_follows rest :
  forall i st col,
    wfState numColumns st ->
    restEmpty st ->
    columns st !! currentCol st = Some col ->
    exists st' (tr : trace),
      loop i rest st = Ok st' /\
      length (columns st') = length (columns st) /\
      (length tr <= length rest)%nat /\
      follows (currentCol st) col (take (length tr) rest) tr /\
      Forall (fun p => Z.of_nat (fst p) < numColumns) tr /\
      (forall c colc, columns st !! c = Some colc ->
                      columns st' !! c = Some (colc ++ columnOf c tr)) /\
      ((length tr < length rest)%nat ->
       exists last,
         columns st' !! (Z.to_nat numColumns - 1)%nat = Some last /\
         last <> []).
Proof.
  induction rest as [|blk rest' IH]; intros i st col Hwf Hempty Hcur.
  - exists st, []. cbn [packLoop length firstn take].
    split; [reflexivity|]. split; [reflexivity|]. split; [lia|].
    split; [constructor|]. split; [constructor|].
    split.
    + intros c colc Hc. cbn [columnOf]. rewrite app_nil_r. exact Hc.
    + intros Habs. lia.
  - destruct (packStep_cases allBlocks columnHeight numColumns i blk st Hwf)
      as [col0 [Hcol0 [[Hfit Hstep] |
                       [[H1 [H2 [col' [Hcol' [H3 Hstep]]]]] |
                        [H1 [H2 [H3 Hstep]]]]]]];
      assert (col0 = col) by congruence; subst col0;
      cbn [packLoop]; rewrite Hstep; cbn [bind].
    + (* appended to the current column *)
      destruct (IH (S i) (stayState st col blk) (col ++ lines blk)
                  (wfState_stay numColumns st col blk Hwf)
                  (restEmpty_stay st col blk Hempty))
        as [st' [tr [Hrun [Hlen [Hle [Hfol [Hin [Hcols Hdrop]]]]]]]].
      { unfold stayState; cbn [columns currentCol].
        apply list_lookup_insert_eq. apply lookup_lt_Some in Hcur.
        exact Hcur. }
      exists st', ((currentCol st, lines blk) :: tr).
      cbn [length firstn take].
      split; [exact Hrun|].
      split; [rewrite Hlen; unfold stayState; cbn [columns];
              apply length_insert|].
      split; [lia|].
      split; [apply follows_stay; exact Hfol|].
      split.
      { constructor; [|exact Hin]. cbn [fst].
        destruct Hwf as [Hc Hl]. lia. }
      split.
      { intros c colc Hc.
        destruct (Nat.eq_dec (currentCol st) c) as [<-|Hne].
        - cbn [columnOf]. rewrite Nat.eqb_refl.
          assert (colc = col) by congruence. subst colc.
          rewrite app_assoc. apply Hcols. unfold stayState; cbn [columns].
          apply list_lookup_insert_eq. apply lookup_lt_Some in Hc.
          exact Hc.
        - cbn [columnOf]. rewrite (proj2 (Nat.eqb_neq _ _) Hne).
          apply Hcols. unfold stayState; cbn [columns].
          rewrite list_lookup_insert_ne; auto. }
      intros Hlt. apply Hdrop. lia.
    + (* it opens the next column, which is empty *)
      assert (col' = []) as ->.
      { eapply Hempty; [|exact Hcol']. lia. }
      destruct (IH (S i) (advanceState st [] blk)
                  (skipLeadingBlank (lines blk))
                  (wfState_advance numColumns st [] blk Hwf H3)
                  (restEmpty_advance st [] blk Hempty))
        as [st' [tr [Hrun [Hlen [Hle [Hfol [Hin [Hcols Hdrop]]]]]]]].
      { unfold advanceState; cbn [columns currentCol app].
        apply list_lookup_insert_eq. apply lookup_lt_Some in Hcol'.
        exact Hcol'. }
      exists st', ((S (currentCol st), skipLeadingBlank (lines blk)) :: tr).
      cbn [length firstn take].
      split; [exact Hrun|].
      split; [rewrite Hlen; unfold advanceState; cbn [columns];
              apply length_insert|].
      split; [lia|].
      split.
      { apply follows_open; [| apply opensColumn_skip | exact Hfol].
        intros ->. unfold llen in H1. simpl in H1. lia. }
      split.
      { constructor; [|exact Hin]. cbn [fst]. lia. }
      split.
      { intros c colc Hc.
        destruct (Nat.eq_dec (S (currentCol st)) c) as [<-|Hne].
        - cbn [columnOf]. rewrite Nat.eqb_refl.
          assert (colc = []) by congruence. subst colc.
          rewrite app_assoc. apply Hcols. unfold advanceState; cbn [columns].
          apply list_lookup_insert_eq. apply lookup_lt_Some in Hc.
          exact Hc.
        - cbn [columnOf]. rewrite (proj2 (Nat.eqb_neq _ _) Hne).
          apply Hcols. unfold advanceState; cbn [columns].
          rewrite list_lookup_insert_ne; auto. }
      intros Hlt. apply Hdrop. lia.
    + (* no column is left *)
      exists (mkPack (columns st) (S (currentCol st))), [].
      cbn [length firstn take columns].
      split; [reflexivity|]. split; [reflexivity|]. split; [lia|].
      split; [constructor|]. split; [constructor|].
      split.
      { intros c colc Hc. cbn [columnOf]. rewrite app_nil_r. exact Hc. }
      intros _. exists col. split.
      * replace (Z.to_nat numColumns - 1)%nat with (currentCol st) by lia.
        exact Hcur.
      * intros ->. unfold llen in H1. simpl in H1. lia.
Qed.

End PackPlacement.

(** C1, as amended: for every block sequence and every number of columns
    N >= 1 the packer returns columns that hold whole blocks.  Each
    placed block is appended contiguously to exactly one column: with
    all of its lines where it stays in the current column, and where it
    opens the next column with all of its lines but a blank first one.
    The blocks behind the last placed one are dropped entirely, and only
    with the last column in use. *)
Theorem pack_never_splits_a_block allBlocks totalLines numColumns :
  1 <= numColumns ->
  exists cols,
    pack allBlocks totalLines numColumns = Ok cols /\
    placesWholeBlocks allBlocks numColumns cols.
Proof.
  intros HN. rewrite pack_unfold by exact HN.
  destruct (packLoop_follows allBlocks
              (columnHeightOf totalLines numColumns) numColumns allBlocks 0
              (mkPack (replicate (Z.to_nat numColumns) []) 0) []
              (wfState_initial numColumns HN)
              (restEmpty_initial numColumns))
    as [st' [tr [Hrun [Hlen [Hle [Hfol [Hin [Hcols Hdrop]]]]]]]].
  { cbn [columns currentCol]. apply lookup_replicate_2. lia. }
  rewrite Hrun. cbn [bind]. exists (columns st'). split; [reflexivity|].
  cbn [columns currentCol] in Hlen, Hcols, Hfol.
  rewrite length_replicate in Hlen.
  exists tr. split; [exact Hle|]. split; [exact Hfol|].
  split; [exact Hin|]. split; [exact Hlen|]. split; [|exact Hdrop].
  intros c Hc.
  rewrite (Hcols c []); [reflexivity|].
  apply lookup_replicate_2. lia.
Qed.

Lemma pack_never_splits_a_block_witness :
  1 <= 2 /\
  exists cols,
    pack (fst (buildBlocks [])) (snd (buildBlocks [])) 2 = Ok cols /\
    placesWholeBlocks (fst (buildBlocks [])) 2 cols.
Proof.
  split; [lia|].
  apply (pack_never_splits_a_block
           (fst (buildBlocks [])) (snd (buildBlocks [])) 2).
  lia.
Defined.

(** A blank first line left out in the middle of a column is not a
    placement of whole blocks. *)
Example stripped_below_content_is_not_whole :
  ~ placesWholeBlocks [mkBlock ["a"] false 0; mkBlock [""; "b"] false 0] 1
                      [["a"; "b"]].
Proof.
  intros [tr [Hle [Hfol [Hin [_ [Hcols _]]]]]].
  specialize (Hcols 0%nat ltac:(cbn [length]; lia)).
  cbn in Hcols. injection Hcols as Hcol.
  destruct tr as [|[c1 l1] [|[c2 l2] [|p tr]]];
    cbn [length take firstn] in Hfol, Hle.
  - discriminate Hcol.
  - inversion Hfol as [| ? ? ? ? ? Hrest | ? ? ? ? ? ? Hne]; subst;
      [|contradiction].
    cbn in Hcol. discriminate Hcol.
  - inversion Hfol as [| ? ? ? ? ? Hrest | ? ? ? ? ? ? Hne]; subst;
      [|contradiction].
    cbn [lines app] in Hrest.
    inversion Hrest as [| ? ? ? ? ? Hnil | ? ? ? ? ? ? Hne Hopen Hnil]; subst.
    + cbn in Hcol. discriminate Hcol.
    + inversion Hin as [|? ? _ Htl]; subst.
      inversion Htl as [|? ? Hc _]; subst. cbn [fst] in Hc. lia.
  - lia.
Qed.

Lemma whole_blocks_total blocks (tr : trace) :
  Forall2 (fun blk p => Z.of_nat (fst p) < 2 /\ snd p = lines blk)
          blocks tr ->
  llen (columnOf 0 tr) + llen (columnOf 1 tr) = sumLines blocks.
Proof.
  induction 1 as [|blk [c ls] blocks tr [Hc Hls] _ IH]; [reflexivity|].
  cbn [fst snd] in Hc, Hls. subst ls. cbn [columnOf sumLines].
  destruct c as [|[|c]]; [| |lia];
    cbn [Nat.eqb]; rewrite llen_app; lia.
Qed.

Lemma headers_prefix_total k :
  sumLines (take k (fst (buildBlocks []))) <> 22.
Proof.
  destruct k as [|[|[|[|[|[|[|k]]]]]]]; vm_compute; discriminate.
Qed.

(** C1, as stated, fails on a data set: for the empty one and the two
    columns of the default width, the header of the fourth category
    opens column 1 and its blank first line is left out, so its lines
    are neither all appended to a column nor all dropped.  The columns
    hold 22 lines, which no prefix of the blocks adds up to. *)
Lemma pack_drops_leading_blank :
  ~ exists cols,
      pack (fst (buildBlocks [])) (snd (buildBlocks [])) 2 = Ok cols /\
      distributes (fun blk ls => ls = lines blk) (fst (buildBlocks [])) 2
                  cols.
Proof.
  intros [cols [Hpack [tr [Hle [Hall [Hlen [Hcols Hdrop]]]]]]].
  pose proof (whole_blocks_total _ _ Hall) as Hsum.
  assert (Htotal : exists c0 c1,
             cols = [c0; c1] /\ llen c0 + llen c1 = 22).
  { vm_compute in Hpack. injection Hpack as <-.
    eexists _, _. split; [reflexivity|]. vm_compute. reflexivity. }
  destruct Htotal as [c0 [c1 [-> Htotal]]].
  pose proof (Hcols 0%nat ltac:(cbn [length]; lia)) as H0.
  pose proof (Hcols 1%nat ltac:(cbn [length]; lia)) as H1.
  cbn in H0, H1. injection H0 as H0. injection H1 as H1.
  rewrite <- H0, <- H1, Htotal in Hsum.
  apply (headers_prefix_total (length tr)). symmetry. exact Hsum.
Qed.

(** X6: for N >= 1, the columns the packer returns, read one after the
    other from top to bottom, are the lines of the placed blocks in the
    order of the block sequence (each block whole, or without its blank
    first line): no block is moved before an earlier one, and nothing
    else is in the columns. *)
Theorem pack_keeps_reading_order allBlocks totalLines numColumns :
  1 <= numColumns ->
  exists cols (placed : list (list string)),
    pack allBlocks totalLines numColumns = Ok cols /\
    (length placed <= length allBlocks)%nat /\
    Forall2 placedLines (take (length placed) allBlocks) placed /\
    concat cols = concat placed.
Proof.
  intros HN. rewrite pack_unfold by exact HN.
  destruct (packLoop_order allBlocks (columnHeightOf totalLines numColumns)
              numColumns allBlocks 0 _ (wfState_initial numColumns HN)
              (restEmpty_initial numColumns))
    as [st' [placed [Hrun [Hle [Hall [Hcat _]]]]]].
  rewrite Hrun. cbn [bind]. exists (columns st'), placed.
  split; [reflexivity|]. split; [exact Hle|]. split; [exact Hall|].
  rewrite Hcat. cbn [columns]. rewrite concat_replicate_nil. reflexivity.
Qed.

Lemma pack_keeps_reading_order_witness :
  1 <= 2 /\
  exists cols (placed : list (list string)),
    pack threeBlocks 6 2 = Ok cols /\
    (length placed <= length threeBlocks)%nat /\
    Forall2 placedLines (take (length placed) threeBlocks) placed /\
    concat cols = concat placed.
Proof.
  split; [lia|]. apply (pack_keeps_reading_order threeBlocks 6 2). lia.
Defined.

Lemma pack_all_placed allBlocks totalLines numColumns :
  1 <= numColumns ->
  Z.of_nat (length allBlocks) <= numColumns ->
  exists cols (placed : list (list string)),
    pack allBlocks totalLines numColumns = Ok cols /\
    Forall2 placedLines allBlocks placed /\
    concat cols = concat placed.
Proof.
  intros HN Hmany. rewrite pack_unfold by exact HN.
  destruct (packLoop_order allBlocks (columnHeightOf totalLines numColumns)
              numColumns allBlocks 0 _ (wfState_initial numColumns HN)
              (restEmpty_initial numColumns))
    as [st' [placed [Hrun [Hle [Hall [Hcat Hfull]]]]]].
  rewrite Hrun. cbn [bind]. exists (columns st'), placed.
  split; [reflexivity|].
  assert (Hlen : length placed = length allBlocks).
  { apply Hfull. right. cbn [columns currentCol]. split; [lia|].
    apply lookup_replicate_2. lia. }
  split.
  - rewrite Hlen, firstn_all in Hall. exact Hall.
  - rewrite Hcat. cbn [columns]. rewrite concat_replicate_nil. reflexivity.
Qed.

(** X7: with at least as many columns as blocks (and at least one), the
    packer drops no block: every block of the sequence is placed, and the
    columns read one after the other are all the blocks in order. *)
Theorem pack_drops_nothing_with_enough_columns
  allBlocks totalLines numColumns :
  1 <= numColumns ->
  Z.of_nat (length allBlocks) <= numColumns ->
  exists cols (placed : list (list string)),
    pack allBlocks totalLines numColumns = Ok cols /\
    Forall2 placedLines allBlocks placed /\
    concat cols = concat placed.
Proof. apply pack_all_placed. Qed.

Lemma pack_drops_nothing_with_enough_columns_witness :
  1 <= 3 /\
  Z.of_nat (length threeBlocks) <= 3 /\
  exists cols (placed : list (list string)),
    pack threeBlocks 6 3 = Ok cols /\
    Forall2 placedLines threeBlocks placed /\
    concat cols = concat placed.
Proof.
  split; [lia|]. split; [vm_compute; discriminate|].
  apply (pack_drops_nothing_with_enough_columns threeBlocks 6 3); [lia|].
  vm_compute. discriminate.
Defined.



(** ** Runes

    How [utf8.DecodeRuneInString] and the rune count behave under
    concatenation: a byte below 0x80 ends whatever sequence is open
    before it. *)

Lemma byteVal_range c : 0 <= byteVal c < 256.
Proof.
  unfold byteVal.
  destruct c as [[] [] [] [] [] [] [] []]; vm_compute; split; congruence.
Qed.

Ltac bool_to_prop :=
  repeat match goal with
         | H : (_ <? _) = true |- _ => apply Z.ltb_lt in H
         | H : (_ <? _) = false |- _ => apply Z.ltb_ge in H
         | H : (_ <=? _) = true |- _ => apply Z.leb_le in H
         | H : (_ <=? _) = false |- _ => apply Z.leb_gt in H
         | H : (_ =? _) = true |- _ => apply Z.eqb_eq in H
         | H : (_ =? _) = false |- _ => apply Z.eqb_neq in H
         | H : (_ || _) = false |- _ => apply orb_false_iff in H; destruct H
         | H : (_ || _) = true |- _ => apply orb_true_iff in H; destruct H
         | H : (_ && _) = true |- _ => apply andb_true_iff in H; destruct H
         | H : (_ && _) = false |- _ => apply andb_false_iff in H; destruct H
         | H : negb _ = true |- _ => apply negb_true_iff in H
         | H : negb _ = false |- _ => apply negb_false_iff in H
         end.

Ltac first_cases b :=
  unfold utf8.first in *;
  repeat match goal with
         | |- context [if b <? ?k then _ else _] => destruct (Z.ltb_spec b k)
         | |- context [if b =? ?k then _ else _] => destruct (Z.eqb_spec b k)
         end.

Ltac eval_const k :=
  let sz := eval vm_compute in (Z.land k 7) in
  let ac := eval vm_compute in (utf8.acceptRanges (Z.shiftr k 4)) in
  let ge := eval vm_compute in (utf8.as_ <=? k) in
  let eq := eval vm_compute in (k =? utf8.as_) in
  change (Z.land k 7) with sz;
  change (utf8.acceptRanges (Z.shiftr k 4)) with ac;
  change (utf8.as_ <=? k) with ge;
  change (k =? utf8.as_) with eq.

Ltac eval_consts :=
  eval_const utf8.as_; eval_const utf8.xx; eval_const utf8.s1;
  eval_const utf8.s2; eval_const utf8.s3; eval_const utf8.s4;
  eval_const utf8.s5; eval_const utf8.s6; eval_const utf8.s7;
  cbv iota; cbn [fst snd].

Ltac decode_cases :=
  unfold len; cbn [String.length];
  unfold utf8.is_cont, utf8.locb, utf8.hicb;
  repeat match goal with
         | |- context [if ?b then _ else _] => destruct b eqn:?
         end;
  try reflexivity; try (exfalso; bool_to_prop; lia).

Lemma Decode_app_ascii c s a t :
  byteVal a < 128 ->
  utf8.DecodeRuneInString (String c s +:+ String a t)
  = utf8.DecodeRuneInString (String c s).
Proof.
  intros Ha. pose proof (byteVal_range a) as Hra.
  unfold utf8.DecodeRuneInString. rewrite append_cons. cbv zeta.
  generalize (byteVal c). intros b0.
  first_cases b0; eval_consts; try reflexivity.
  all: destruct s as [|c1 [|c2 [|c3 s]]];
    rewrite ?append_cons, ?append_nil_l; decode_cases.
Qed.

Lemma Decode_size_le c s :
  (snd (utf8.DecodeRuneInString (String c s))
   <= String.length (String c s))%nat.
Proof.
  unfold utf8.DecodeRuneInString. cbv zeta.
  generalize (byteVal c). intros b0.
  first_cases b0; eval_consts; cbn [snd String.length]; try lia.
  all: destruct s as [|c1 [|c2 [|c3 s]]];
    unfold len; cbn [String.length];
    repeat match goal with
           | |- context [if ?b then _ else _] => destruct b eqn:?
           end; cbn [snd]; try lia.
Qed.

Lemma Decode_ascii a t :
  byteVal a < 128 ->
  utf8.DecodeRuneInString (String a t) = (byteVal a, 1%nat).
Proof.
  intros Ha. unfold utf8.DecodeRuneInString. cbv zeta.
  unfold utf8.first.
  destruct (Z.ltb_spec (byteVal a) 128) as [_|Hge]; [|lia].
  reflexivity.
Qed.

Lemma substring_append n s t :
  (n <= String.length s)%nat -> substring 0 n (s +:+ t) = substring 0 n s.
Proof.
  revert s. induction n as [|n IH]; intros s Hn.
  - destruct s; destruct t; reflexivity.
  - destruct s as [|c s]; [simpl in Hn; lia|].
    rewrite append_cons. cbn [substring]. rewrite IH; [reflexivity|].
    simpl in Hn. lia.
Qed.

Lemma rangeFrom_append_ascii s :
  forall pending a t,
    byteVal a < 128 ->
    (pending <= String.length s)%nat ->
    utf8.rangeFrom (s +:+ String a t) pending
    = utf8.rangeFrom s pending ++ utf8.range (String a t).
Proof.
  induction s as [|c s IH]; intros pending a t Ha Hp.
  - simpl in Hp. assert (pending = 0%nat) as -> by lia. reflexivity.
  - rewrite append_cons. cbn [utf8.rangeFrom].
    destruct pending as [|k].
    + rewrite <- append_cons, (Decode_app_ascii c s a t Ha).
      pose proof (Decode_size_le c s) as Hle.
      pose proof (DecodeRuneInString_size c s) as Hge.
      destruct (utf8.DecodeRuneInString (String c s)) as [r size].
      cbn [snd] in Hle, Hge.
      rewrite (substring_append size (String c s)) by exact Hle.
      rewrite (IH (size - 1)%nat a t Ha) by (simpl in Hle; lia).
      reflexivity.
    + apply IH; [exact Ha | simpl in Hp; lia].
Qed.

(** The rune count adds up over a concatenation whose second part starts
    with a byte below 0x80. *)
Lemma RuneCount_append_ascii s a t :
  byteVal a < 128 ->
  utf8.RuneCountInString (s +:+ String a t)
  = utf8.RuneCountInString s + utf8.RuneCountInString (String a t).
Proof.
  intros Ha. unfold utf8.RuneCountInString, utf8.range.
  rewrite (rangeFrom_append_ascii s 0 a t Ha) by lia.
  apply llen_app.
Qed.

Lemma RuneCount_cons_ascii a t :
  byteVal a < 128 ->
  utf8.RuneCountInString (String a t) = 1 + utf8.RuneCountInString t.
Proof.
  intros Ha. unfold utf8.RuneCountInString, utf8.range.
  cbn [utf8.rangeFrom]. rewrite (Decode_ascii a t Ha).
  unfold llen. cbn [length Nat.sub]. lia.
Qed.

(** ... and over one whose first part ends with such a byte. *)
Lemma RuneCount_append_after_ascii s a t :
  byteVal a < 128 ->
  utf8.RuneCountInString ((s +:+ String a "") +:+ t)
  = utf8.RuneCountInString (s +:+ String a "") + utf8.RuneCountInString t.
Proof.
  intros Ha. rewrite append_assoc, append_cons, append_nil_l.
  rewrite !(RuneCount_append_ascii s a) by exact Ha.
  rewrite !(RuneCount_cons_ascii a) by exact Ha.
  change (utf8.RuneCountInString "") with 0. lia.
Qed.

Lemma RuneCount_spaces n :
  utf8.RuneCountInString (strings.repeatN " " n) = Z.of_nat n.
Proof.
  induction n as [|n IH]; [reflexivity|].
  cbn [strings.repeatN]. rewrite append_cons, append_nil_l.
  rewrite RuneCount_cons_ascii by (vm_compute; reflexivity). lia.
Qed.

Lemma RuneCount_nonneg s : 0 <= utf8.RuneCountInString s.
Proof. apply llen_nonneg. Qed.

Lemma formatCell_runes s width :
  0 <= width <= 1000000 ->
  utf8.RuneCountInString (formatCell s width)
  = Z.max width (utf8.RuneCountInString s).
Proof.
  intros Hw. destruct (formatCell_pad s width Hw) as [Hpad Hlong].
  pose proof (RuneCount_nonneg s) as Hs.
  destruct (Z_le_dec width (utf8.RuneCountInString s)) as [Hle|Hgt].
  - rewrite (Hlong Hle). lia.
  - rewrite Hpad. unfold strings.Repeat.
    destruct (Z.to_nat (width - utf8.RuneCountInString s)) as [|k] eqn:E;
      [lia|].
    cbn [strings.repeatN]. rewrite append_cons, append_nil_l.
    rewrite RuneCount_append_ascii by (vm_compute; reflexivity).
    change (String " " (strings.repeatN " " k))
      with (strings.repeatN " " (S k)).
    rewrite RuneCount_spaces. lia.
Qed.

(** X9: a cell is never cut and is filled with spaces: for a width
    between 0 and a million, formatCell(s, width) is s followed by
    width - runes(s) spaces (none when s is longer), and it is exactly
    max(width, runes(s)) runes long, runes being counted as Go counts
    them. *)
Theorem formatCell_pads_to_width s width :
  0 <= width <= 1000000 ->
  formatCell s width
  = s +:+ strings.repeatN " "
            (Z.to_nat (width - utf8.RuneCountInString s)) /\
  utf8.RuneCountInString (formatCell s width)
  = Z.max width (utf8.RuneCountInString s).
Proof.
  intros Hw. split.
  - apply (formatCell_pad s width Hw).
  - apply formatCell_runes. exact Hw.
Qed.

Lemma formatCell_pads_to_width_witness :
  0 <= 5 <= 1000000 /\
  formatCell hrule 5
  = hrule +:+ strings.repeatN " "
                (Z.to_nat (5 - utf8.RuneCountInString hrule)) /\
  utf8.RuneCountInString (formatCell hrule 5)
  = Z.max 5 (utf8.RuneCountInString hrule).
Proof.
  split; [lia|]. apply (formatCell_pads_to_width hrule 5). lia.
Defined.

(** ** The width of a row *)

Lemma RuneCount_cellText cols row col :
  utf8.RuneCountInString (cellText cols row col)
  = Z.max 25 (utf8.RuneCountInString (lineAt cols col row)) + 2.
Proof.
  unfold cellText.
  change "  " with (String " " (String " " "")).
  rewrite RuneCount_append_ascii by (vm_compute; reflexivity).
  rewrite formatCell_runes by lia. reflexivity.
Qed.

Lemma cellText_ends_with_space cols row col :
  cellText cols row col
  = (formatCell (lineAt cols col row) 25 +:+ " ") +:+ String " " "".
Proof. unfold cellText. rewrite append_assoc. reflexivity. Qed.

Lemma RuneCount_cells cols row tail_ (l : list nat) :
  (forall col, In col l ->
               utf8.RuneCountInString (lineAt cols col row) <= 25) ->
  utf8.RuneCountInString
    (strings.joinBytes (map (cellText cols row) l) +:+ tail_)
  = 27 * llen l + utf8.RuneCountInString tail_.
Proof.
  induction l as [|col l IH]; intros Hfit.
  - cbn [map strings.joinBytes]. rewrite append_nil_l.
    unfold llen; simpl. lia.
  - cbn [map strings.joinBytes]. rewrite append_assoc.
    rewrite cellText_ends_with_space.
    rewrite RuneCount_append_after_ascii by (vm_compute; reflexivity).
    rewrite <- cellText_ends_with_space, RuneCount_cellText.
    rewrite IH by (intros c Hc; apply Hfit; right; exact Hc).
    pose proof (Hfit col (or_introl eq_refl)).
    pose proof (RuneCount_nonneg (lineAt cols col row)).
    unfold llen. cbn [length]. lia.
Qed.

Lemma rowText_runes cols numColumns row :
  0 <= numColumns ->
  (forall col, (col < Z.to_nat numColumns)%nat ->
               utf8.RuneCountInString (lineAt cols col row) <= 25) ->
  utf8.RuneCountInString (rowText cols numColumns row)
  = 27 * numColumns + 1.
Proof.
  intros HN Hfit. unfold rowText.
  rewrite RuneCount_cells.
  - unfold llen. rewrite length_seq.
    change (utf8.RuneCountInString newline) with 1. lia.
  - intros col Hcol. apply in_seq in Hcol. apply Hfit. lia.
Qed.

(** ** The grid of the specification *)

Lemma formatCell_leftJustified s : formatCell s 25 = leftJustified s 25.
Proof.
  destruct (formatCell_pad s 25 ltac:(lia)) as [Hpad _]. exact Hpad.
Qed.

Lemma gridRows_paddedGrid cols columnHeight numColumns :
  gridRows cols columnHeight numColumns
  = paddedGrid cols columnHeight numColumns.
Proof.
  unfold gridRows, paddedGrid. apply map_ext. intros row.
  unfold rowText, paddedRow.
  rewrite (map_ext (cellText cols row) (paddedCell cols row));
    [reflexivity|].
  intros col. unfold cellText, paddedCell.
  rewrite formatCell_leftJustified. reflexivity.
Qed.

(** C8: for columns as the packer leaves them, one per display column,
    the renderer writes exactly columnHeight rows, row after row: in each
    row, for the columns 0 to N-1 in turn, the column's line at that row
    (the empty string below the column's end) followed by the spaces
    that fill it up to 25 characters, and two spaces behind that, then
    a newline.  A cell with its spacing is max(25, runes of the line) + 2
    runes wide, so 27 for every line of up to 25 runes.  Lines of a
    column at index columnHeight and beyond are not written. *)
Theorem render_writes_grid cols columnHeight numColumns out :
  length cols = Z.to_nat numColumns ->
  render cols columnHeight numColumns out
  = Ok (out +:+ strings.joinBytes
                  (paddedGrid cols columnHeight numColumns)) /\
  length (paddedGrid cols columnHeight numColumns) = Z.to_nat columnHeight /\
  (forall row col,
     utf8.RuneCountInString (paddedCell cols row col)
     = Z.max 25 (utf8.RuneCountInString (lineAt cols col row)) + 2) /\
  render (map (take (Z.to_nat columnHeight)) cols) columnHeight numColumns out
  = render cols columnHeight numColumns out.
Proof.
  intros Hlen.
  destruct (render_grid cols columnHeight numColumns out Hlen)
    as [Hrender Hrows].
  rewrite gridRows_paddedGrid in Hrender, Hrows.
  split; [exact Hrender|]. split; [exact Hrows|].
  split.
  - intros row col. rewrite <- RuneCount_cellText.
    unfold cellText, paddedCell. rewrite formatCell_leftJustified.
    reflexivity.
  - rewrite Hrender.
    destruct (render_grid (map (take (Z.to_nat columnHeight)) cols)
                columnHeight numColumns out) as [Hrender' _].
    { rewrite length_map. exact Hlen. }
    rewrite Hrender', gridRows_take, gridRows_paddedGrid. reflexivity.
Qed.

Lemma render_writes_grid_witness :
  render [["a"; "b"; "c"]; ["d"]] 2 2 ""
  = Ok ("" +:+ strings.joinBytes (paddedGrid [["a"; "b"; "c"]; ["d"]] 2 2))
  /\
  length (paddedGrid [["a"; "b"; "c"]; ["d"]] 2 2) = Z.to_nat 2 /\
  (forall row col,
     utf8.RuneCountInString (paddedCell [["a"; "b"; "c"]; ["d"]] row col)
     = Z.max 25 (utf8.RuneCountInString
                   (lineAt [["a"; "b"; "c"]; ["d"]] col row)) + 2) /\
  render (map (take (Z.to_nat 2)) [["a"; "b"; "c"]; ["d"]]) 2 2 ""
  = render [["a"; "b"; "c"]; ["d"]] 2 2 "".
Proof.
  apply (render_writes_grid [["a"; "b"; "c"]; ["d"]] 2 2 ""). reflexivity.
Defined.

(** X10: the rows of the grid are equally wide.  A row in which no line
    is longer than 25 runes is exactly 27 * N runes and a newline long. *)
Theorem render_row_width cols numColumns row :
  0 <= numColumns ->
  (forall col, (col < Z.to_nat numColumns)%nat ->
               utf8.RuneCountInString (lineAt cols col row) <= 25) ->
  utf8.RuneCountInString (rowText cols numColumns row)
  = 27 * numColumns + 1.
Proof. apply rowText_runes. Qed.

Lemma render_row_width_witness :
  0 <= 2 /\
  (forall col, (col < Z.to_nat 2)%nat ->
               utf8.RuneCountInString
                 (lineAt [[hrule; "b"]; ["d"]] col 0) <= 25) /\
  utf8.RuneCountInString (rowText [[hrule; "b"]; ["d"]] 2 0) = 27 * 2 + 1.
Proof.
  assert (Hfit : forall col, (col < Z.to_nat 2)%nat ->
                   utf8.RuneCountInString
                     (lineAt [[hrule; "b"]; ["d"]] col 0) <= 25).
  { intros col Hcol.
    destruct col as [|[|col]]; [vm_compute; discriminate ..|].
    simpl in Hcol. lia. }
  split; [lia|]. split; [exact Hfit|].
  apply (render_row_width [[hrule; "b"]; ["d"]] 2 0); [lia | exact Hfit].
Defined.

(** ** The words of the wrapped lines *)

Lemma appendWords_snoc ws :
  forall line w,
    appendWords line (ws ++ [w]) = appendWords line ws +:+ " " +:+ w.
Proof.
  induction ws as [|x ws IH]; intros line w; [reflexivity|].
  cbn [app appendWords]. apply IH.
Qed.

(** The greedy wrapping cuts the words into consecutive groups, none of
    them empty, and each line is a group joined by single spaces. *)
Lemma greedyFrom_groups lineWidth rest :
  forall w0 g,
    exists groups,
      concat groups = (w0 :: g) ++ rest /\
      Forall (fun grp => grp <> []) groups /\
      greedyFrom rest lineWidth (appendWords w0 g) = map joinWords groups.
Proof.
  induction rest as [|w rest IH]; intros w0 g.
  - exists [w0 :: g]. cbn [concat greedyFrom map joinWords].
    rewrite !app_nil_r. repeat split. repeat constructor. discriminate.
  - cbn [greedyFrom].
    destruct (len (appendWords w0 g) + 1 + len w <=? lineWidth).
    + rewrite <- appendWords_snoc.
      destruct (IH w0 (g ++ [w])) as [groups [Hcat [Hne Hrun]]].
      exists groups. split; [|split; assumption].
      rewrite Hcat. cbn [app]. rewrite <- app_assoc. reflexivity.
    + destruct (IH w []) as [groups [Hcat [Hne Hrun]]].
      exists ((w0 :: g) :: groups). cbn [concat map joinWords].
      split; [rewrite Hcat; reflexivity|].
      split; [constructor; [discriminate | exact Hne]|].
      cbn [appendWords] in Hrun. rewrite Hrun. reflexivity.
Qed.

(** X11: wordWrap loses no word and adds none: its lines are the words
    of the text, in order, cut into consecutive groups, each line being
    the words of its group joined by single spaces.  No group is empty,
    except that the first line is the empty group when the first word has
    lineWidth bytes or more; a text without words gives no line. *)
Theorem wordWrap_keeps_the_words text lineWidth :
  exists groups,
    concat groups = strings.Fields (strings.TrimSpace text) /\
    wordWrap text lineWidth = map joinWords groups /\
    Forall (fun grp => grp <> []) (tail groups) /\
    (strings.Fields (strings.TrimSpace text) = [] -> groups = []).
Proof.
  rewrite wordWrap_greedy.
  destruct (strings.Fields (strings.TrimSpace text)) as [|w0 rest].
  - exists []. repeat split. constructor.
  - destruct (greedyFrom_groups lineWidth rest w0 [])
      as [groups [Hcat [Hne Hrun]]].
    cbn [appendWords app] in Hrun, Hcat. cbn [greedyWrap].
    destruct (len w0 + 1 >? lineWidth).
    + exists ([] :: groups). cbn [concat map joinWords tail app].
      split; [exact Hcat|]. split; [rewrite Hrun; reflexivity|].
      split; [exact Hne | discriminate].
    + exists groups. split; [exact Hcat|]. split; [exact Hrun|].
      split; [|discriminate].
      destruct groups as [|grp groups]; [constructor|].
      inversion Hne; assumption.
Qed.

(** ** center *)

(** X12: center leaves a string of width bytes or more as it is; a
    shorter one gets spaces on both sides up to exactly width bytes, the
    left padding being half the missing width rounded down and the right
    padding the same or one more. *)
Theorem center_pads_both_sides s width :
  (width <= len s -> center s width = s) /\
  (len s < width ->
   exists p q : nat,
     center s width
     = strings.repeatN " " p +:+ s +:+ strings.repeatN " " q /\
     Z.of_nat p = (width - len s) / 2 /\
     (p <= q <= p + 1)%nat /\
     Z.of_nat p + len s + Z.of_nat q = width) /\
  len (center s width) = Z.max (len s) width.
Proof.
  split; [|split].
  - intros Hw. unfold center.
    rewrite (proj2 (Z.geb_le _ _) Hw). reflexivity.
  - intros Hw. unfold center.
    destruct (len s >=? width) eqn:E; [apply Z.geb_le in E; lia|].
    destruct (center_paddings s width Hw) as [H1 [H2 H3]].
    exists (Z.to_nat (Z.quot (width - len s) 2)),
           (Z.to_nat (width - len s - Z.quot (width - len s) 2)).
    split; [reflexivity|].
    rewrite <- Z.quot_div_nonneg by lia. lia.
  - apply center_len.
Qed.

(** ** The number of display columns *)

(** X13: for a terminal of at least one full column width (27), the
    number of display columns is the largest N >= 1 with 27 * N within
    the terminal width: the grid is as wide as the terminal allows and
    not wider. *)
Theorem numDisplayColumns_fits terminalWidth :
  27 <= terminalWidth ->
  1 <= numDisplayColumns terminalWidth /\
  27 * numDisplayColumns terminalWidth <= terminalWidth
  < 27 * (numDisplayColumns terminalWidth + 1).
Proof.
  intros Hw.
  destruct (numDisplayColumns_nonneg terminalWidth ltac:(lia)) as [HN _].
  rewrite HN.
  pose proof (Z.div_mod terminalWidth 27 ltac:(lia)) as Hdm.
  pose proof (Z.mod_pos_bound terminalWidth 27 ltac:(lia)) as Hm.
  assert (1 <= terminalWidth / 27) by (apply Z.div_le_lower_bound; lia).
  lia.
Qed.

Lemma numDisplayColumns_fits_witness :
  27 <= 80 /\
  1 <= numDisplayColumns 80 /\
  27 * numDisplayColumns 80 <= 80 < 27 * (numDisplayColumns 80 + 1).
Proof.
  split; [lia|]. apply (numDisplayColumns_fits 80). lia.
Defined.

(** X14: the number of display columns is never 0, so the division that
    computes columnHeight never has a zero divisor; it is 1 exactly for
    the widths between -26 and 53, and negative exactly for the widths
    of -27 and less. *)
Theorem numDisplayColumns_never_zero terminalWidth :
  numDisplayColumns terminalWidth <> 0 /\
  (numDisplayColumns terminalWidth = 1 <-> -27 < terminalWidth < 54) /\
  (numDisplayColumns terminalWidth < 0 <-> terminalWidth <= -27).
Proof.
  destruct (numDisplayColumns_cases terminalWidth) as [Hpos Hneg].
  destruct (Z_le_dec terminalWidth (-27)) as [Hw|Hw].
  - specialize (Hneg Hw). lia.
  - specialize (Hpos ltac:(lia)).
    split; [lia|]. split; [|lia].
    destruct (Z_lt_dec terminalWidth 27) as [Hsmall|Hbig].
    + assert (numDisplayColumns terminalWidth = 1).
      { unfold numDisplayColumns. change fullColumnWidth with 27.
        destruct (Z_le_dec 0 terminalWidth) as [H0|H0].
        - rewrite Z.quot_small by lia. reflexivity.
        - pose proof (Z.quot_rem' terminalWidth 27) as Hqr.
          pose proof (Z.rem_bound_abs terminalWidth 27 ltac:(lia)).
          pose proof (Z.rem_nonpos terminalWidth 27 ltac:(lia) ltac:(lia)).
          assert (Z.quot terminalWidth 27 = 0) as -> by lia.
          reflexivity. }
      lia.
    + pose proof (numDisplayColumns_nonneg terminalWidth ltac:(lia))
        as [HN _].
      pose proof (Z.div_mod terminalWidth 27 ltac:(lia)) as Hdm.
      pose proof (Z.mod_pos_bound terminalWidth 27 ltac:(lia)) as Hm.
      rewrite HN. lia.
Qed.

(** ** Reading the terminal width *)

Lemma isPlain_ascii c : isPlain c = true -> byteVal c < 128.
Proof.
  unfold isPlain. intros H. apply andb_true_iff in H.
  destruct H as [H _]. apply Z.ltb_lt in H. exact H.
Qed.

Lemma isPlain_not_space c :
  isPlain c = true -> unicode.IsSpace (byteVal c) = false.
Proof.
  unfold isPlain. intros H. apply andb_true_iff in H.
  destruct H as [_ H]. apply negb_true_iff in H. exact H.
Qed.

Lemma isPlain_not_blank c : isPlain c = true -> c <> " "%char.
Proof. intros H ->. vm_compute in H. discriminate H. Qed.

Lemma isDigit_isPlain c : isDigit c = true -> isPlain c = true.
Proof.
  destruct c as [[] [] [] [] [] [] [] []]; vm_compute; congruence.
Qed.

Lemma allChars_impl (P Q : ascii -> bool) s :
  (forall c, P c = true -> Q c = true) ->
  allChars P s = true -> allChars Q s = true.
Proof.
  intros HPQ. induction s as [|c t IH]; [reflexivity|].
  cbn [allChars]. intros H. apply andb_true_iff in H. destruct H as [Hc Ht].
  apply andb_true_iff. split; [apply HPQ; exact Hc | apply IH; exact Ht].
Qed.

Lemma allChars_append P s t :
  allChars P (s +:+ t) = allChars P s && allChars P t.
Proof.
  induction s as [|c s IH]; [reflexivity|].
  rewrite append_cons. cbn [allChars]. rewrite IH, andb_assoc. reflexivity.
Qed.

(** *** Decimal digits *)

Lemma string_of_uint_digits d :
  allChars isDigit (DecimalString.NilEmpty.string_of_uint d) = true.
Proof. induction d; simpl; auto. Qed.

Lemma string_of_uint_nonempty d :
  d <> Decimal.Nil -> DecimalString.NilEmpty.string_of_uint d <> "".
Proof. destruct d; [contradiction | discriminate ..]. Qed.

Lemma to_uint_nonnil n : N.to_uint n <> Decimal.Nil.
Proof.
  destruct n as [|p]; [discriminate|].
  apply DecimalPos.Unsigned.to_uint_nonnil.
Qed.

Lemma parseDigits_string_of_uint d :
  forall acc,
    strconv.parseDigits (DecimalString.NilEmpty.string_of_uint d) acc
    = Some (acc * 10 ^ Z.of_N (DecimalPos.Unsigned.usize d)
            + Z.of_N (DecimalPos.Unsigned.of_lu (Decimal.rev d))).
Proof.
  induction d; intros acc;
    [simpl; rewrite Z.pow_0_r; f_equal; lia | ..];
    cbn [DecimalString.NilEmpty.string_of_uint strconv.parseDigits];
    match goal with
    | |- context [strconv.digitVal ?c] =>
      let v := eval vm_compute in (strconv.digitVal c) in
      change (strconv.digitVal c) with v
    end;
    cbv iota; unfold Decimal.rev; cbn [Decimal.revapp];
    match goal with
    | |- context [Decimal.revapp d ?d'] =>
      rewrite (DecimalPos.Unsigned.of_lu_revapp d d')
    end;
    rewrite IHd; f_equal;
    cbn [DecimalPos.Unsigned.usize DecimalPos.Unsigned.of_lu];
    rewrite N2Z.inj_succ, Z.pow_succ_r by lia;
    rewrite N2Z.inj_add, N2Z.inj_mul, N2Z.inj_pow;
    change (Z.of_N 10) with 10;
    generalize (10 ^ Z.of_N (DecimalPos.Unsigned.usize d));
    generalize (Z.of_N (DecimalPos.Unsigned.of_lu (Decimal.rev d)));
    intros; simpl Z.of_N; lia.
Qed.

Lemma parseDigits_to_uint n :
  strconv.parseDigits (decimalN n) 0 = Some (Z.of_N n).
Proof.
  unfold decimalN. rewrite parseDigits_string_of_uint.
  rewrite <- DecimalPos.Unsigned.of_uint_alt.
  change (Pos.of_uint (N.to_uint n)) with (N.of_uint (N.to_uint n)).
  rewrite DecimalN.Unsigned.of_to. f_equal; lia.
Qed.

Lemma Atoi_digits s v :
  s <> "" ->
  allChars isDigit s = true ->
  strconv.parseDigits s 0 = Some v ->
  strconv.minInt <= v <= strconv.maxInt ->
  strconv.Atoi s = Some v.
Proof.
  intros Hne Hdig Hparse Hrange. destruct s as [|c t]; [contradiction|].
  unfold strconv.Atoi.
  assert (Hc : isDigit c = true).
  { cbn [allChars] in Hdig. apply andb_true_iff in Hdig. tauto. }
  assert (Hsign : Ascii.eqb c "-" || Ascii.eqb c "+" = false).
  { revert Hc. clear.
    destruct c as [[] [] [] [] [] [] [] []]; vm_compute; congruence. }
  apply orb_false_iff in Hsign. destruct Hsign as [Hminus Hplus].
  rewrite Hminus, Hplus. cbn [orb]. rewrite Hparse.
  destruct ((strconv.minInt <=? v) && (v <=? strconv.maxInt)) eqn:E;
    [reflexivity|].
  apply andb_false_iff in E. destruct E as [E|E]; lia.
Qed.

Lemma Atoi_minus s n :
  s <> "" ->
  strconv.parseDigits s 0 = Some n ->
  strconv.minInt <= - n <= strconv.maxInt ->
  strconv.Atoi (String "-" s) = Some (- n).
Proof.
  intros Hne Hparse Hrange. unfold strconv.Atoi.
  change (Ascii.eqb "-" "-") with true. cbn [orb].
  destruct s as [|c t]; [contradiction|]. rewrite Hparse.
  destruct ((strconv.minInt <=? - n) && (- n <=? strconv.maxInt)) eqn:E;
    [reflexivity|].
  apply andb_false_iff in E. destruct E as [E|E]; lia.
Qed.

Lemma decimalN_nonempty n : decimalN n <> "".
Proof. apply string_of_uint_nonempty, to_uint_nonnil. Qed.

Lemma decimalN_digits n : allChars isDigit (decimalN n) = true.
Proof. apply string_of_uint_digits. Qed.

(** [strconv.Atoi] reads back the decimal digits of every 64-bit
    integer. *)
Lemma Atoi_decimalZ z :
  strconv.minInt <= z <= strconv.maxInt ->
  strconv.Atoi (decimalZ z) = Some z.
Proof.
  intros Hrange. destruct z as [|p|p].
  - reflexivity.
  - change (decimalZ (Z.pos p)) with (decimalN (N.pos p)).
    apply Atoi_digits;
      [apply decimalN_nonempty | apply decimalN_digits | | exact Hrange].
    apply (parseDigits_to_uint (N.pos p)).
  - change (decimalZ (Z.neg p)) with (String "-" (decimalN (N.pos p))).
    change (Z.neg p) with (- Z.pos p) in *.
    apply Atoi_minus; [apply decimalN_nonempty | | exact Hrange].
    apply (parseDigits_to_uint (N.pos p)).
Qed.

Lemma decimalZ_plain z : allChars isPlain (decimalZ z) = true.
Proof.
  destruct z as [|p|p].
  - reflexivity.
  - apply (allChars_impl isDigit); [apply isDigit_isPlain|].
    apply (decimalN_digits (N.pos p)).
  - change (decimalZ (Z.neg p)) with (String "-" (decimalN (N.pos p))).
    cbn [allChars]. apply andb_true_iff. split; [reflexivity|].
    apply (allChars_impl isDigit); [apply isDigit_isPlain|].
    apply (decimalN_digits (N.pos p)).
Qed.

Lemma decimalZ_nonempty z : decimalZ z <> "".
Proof.
  destruct z as [|p|p]; [discriminate | | discriminate].
  apply (decimalN_nonempty (N.pos p)).
Qed.

(** *** Splitting and trimming a line of plain fields *)

Lemma splitFrom_plain a :
  forall cur rest,
    allChars isPlain a = true ->
    strings.splitFrom (a +:+ rest) " " 0 cur
    = strings.splitFrom rest " " 0 (cur +:+ a).
Proof.
  induction a as [|c a IH]; intros cur rest Hplain.
  - rewrite append_nil_l, append_nil_r. reflexivity.
  - cbn [allChars] in Hplain. apply andb_true_iff in Hplain.
    destruct Hplain as [Hc Ha].
    rewrite append_cons. cbn [strings.splitFrom String.prefix].
    destruct (ascii_dec " " c) as [E|E].
    + exfalso. apply (isPlain_not_blank c Hc). symmetry. exact E.
    + rewrite IH by exact Ha. rewrite append_assoc. reflexivity.
Qed.

Lemma Split_two_fields a b :
  allChars isPlain a = true ->
  allChars isPlain b = true ->
  strings.Split (a +:+ " " +:+ b) " " = [a; b].
Proof.
  intros Ha Hb. unfold strings.Split. change (String.eqb " " "") with false.
  cbv iota. rewrite splitFrom_plain by exact Ha.
  rewrite append_nil_l. rewrite append_cons, append_nil_l.
  cbn [strings.splitFrom String.prefix String.length Nat.sub].
  assert (Hp : String.prefix "" b = true) by (destruct b; reflexivity).
  rewrite Hp. f_equal.
  rewrite <- (append_nil_r b) at 1.
  rewrite splitFrom_plain by exact Hb. reflexivity.
Qed.

Lemma list_ascii_append s t :
  list_ascii_of_string (s +:+ t)
  = list_ascii_of_string s ++ list_ascii_of_string t.
Proof.
  induction s as [|c s IH]; [reflexivity|].
  rewrite append_cons. cbn [list_ascii_of_string app]. rewrite IH.
  reflexivity.
Qed.

Lemma allChars_Forall P s :
  allChars P s = true ->
  Forall (fun c => P c = true) (list_ascii_of_string s).
Proof.
  induction s as [|c s IH]; intros H; [constructor|].
  cbn [allChars] in H. apply andb_true_iff in H. destruct H as [Hc Hs].
  cbn [list_ascii_of_string]. constructor; [exact Hc | apply IH; exact Hs].
Qed.

(** The runes of a string of bytes below 0x80 are its bytes. *)
Lemma range_ascii s :
  Forall (fun c => byteVal c < 128) (list_ascii_of_string s) ->
  utf8.range s = map chunk (list_ascii_of_string s).
Proof.
  unfold utf8.range. induction s as [|c s IH]; intros H; [reflexivity|].
  cbn [list_ascii_of_string] in H. inversion H as [|? ? Hc Hs]; subst.
  cbn [utf8.rangeFrom list_ascii_of_string map].
  rewrite (Decode_ascii c s Hc). cbn [Nat.sub]. rewrite IH by exact Hs.
  destruct s; reflexivity.
Qed.

Lemma joinBytes_chunks l :
  strings.joinBytes (map snd (map chunk l)) = string_of_list_ascii l.
Proof.
  induction l as [|c l IH]; [reflexivity|].
  cbn [map strings.joinBytes chunk snd string_of_list_ascii].
  rewrite IH. reflexivity.
Qed.

Lemma isSpaceRune_plain c :
  isPlain c = true -> strings.isSpaceRune (chunk c) = false.
Proof. apply isPlain_not_space. Qed.

(** [strings.TrimSpace] takes the newline off a line that starts and
    ends with a plain byte, and nothing else. *)
Lemma TrimSpace_newline s c0 middle cl :
  list_ascii_of_string s = c0 :: middle ++ [cl] ->
  Forall (fun c => byteVal c < 128) (list_ascii_of_string s) ->
  isPlain c0 = true ->
  isPlain cl = true ->
  strings.TrimSpace (s +:+ newline) = s.
Proof.
  intros Hs Hascii H0 Hl. unfold strings.TrimSpace.
  rewrite range_ascii.
  2:{ rewrite list_ascii_append. apply Forall_app. split; [exact Hascii|].
      repeat constructor. }
  rewrite list_ascii_append, Hs.
  change (list_ascii_of_string newline) with [ascii_of_nat 10].
  replace ((c0 :: middle ++ [cl]) ++ [ascii_of_nat 10])
    with ((c0 :: middle) ++ [cl; ascii_of_nat 10])
    by (cbn [app]; rewrite <- app_assoc; reflexivity).
  rewrite map_app.
  change (map chunk (c0 :: middle)) with (chunk c0 :: map chunk middle).
  cbn [app strings.dropWhile]. rewrite (isSpaceRune_plain c0 H0).
  set (front := map chunk middle).
  change (chunk c0 :: front ++ map chunk [cl; ascii_of_nat 10])
    with ((chunk c0 :: front) ++ [chunk cl; chunk (ascii_of_nat 10)]).
  set (kept := chunk c0 :: front).
  rewrite rev_app_distr.
  change (rev [chunk cl; chunk (ascii_of_nat 10)] ++ rev kept)
    with (chunk (ascii_of_nat 10) :: chunk cl :: rev kept).
  cbn [strings.dropWhile].
  change (strings.isSpaceRune (chunk (ascii_of_nat 10))) with true.
  cbv iota. rewrite (isSpaceRune_plain cl Hl).
  change (rev (chunk cl :: rev kept)) with (rev (rev kept) ++ [chunk cl]).
  rewrite rev_involutive. subst kept front.
  change (chunk c0 :: map chunk middle) with (map chunk (c0 :: middle)).
  change [chunk cl] with (map chunk [cl]). rewrite <- map_app.
  rewrite joinBytes_chunks.
  change ((c0 :: middle) ++ [cl]) with (c0 :: middle ++ [cl]).
  rewrite <- Hs. apply string_of_list_ascii_of_string.
Qed.

Lemma TrimSpace_two_fields a b :
  a <> "" -> b <> "" ->
  allChars isPlain a = true ->
  allChars isPlain b = true ->
  strings.TrimSpace ((a +:+ " " +:+ b) +:+ newline) = a +:+ " " +:+ b.
Proof.
  intros Hane Hbne Ha Hb.
  destruct a as [|c0 a']; [contradiction|].
  assert (Hlast : exists b' cl, list_ascii_of_string b = b' ++ [cl]).
  { destruct b as [|c b0]; [contradiction|].
    cbn [list_ascii_of_string].
    destruct (exists_last (l := c :: list_ascii_of_string b0))
      as [b' [cl E]]; [discriminate|].
    exists b', cl. exact E. }
  destruct Hlast as [b' [cl Hb']].
  pose proof (allChars_Forall isPlain _ Ha) as HFa.
  pose proof (allChars_Forall isPlain _ Hb) as HFb.
  cbn [list_ascii_of_string] in HFa. inversion HFa as [|? ? Hc0 HFa']; subst.
  rewrite Hb' in HFb. apply Forall_app in HFb. destruct HFb as [HFb' HFcl].
  inversion HFcl as [|? ? Hcl _]; subst.
  apply (TrimSpace_newline _ c0
           (list_ascii_of_string a' ++ " "%char :: b') cl).
  - rewrite append_cons. cbn [list_ascii_of_string].
    rewrite !list_ascii_append, Hb'.
    cbn [list_ascii_of_string app]. rewrite <- app_assoc. reflexivity.
  - rewrite append_cons. cbn [list_ascii_of_string].
    rewrite !list_ascii_append, Hb'.
    constructor; [apply isPlain_ascii; exact Hc0|].
    apply Forall_app. split.
    + eapply Forall_impl; [exact HFa'|]. intros c. apply isPlain_ascii.
    + cbn [list_ascii_of_string app].
      constructor; [vm_compute; reflexivity|].
      apply Forall_app. split.
      * eapply Forall_impl; [exact HFb'|]. intros c. apply isPlain_ascii.
      * constructor; [apply isPlain_ascii; exact Hcl | constructor].
  - exact Hc0.
  - exact Hcl.
Qed.

(** X15: getTerminalWidth reads the column count off the output of
    [stty size].  For a line of the row count, one space, the column
    count and a newline, the numbers in decimal digits, it returns the
    column count, whatever 64-bit integer that is, negative ones
    included; the row count is not looked at. *)
Theorem getTerminalWidth_reads_stty_size (rows : N) (cols : Z) :
  strconv.minInt <= cols <= strconv.maxInt ->
  getTerminalWidth
    (Some ((decimalN rows +:+ " " +:+ decimalZ cols) +:+ newline))
  = cols.
Proof.
  intros Hrange. unfold getTerminalWidth.
  assert (Hrows : allChars isPlain (decimalN rows) = true).
  { apply (allChars_impl isDigit); [apply isDigit_isPlain|].
    apply decimalN_digits. }
  rewrite TrimSpace_two_fields;
    [| apply decimalN_nonempty | apply decimalZ_nonempty | exact Hrows
     | apply decimalZ_plain].
  rewrite Split_two_fields by (exact Hrows || apply decimalZ_plain).
  change (llen [decimalN rows; decimalZ cols] =? 2) with true. cbv iota.
  change ([decimalN rows; decimalZ cols] !! 1%nat)
    with (Some (decimalZ cols)).
  cbv iota. rewrite (Atoi_decimalZ cols Hrange). reflexivity.
Qed.

Lemma getTerminalWidth_reads_stty_size_witness :
  strconv.minInt <= 132 <= strconv.maxInt /\
  getTerminalWidth
    (Some ((decimalN 43 +:+ " " +:+ decimalZ 132) +:+ newline))
  = 132.
Proof.
  split; [vm_compute; split; discriminate|].
  apply (getTerminalWidth_reads_stty_size 43 132).
  vm_compute; split; discriminate.
Defined.

(** ** The width the query yields *)

Lemma getTerminalWidth_unsigned (rows cols : N) :
  Z.of_N cols <= strconv.maxInt ->
  getTerminalWidth
    (Some ((decimalN rows +:+ " " +:+ decimalN cols) +:+ newline))
  = Z.of_N cols.
Proof.
  intros Hrange. unfold getTerminalWidth.
  assert (Hplain : forall n, allChars isPlain (decimalN n) = true).
  { intros n. apply (allChars_impl isDigit); [apply isDigit_isPlain|].
    apply decimalN_digits. }
  rewrite TrimSpace_two_fields;
    [| apply decimalN_nonempty | apply decimalN_nonempty | apply Hplain
     | apply Hplain].
  rewrite Split_two_fields by apply Hplain.
  change (llen [decimalN rows; decimalN cols] =? 2) with true. cbv iota.
  change ([decimalN rows; decimalN cols] !! 1%nat)
    with (Some (decimalN cols)).
  cbv iota.
  rewrite (Atoi_digits (decimalN cols) (Z.of_N cols));
    [reflexivity | apply decimalN_nonempty | apply decimalN_digits
     | apply parseDigits_to_uint |].
  split; [|exact Hrange].
  pose proof (N2Z.is_nonneg cols). unfold strconv.minInt. lia.
Qed.

Lemma sttySize_width stty :
  sttySize stty -> 0 <= getTerminalWidth stty <= maxTerminalWidth.
Proof.
  intros [-> | [rows [cols [_ [Hcols ->]]]]].
  - vm_compute. split; discriminate.
  - rewrite getTerminalWidth_unsigned.
    + split; [apply N2Z.is_nonneg | exact Hcols].
    + unfold maxTerminalWidth in Hcols. unfold strconv.maxInt. lia.
Qed.

(** C5: for every terminal width the width query yields, which is the
    column count [stty size] printed, an unsigned 16-bit number, or 80
    when the command failed, the number of display columns is the width
    divided by 27 = 25 + 2 and floored, with a minimum of 1 (so 2 for
    the width 80), and the allocation of that many columns, 2427 at
    most, succeeds. *)
Theorem query_width_gives_columns stty :
  sttySize stty ->
  let width := getTerminalWidth stty in
  let N := numDisplayColumns width in
  0 <= width <= maxTerminalWidth /\
  N = Z.max 1 (width / (25 + 2)) /\
  1 <= N <= 2427 /\
  make_columns N = Ok (replicate (Z.to_nat N) []) /\
  numDisplayColumns 80 = 2.
Proof.
  intros Hstty width N.
  pose proof (sttySize_width stty Hstty) as Hw. fold width in Hw.
  destruct (numDisplayColumns_nonneg width ltac:(lia)) as [HN Hmake].
  fold N in HN, Hmake. change (25 + 2) with 27.
  split; [exact Hw|]. split; [exact HN|].
  split; [|split; [exact Hmake | reflexivity]].
  assert (Hq : 0 <= width / 27 < 2428).
  { split; [apply Z.div_pos; lia|].
    apply Z.div_lt_upper_bound; [lia|].
    unfold maxTerminalWidth in Hw. lia. }
  lia.
Qed.

Lemma query_width_gives_columns_witness :
  sttySize (Some ((decimalN 24 +:+ " " +:+ decimalN 80) +:+ newline)) /\
  let width :=
    getTerminalWidth
      (Some ((decimalN 24 +:+ " " +:+ decimalN 80) +:+ newline)) in
  let N := numDisplayColumns width in
  0 <= width <= maxTerminalWidth /\
  N = Z.max 1 (width / (25 + 2)) /\
  1 <= N <= 2427 /\
  make_columns N = Ok (replicate (Z.to_nat N) []) /\
  numDisplayColumns 80 = 2.
Proof.
  assert (Hstty :
            sttySize
              (Some ((decimalN 24 +:+ " " +:+ decimalN 80) +:+ newline))).
  { right. exists 24%N, 80%N.
    split; [vm_compute; discriminate|].
    split; [vm_compute; discriminate | reflexivity]. }
  split; [exact Hstty|].
  apply (query_width_gives_columns
           (Some ((decimalN 24 +:+ " " +:+ decimalN 80) +:+ newline))).
  exact Hstty.
Defined.

(** ** The rewritten keys *)

Lemma containsb_cons old c t :
  containsb old (String c t) = String.prefix old (String c t) || containsb old t.
Proof. reflexivity. Qed.

Lemma occursIn_containsb old s : occursIn old s <-> containsb old s = true.
Proof.
  split.
  - intros [a [b ->]]. induction a as [|c a IH].
    + rewrite append_nil_l.
      destruct (old +:+ b) eqn:E; cbn [containsb];
        rewrite <- E, prefix_append; reflexivity.
    + rewrite append_cons, containsb_cons, IH. apply orb_true_r.
  - induction s as [|c t IH]; intros H.
    + cbn [containsb] in H. rewrite orb_false_r in H.
      destruct (prefix_split _ _ H) as [t' E].
      exists "", t'. exact E.
    + rewrite containsb_cons in H. apply orb_true_iff in H.
      destruct H as [H|H].
      * destruct (prefix_split _ _ H) as [t' E].
        exists "", t'. exact E.
      * destruct (IH H) as [a [b ->]].
        exists (String c a), b. reflexivity.
Qed.

Lemma replaceFrom_without old new s :
  containsb old s = false -> strings.replaceFrom s old new 0 = s.
Proof.
  induction s as [|c t IH]; intros H; [reflexivity|].
  rewrite containsb_cons in H. apply orb_false_iff in H.
  destruct H as [Hp Ht].
  cbn [strings.replaceFrom]. rewrite Hp, IH by exact Ht. reflexivity.
Qed.

(** A pattern without the byte c that starts the rewritten text starts
    the original text too. *)
Lemma prefix_of_replaced p :
  forall t,
    allChars (fun x => negb (Ascii.eqb x "c")) p = true ->
    String.prefix p (strings.replaceFrom t "Prefix" "ctrl+b" 0) = true ->
    String.prefix p t = true.
Proof.
  induction p as [|x p IH]; intros t Hp H.
  - destruct t; reflexivity.
  - cbn [allChars] in Hp. apply andb_true_iff in Hp. destruct Hp as [Hx Hp].
    destruct t as [|d t]; [discriminate H|].
    cbn [strings.replaceFrom] in H.
    destruct (String.prefix "Prefix" (String d t)) eqn:Hm.
    + exfalso. change ("ctrl+b" +:+ ?r) with (String "c" ("trl+b" +:+ r)) in H.
      cbn [String.prefix] in H.
      destruct (ascii_dec x "c") as [->|]; [|discriminate H].
      discriminate Hx.
    + cbn [String.prefix] in *.
      destruct (ascii_dec x d); [|discriminate H].
      apply IH; assumption.
Qed.

Lemma containsb_ctrl_b r :
  containsb "Prefix" r = false -> containsb "Prefix" ("ctrl+b" +:+ r) = false.
Proof.
  intros H.
  change ("ctrl+b" +:+ r)
    with (String "c" (String "t" (String "r" (String "l"
            (String "+" (String "b" r)))))).
  rewrite !containsb_cons, H.
  repeat match goal with
         | |- context [String.prefix "Prefix" (String ?c ?t)] =>
           replace (String.prefix "Prefix" (String c t)) with false
             by (cbn [String.prefix];
                 destruct (ascii_dec "P" c); [discriminate | reflexivity])
         end.
  reflexivity.
Qed.

Lemma replaceFrom_prefix_free n :
  forall s,
    (String.length s <= n)%nat ->
    containsb "Prefix" (strings.replaceFrom s "Prefix" "ctrl+b" 0) = false.
Proof.
  induction n as [|n IH]; intros s Hlen.
  - destruct s; [reflexivity | simpl in Hlen; lia].
  - destruct s as [|c t]; [reflexivity|].
    destruct (String.prefix "Prefix" (String c t)) eqn:Hm.
    + destruct (prefix_split _ _ Hm) as [s' Hs']. rewrite Hs'.
      rewrite (replaceFrom_match "Prefix" "ctrl+b" ltac:(discriminate)).
      apply containsb_ctrl_b. apply IH.
      apply (f_equal String.length) in Hs'.
      rewrite length_append in Hs'. simpl in Hs', Hlen. lia.
    + cbn [strings.replaceFrom]. rewrite Hm.
      rewrite containsb_cons, IH by (simpl in Hlen; lia).
      rewrite orb_false_r.
      destruct (String.prefix "Prefix"
                  (String c (strings.replaceFrom t "Prefix" "ctrl+b" 0)))
        eqn:Hr; [|reflexivity].
      exfalso. cbn [String.prefix] in Hr, Hm.
      destruct (ascii_dec "P" c); [|discriminate Hr].
      rewrite (prefix_of_replaced "refix" t eq_refl Hr) in Hm.
      discriminate Hm.
Qed.

(** X16: after the loop of [main], no key holds Prefix any more,
    whatever the data set, and rewriting a shortcut a second time
    changes nothing. *)
Theorem withPrefixKey_removes_prefix s :
  ~ occursIn "Prefix" (Key (withPrefixKey s)) /\
  withPrefixKey (withPrefixKey s) = withPrefixKey s.
Proof.
  assert (Hfree : containsb "Prefix" (Key (withPrefixKey s)) = false).
  { apply (replaceFrom_prefix_free (String.length (Key s))). lia. }
  split.
  - intros Hocc. apply occursIn_containsb in Hocc. congruence.
  - unfold withPrefixKey at 1. cbn [Description Category].
    change (strings.ReplaceAll (Key (withPrefixKey s)) "Prefix" "ctrl+b")
      with (strings.replaceFrom (Key (withPrefixKey s)) "Prefix" "ctrl+b" 0).
    rewrite replaceFrom_without by exact Hfree.
    destruct s; reflexivity.
Qed.

(** ** The width of the generated lines *)

Lemma length_rangeFrom s :
  forall pending,
    (length (utf8.rangeFrom s pending) <= String.length s)%nat.
Proof.
  induction s as [|c s IH]; intros pending; [simpl; lia|].
  cbn [utf8.rangeFrom String.length]. destruct pending as [|k].
  - destruct (utf8.DecodeRuneInString (String c s)) as [r size].
    cbn [length]. specialize (IH (size - 1)%nat). lia.
  - specialize (IH k). lia.
Qed.

Lemma RuneCount_le_len s : utf8.RuneCountInString s <= len s.
Proof.
  unfold utf8.RuneCountInString, utf8.range, llen, len.
  pose proof (length_rangeFrom s 0). lia.
Qed.

Lemma fullOrEmptyb_spec line :
  fullOrEmptyb line = true -> fullOrEmpty line.
Proof.
  unfold fullOrEmptyb, fullOrEmpty. intros H.
  apply orb_true_iff in H. destruct H as [H|H].
  - left. apply String.eqb_eq. exact H.
  - right. apply Z.eqb_eq. exact H.
Qed.

Lemma blockShapeb_spec b : blockShapeb b = true -> blockShape b.
Proof.
  unfold blockShapeb, blockShape. intros H.
  apply andb_true_iff in H. destruct H as [Hlines Hrule]. split.
  - rewrite forallb_forall in Hlines.
    apply Forall_forall. intros line Hline. apply list_elem_of_In in Hline.
    specialize (Hlines line Hline).
    apply orb_true_iff in Hlines. destruct Hlines as [H|H].
    + left. apply fullOrEmptyb_spec. exact H.
    + right. apply andb_true_iff in H. destruct H as [Hh He].
      split; [exact Hh|]. apply String.eqb_eq. exact He.
  - intros Hh. rewrite Hh in Hrule. cbn [negb orb] in Hrule.
    apply existsb_exists in Hrule. destruct Hrule as [line [Hin He]].
    apply String.eqb_eq in He. subst line. exact Hin.
Qed.

Lemma hrule_bytes :
  map byteVal (list_ascii_of_string hrule)
  = [195; 162; 226; 128; 157; 226; 130; 172] /\
  map fst (utf8.range hrule) = [226; 8221; 8364].
Proof. split; vm_compute; reflexivity. Qed.

Lemma ruleLine_runes :
  utf8.RuneCountInString ruleLine = 75 /\ len ruleLine = 200.
Proof. split; vm_compute; reflexivity. Qed.

Lemma headerBlock_shape : Forall blockShape (fst (buildBlocks [])).
Proof.
  assert (H : forallb blockShapeb (fst (buildBlocks [])) = true)
    by (vm_compute; reflexivity).
  rewrite forallb_forall in H.
  apply Forall_forall. intros b Hb. apply list_elem_of_In in Hb.
  apply blockShapeb_spec, H. exact Hb.
Qed.

Lemma wordWrap_fits text :
  Forall (fun w => len w <= 23) (strings.Fields (strings.TrimSpace text)) ->
  Forall (fun line => len line <= 23) (wordWrap text 23).
Proof.
  intros Hwords. unfold wordWrap.
  destruct (llen (strings.Fields (strings.TrimSpace text)) =? 0);
    [constructor|].
  assert (Hfit : Forall (lineFits 23
                           (strings.Fields (strings.TrimSpace text)))
                        (wrapLoop (strings.Fields (strings.TrimSpace text))
                                  23 [] "")).
  { apply wrapLoop_lineFits;
      [auto | constructor | left; change (len "") with 0; lia | lia]. }
  eapply Forall_impl; [exact Hfit|].
  intros line [Hle | [Hin Hlong]]; [exact Hle|].
  rewrite Forall_forall in Hwords.
  apply list_elem_of_In in Hin. specialize (Hwords line Hin). lia.
Qed.

Lemma shortcutBlock_fullOrEmpty s :
  fitsCell s -> Forall fullOrEmpty (lines (mkBlock (shortcutBlock s) false 0)).
Proof.
  intros [Hkey Hwords]. cbn [lines]. unfold shortcutBlock.
  apply Forall_app. split; [|apply Forall_app; split].
  - constructor; [|constructor]. right.
    rewrite formatCell_runes by (unfold columnWidth; lia).
    change (" " +:+ Key s) with (String " " (Key s)).
    rewrite RuneCount_cons_ascii by (vm_compute; reflexivity).
    unfold columnWidth. lia.
  - apply Forall_forall. intros line Hin.
    apply list_elem_of_In, in_map_iff in Hin.
    destruct Hin as [w [<- Hw]]. right.
    rewrite formatCell_runes by (unfold columnWidth; lia).
    change ("  " +:+ w) with (String " " (String " " w)).
    rewrite !RuneCount_cons_ascii by (vm_compute; reflexivity).
    pose proof (wordWrap_fits (Description s) Hwords) as Hfit.
    rewrite Forall_forall in Hfit.
    change (columnWidth - 2) with 23 in Hw.
    apply list_elem_of_In in Hw. specialize (Hfit w Hw).
    pose proof (RuneCount_le_len w). pose proof (RuneCount_nonneg w).
    unfold columnWidth. lia.
  - constructor; [left; reflexivity | constructor].
Qed.

Lemma shortcutBlock_shape s i :
  fitsCell s -> blockShape (mkBlock (shortcutBlock s) false i).
Proof.
  intros Hfit. split.
  - eapply Forall_impl; [exact (shortcutBlock_fullOrEmpty s Hfit)|].
    intros line Hline. left. exact Hline.
  - cbn [isHeader]. discriminate.
Qed.

Lemma blocks_shape l :
  Forall fitsCell l -> Forall blockShape (fst (buildBlocks l)).
Proof.
  intros Hfits.
  rewrite buildBlocks_blocksFrom. unfold orderedCategories.
  cbn [blocksFrom].
  pose proof headerBlock_shape as Hhdr.
  rewrite (buildBlocks_blocksFrom []) in Hhdr.
  unfold orderedCategories in Hhdr. cbn [blocksFrom] in Hhdr.
  unfold categoryBlocks in *. cbn [inCategory List.filter map app] in Hhdr.
  assert (Hentries : forall i c,
             Forall blockShape
                    (map (fun s => mkBlock (shortcutBlock s) false (Z.of_nat i))
                         (inCategory c l))).
  { intros i c. apply Forall_forall. intros b Hb.
    apply list_elem_of_In, in_map_iff in Hb. destruct Hb as [s [<- Hs]].
    apply shortcutBlock_shape.
    unfold inCategory in Hs. apply filter_In in Hs. destruct Hs as [Hs _].
    rewrite Forall_forall in Hfits. apply Hfits.
    apply list_elem_of_In. exact Hs. }
  repeat match goal with
         | H : Forall _ (_ :: _) |- _ =>
           let Hh := fresh "Hh" in
           inversion H as [|? ? Hh ?]; subst; clear H
         end.
  repeat (apply Forall_app; split;
          [constructor; [assumption | apply Hentries]|]).
  constructor.
Qed.

(** X17: when every shortcut fits a cell (a key of at most 24 runes, no
    word of the description longer than 23 bytes), every line of an
    entry block is empty or exactly 25 runes wide, and so is every line
    of a header block but its rule.  The rule, which every header holds,
    is 25 times the three runes of the literal of [main.go]: 75 runes
    and 200 bytes, three times the width of a cell. *)
Theorem buildBlocks_line_widths l :
  Forall fitsCell l ->
  utf8.RuneCountInString ruleLine = 75 /\
  len ruleLine = 200 /\
  Forall blockShape (fst (buildBlocks l)).
Proof.
  intros Hfits. destruct ruleLine_runes as [Hr Hl].
  split; [exact Hr|]. split; [exact Hl|]. apply blocks_shape. exact Hfits.
Qed.

Lemma buildBlocks_line_widths_witness :
  Forall fitsCell [mkShortcut "Prefix d" "Detach from session" "Sessions"] /\
  utf8.RuneCountInString ruleLine = 75 /\
  len ruleLine = 200 /\
  Forall blockShape
         (fst (buildBlocks
                 [mkShortcut "Prefix d" "Detach from session" "Sessions"])).
Proof.
  assert (Hfits : Forall fitsCell
                    [mkShortcut "Prefix d" "Detach from session" "Sessions"]).
  { constructor; [|constructor]. split; [vm_compute; discriminate|].
    cbn [Description].
    change (strings.Fields (strings.TrimSpace "Detach from session"))
      with ["Detach"; "from"; "session"].
    repeat constructor; vm_compute; discriminate. }
  split; [exact Hfits|].
  apply (buildBlocks_line_widths
           [mkShortcut "Prefix d" "Detach from session" "Sessions"]).
  exact Hfits.
Defined.

(** ** What the program shows of its data set *)

Lemma sameLines_eq a : forall b, sameLines a b = true <-> a = b.
Proof.
  induction a as [|x a IH]; intros [|y b]; cbn [sameLines];
    try (split; [discriminate | discriminate]); [tauto|].
  rewrite andb_true_iff, String.eqb_eq, IH. split.
  - intros [-> ->]. reflexivity.
  - intros [= -> ->]. split; reflexivity.
Qed.

Lemma nonBlank_app a b : nonBlank (a ++ b) = nonBlank a ++ nonBlank b.
Proof. unfold nonBlank. apply List.filter_app. Qed.

(** Leaving out the blank first line of a block does not change the
    lines that are not blank. *)
Lemma nonBlank_placed blocks placed :
  Forall2 placedLines blocks placed ->
  nonBlank (concat placed) = nonBlank (concat (map lines blocks)).
Proof.
  induction 1 as [|blk ls blocks placed Hp _ IH]; [reflexivity|].
  cbn [concat map]. rewrite !nonBlank_app, IH. f_equal.
  destruct Hp as [->|[l0 [-> Hblank]]]; [reflexivity|].
  unfold nonBlank. cbn [List.filter]. rewrite Hblank. reflexivity.
Qed.

Lemma showsAll_below_38 :
  forallb (fun n => Bool.eqb (showsAll n) (completeBelow38 n))
          (map Z.of_nat (seq 1 37)) = true.
Proof. vm_compute. reflexivity. Qed.

Lemma staticBlocks_length : length staticBlocks = 38%nat.
Proof. vm_compute. reflexivity. Qed.

(** X18: what the packer keeps of the static data set.  For N >= 1
    columns, the columns hold every line of the data set that is not
    blank exactly when N is 1, 13, 21, 22 or 23, or at least 38 (the
    number of blocks).  For every other N, among them 2 to 12, the
    widths from 54 to 350 with the fallback width 80, blocks at the end
    of the data set are dropped. *)
Theorem static_data_set_shown_completely numColumns :
  1 <= numColumns ->
  exists cols,
    pack staticBlocks 120 numColumns = Ok cols /\
    (nonBlank (concat cols) = nonBlank (concat (map lines staticBlocks))
     <-> completeBelow38 numColumns = true \/ 38 <= numColumns).
Proof.
  intros HN.
  destruct (Z_le_dec 38 numColumns) as [Hbig|Hsmall].
  - destruct (pack_all_placed staticBlocks 120 numColumns HN)
      as [cols [placed [Hpack [Hall Hcat]]]].
    { rewrite staticBlocks_length. lia. }
    exists cols. split; [exact Hpack|]. split; [intros _; right; exact Hbig|].
    intros _. rewrite Hcat. apply nonBlank_placed. exact Hall.
  - destruct (pack_total staticBlocks 120 numColumns HN)
      as [cols [Hpack _]].
    exists cols. split; [exact Hpack|].
    pose proof showsAll_below_38 as Hcheck.
    rewrite forallb_forall in Hcheck.
    specialize (Hcheck numColumns).
    assert (Hin : In numColumns (map Z.of_nat (seq 1 37))).
    { apply in_map_iff. exists (Z.to_nat numColumns).
      split; [lia|]. apply in_seq. lia. }
    specialize (Hcheck Hin). apply Bool.eqb_prop in Hcheck.
    unfold showsAll in Hcheck. rewrite Hpack in Hcheck.
    rewrite <- Hcheck, sameLines_eq. split; [tauto|].
    intros [H|H]; [exact H | lia].
Qed.

Lemma static_data_set_shown_completely_witness :
  1 <= 2 /\
  exists cols,
    pack staticBlocks 120 2 = Ok cols /\
    (nonBlank (concat cols) = nonBlank (concat (map lines staticBlocks))
     <-> completeBelow38 2 = true \/ 38 <= 2).
Proof.
  split; [lia|]. apply (static_data_set_shown_completely 2). lia.
Defined.

(** ** The width of the rows of a run *)

Lemma placedLines_incl blk ls line :
  placedLines blk ls -> In line ls -> In line (lines blk).
Proof.
  intros [->|[l0 [-> _]]] Hin; [exact Hin | right; exact Hin].
Qed.

Lemma placed_lines_of_blocks blocks placed :
  Forall2 placedLines blocks placed ->
  forall line, In line (concat placed) ->
               exists blk, In blk blocks /\ In line (lines blk).
Proof.
  induction 1 as [|blk ls blocks placed Hp _ IH]; intros line Hin.
  - destruct Hin.
  - cbn [concat] in Hin. apply in_app_or in Hin. destruct Hin as [Hin|Hin].
    + exists blk. split; [left; reflexivity|].
      eapply placedLines_incl; eassumption.
    + destruct (IH line Hin) as [b [Hb Hl]].
      exists b. split; [right; exact Hb | exact Hl].
Qed.

(** Every line of the columns is a line of one of the blocks. *)
Lemma pack_lines_of_blocks allBlocks totalLines numColumns :
  1 <= numColumns ->
  exists cols,
    pack allBlocks totalLines numColumns = Ok cols /\
    length cols = Z.to_nat numColumns /\
    forall line, In line (concat cols) ->
                 exists blk, In blk allBlocks /\ In line (lines blk).
Proof.
  intros HN.
  destruct (pack_total allBlocks totalLines numColumns HN)
    as [cols [Hpack Hlen]].
  exists cols. split; [exact Hpack|]. split; [exact Hlen|].
  rewrite pack_unfold in Hpack by exact HN.
  destruct (packLoop_order allBlocks (columnHeightOf totalLines numColumns)
              numColumns allBlocks 0 _ (wfState_initial numColumns HN)
              (restEmpty_initial numColumns))
    as [st' [placed [Hrun [Hle [Hall [Hcat _]]]]]].
  rewrite Hrun in Hpack. cbn [bind] in Hpack. injection Hpack as <-.
  cbn [columns] in Hcat. rewrite concat_replicate_nil in Hcat.
  intros line Hin. rewrite Hcat in Hin.
  destruct (placed_lines_of_blocks _ _ Hall line Hin) as [blk [Hb Hl]].
  exists blk. split; [|exact Hl].
  rewrite <- (take_drop (length placed) allBlocks).
  apply in_or_app. left. exact Hb.
Qed.

Lemma lineAt_in_columns cols col row :
  lineAt cols col row = "" \/ In (lineAt cols col row) (concat cols).
Proof.
  unfold lineAt. destruct (cols !! col) as [column|] eqn:Hc; [|left; reflexivity].
  destruct (column !! row) as [line|] eqn:Hr; [|left; reflexivity].
  right. cbn. apply in_concat. exists column. split.
  - apply list_elem_of_In. eapply list_elem_of_lookup_2. exact Hc.
  - apply list_elem_of_In. eapply list_elem_of_lookup_2. exact Hr.
Qed.

Lemma RuneCount_cells_rules cols row tail_ (l : list nat) :
  (forall col, In col l ->
               utf8.RuneCountInString (lineAt cols col row) <= 25 \/
               lineAt cols col row = ruleLine) ->
  utf8.RuneCountInString
    (strings.joinBytes (map (cellText cols row) l) +:+ tail_)
  = 27 * llen l
    + 50 * llen (List.filter
                   (fun col => String.eqb (lineAt cols col row) ruleLine) l)
    + utf8.RuneCountInString tail_.
Proof.
  induction l as [|col l IH]; intros Hfit.
  - cbn [map strings.joinBytes List.filter]. rewrite append_nil_l.
    unfold llen; simpl. lia.
  - cbn [map strings.joinBytes List.filter]. rewrite append_assoc.
    rewrite cellText_ends_with_space.
    rewrite RuneCount_append_after_ascii by (vm_compute; reflexivity).
    rewrite <- cellText_ends_with_space, RuneCount_cellText.
    rewrite IH by (intros c Hc; apply Hfit; right; exact Hc).
    pose proof (RuneCount_nonneg (lineAt cols col row)) as Hpos.
    destruct ruleLine_runes as [Hrule _].
    destruct (String.eqb (lineAt cols col row) ruleLine) eqn:E.
    + apply String.eqb_eq in E. rewrite E, Hrule.
      unfold llen. cbn [length]. lia.
    + apply String.eqb_neq in E.
      destruct (Hfit col (or_introl eq_refl)) as [Hle | Heq];
        [|contradiction].
      unfold llen. cbn [length]. lia.
Qed.

(** The first block is placed whole at the top of column 0. *)
Lemma pack_first_block blk rest totalLines numColumns :
  1 <= numColumns ->
  exists cols below,
    pack (blk :: rest) totalLines numColumns = Ok cols /\
    length cols = Z.to_nat numColumns /\
    cols !! 0%nat = Some (lines blk ++ below).
Proof.
  intros HN. rewrite pack_unfold by exact HN.
  destruct (packLoop_follows (blk :: rest)
              (columnHeightOf totalLines numColumns) numColumns
              (blk :: rest) 0
              (mkPack (replicate (Z.to_nat numColumns) []) 0) []
              (wfState_initial numColumns HN)
              (restEmpty_initial numColumns))
    as [st' [tr [Hrun [Hlen [Hle [Hfol [Hin [Hcols Hdrop]]]]]]]].
  { cbn [columns currentCol]. apply lookup_replicate_2. lia. }
  rewrite Hrun. cbn [bind].
  cbn [columns currentCol] in Hlen, Hcols, Hfol.
  rewrite length_replicate in Hlen.
  destruct tr as [|[c ls] tr].
  - exfalso. destruct Hdrop as [last [Hlast Hne]]; [cbn [length]; lia|].
    rewrite (Hcols (Z.to_nat numColumns - 1)%nat [])
      in Hlast by (apply lookup_replicate_2; lia).
    cbn [columnOf app] in Hlast. congruence.
  - cbn [length take firstn] in Hfol.
    exists (columns st'), (columnOf 0 tr).
    split; [reflexivity|]. split; [exact Hlen|].
    rewrite (Hcols 0%nat []) by (apply lookup_replicate_2; lia).
    inversion Hfol as [| ? ? ? ? ? Hrest | ? ? ? ? ? ? Hne]; subst.
    + cbn [columnOf Nat.eqb app]. reflexivity.
    + contradiction.
Qed.

Lemma buildBlocks_first l :
  exists rest,
    fst (buildBlocks l)
    = mkBlock [center "Sessions" columnWidth; ruleLine; ""] true 0 :: rest.
Proof.
  rewrite buildBlocks_blocksFrom. unfold orderedCategories.
  cbn [blocksFrom]. unfold categoryBlocks at 1. cbn [app].
  eexists. reflexivity.
Qed.

(** X19: the width of the rows.  When every shortcut fits a cell and the
    terminal is between 27 and 65535 wide, 27 * N is within the terminal
    width, and every row the layout routine writes is 27 * N runes and a
    newline long, and 50 runes more for every rule in it: a row without
    a rule fits the terminal, a rule makes its cell 77 runes wide.  The
    rule under the first category name is in column 0 of the second
    row. *)
Theorem display_row_width l stty out :
  Forall fitsCell l ->
  27 <= getTerminalWidth stty <= maxTerminalWidth ->
  27 * displayColumns stty <= getTerminalWidth stty /\
  exists cols,
    pack (fst (buildBlocks l)) (snd (buildBlocks l)) (displayColumns stty)
    = Ok cols /\
    displayShortcutsInColumns l stty out
    = Ok (out +:+ strings.joinBytes
                    (gridRows cols (displayHeight l stty)
                              (displayColumns stty))) /\
    (forall row,
       utf8.RuneCountInString (rowText cols (displayColumns stty) row)
       = 27 * displayColumns stty + 1
         + 50 * rulesInRow cols (displayColumns stty) row) /\
    lineAt cols 0 1 = ruleLine /\
    1 <= rulesInRow cols (displayColumns stty) 1.
Proof.
  intros Hfits [Hw _].
  destruct (numDisplayColumns_nonneg (getTerminalWidth stty) ltac:(lia))
    as [HNeq _].
  pose proof (Z.div_mod (getTerminalWidth stty) 27 ltac:(lia)) as Hdm.
  pose proof (Z.mod_pos_bound (getTerminalWidth stty) 27 ltac:(lia)) as Hm.
  assert (Hq : 1 <= getTerminalWidth stty / 27)
    by (apply Z.div_le_lower_bound; lia).
  assert (HN : 1 <= displayColumns stty)
    by (unfold displayColumns; lia).
  split; [unfold displayColumns; lia|].
  destruct (pack_lines_of_blocks (fst (buildBlocks l)) (snd (buildBlocks l))
              (displayColumns stty) HN) as [cols [Hpack [Hlen Hlines]]].
  destruct (render_grid cols (displayHeight l stty) (displayColumns stty)
              out Hlen) as [Hrender _].
  exists cols. split; [exact Hpack|].
  split; [rewrite display_unfold, Hpack; exact Hrender|].
  pose proof (blocks_shape l Hfits) as Hshape.
  assert (Hrule : lineAt cols 0 1 = ruleLine).
  { destruct (buildBlocks_first l) as [rest Hfirst].
    destruct (pack_first_block
                (mkBlock [center "Sessions" columnWidth; ruleLine; ""] true 0)
                rest (snd (buildBlocks l)) (displayColumns stty) HN)
      as [cols' [below [Hpack' [_ Hcol0]]]].
    rewrite <- Hfirst, Hpack in Hpack'. injection Hpack' as <-.
    unfold lineAt. rewrite Hcol0. reflexivity. }
  split; [|split; [exact Hrule|]].
  - intros row. unfold rowText, rulesInRow.
    rewrite RuneCount_cells_rules.
    + unfold llen at 1. rewrite length_seq.
      change (utf8.RuneCountInString newline) with 1. lia.
    + intros col _.
      destruct (lineAt_in_columns cols col row) as [-> | Hin];
        [left; vm_compute; discriminate|].
      destruct (Hlines _ Hin) as [blk [Hblk Hline]].
      rewrite Forall_forall in Hshape.
      apply list_elem_of_In in Hblk. destruct (Hshape blk Hblk) as [Hls _].
      rewrite Forall_forall in Hls.
      apply list_elem_of_In in Hline.
      destruct (Hls _ Hline) as [[-> | ->] | [_ ->]];
        [left; vm_compute; discriminate | left; lia | right; reflexivity].
  - unfold rulesInRow.
    destruct (Z.to_nat (displayColumns stty)) as [|n] eqn:En; [lia|].
    cbn [seq List.filter]. rewrite Hrule, String.eqb_refl.
    unfold llen. cbn [length]. lia.
Qed.

Lemma display_row_width_witness :
  Forall fitsCell [mkShortcut "Prefix d" "Detach from session" "Sessions"] /\
  27 <= getTerminalWidth None <= maxTerminalWidth /\
  27 * displayColumns None <= getTerminalWidth None /\
  exists cols,
    pack (fst (buildBlocks
                 [mkShortcut "Prefix d" "Detach from session" "Sessions"]))
         (snd (buildBlocks
                 [mkShortcut "Prefix d" "Detach from session" "Sessions"]))
         (displayColumns None)
    = Ok cols /\
    displayShortcutsInColumns
      [mkShortcut "Prefix d" "Detach from session" "Sessions"] None ""
    = Ok ("" +:+ strings.joinBytes
                   (gridRows cols
                      (displayHeight
                         [mkShortcut "Prefix d" "Detach from session"
                                     "Sessions"] None)
                      (displayColumns None))) /\
    (forall row,
       utf8.RuneCountInString (rowText cols (displayColumns None) row)
       = 27 * displayColumns None + 1
         + 50 * rulesInRow cols (displayColumns None) row) /\
    lineAt cols 0 1 = ruleLine /\
    1 <= rulesInRow cols (displayColumns None) 1.
Proof.
  assert (Hfits : Forall fitsCell
                    [mkShortcut "Prefix d" "Detach from session" "Sessions"]).
  { constructor; [|constructor]. split; [vm_compute; discriminate|].
    cbn [Description].
    change (strings.Fields (strings.TrimSpace "Detach from session"))
      with ["Detach"; "from"; "session"].
    repeat constructor; vm_compute; discriminate. }
  split; [exact Hfits|].
  split; [vm_compute; split; discriminate|].
  apply (display_row_width
           [mkShortcut "Prefix d" "Detach from session" "Sessions"] None "");
    [exact Hfits | vm_compute; split; discriminate].
Defined.

(** ** The fallback width *)

Lemma Atoi_out_of_range s v :
  s <> "" ->
  allChars isDigit s = true ->
  strconv.parseDigits s 0 = Some v ->
  strconv.maxInt < v ->
  strconv.Atoi s = None.
Proof.
  intros Hne Hdig Hparse Hrange. destruct s as [|c t]; [contradiction|].
  unfold strconv.Atoi.
  assert (Hc : isDigit c = true).
  { cbn [allChars] in Hdig. apply andb_true_iff in Hdig. tauto. }
  assert (Hsign : Ascii.eqb c "-" || Ascii.eqb c "+" = false).
  { revert Hc. clear.
    destruct c as [[] [] [] [] [] [] [] []]; vm_compute; congruence. }
  apply orb_false_iff in Hsign. destruct Hsign as [Hminus Hplus].
  rewrite Hminus, Hplus. cbn [orb]. rewrite Hparse.
  destruct ((strconv.minInt <=? v) && (v <=? strconv.maxInt)) eqn:E;
    [|reflexivity].
  apply andb_true_iff in E. destruct E as [_ E]. apply Z.leb_le in E. lia.
Qed.

(** X20: getTerminalWidth falls back to 80 instead of failing or
    wrapping around: when [stty] could not be run, and when the column
    count it printed is beyond the largest 64-bit integer. *)
Theorem getTerminalWidth_falls_back :
  getTerminalWidth None = 80 /\
  forall rows cols : N,
    strconv.maxInt < Z.of_N cols ->
    getTerminalWidth
      (Some ((decimalN rows +:+ " " +:+ decimalN cols) +:+ newline))
    = 80.
Proof.
  split; [reflexivity|]. intros rows cols Hbig. unfold getTerminalWidth.
  assert (Hplain : forall n, allChars isPlain (decimalN n) = true).
  { intros n. apply (allChars_impl isDigit); [apply isDigit_isPlain|].
    apply decimalN_digits. }
  rewrite TrimSpace_two_fields;
    [| apply decimalN_nonempty | apply decimalN_nonempty | apply Hplain
     | apply Hplain].
  rewrite Split_two_fields by apply Hplain.
  change (llen [decimalN rows; decimalN cols] =? 2) with true. cbv iota.
  change ([decimalN rows; decimalN cols] !! 1%nat)
    with (Some (decimalN cols)).
  cbv iota.
  rewrite (Atoi_out_of_range (decimalN cols) (Z.of_N cols));
    [reflexivity | apply decimalN_nonempty | apply decimalN_digits
     | apply parseDigits_to_uint | exact Hbig].
Qed.
